(** * Log analyzer: a shallow embedding of [log_analyzer.py]

    The development follows the Python module function by function:
    the pattern table of [LogAnalyzer.__init__] and the matching
    discipline of [re.match], [parse_timestamp] over a model of
    [datetime.strptime], [extract_fields], [parse_log_line], the line
    loop of [parse_log_file], [analyze_entries] and [detect_anomalies].

    Conventions of the model:
    - characters are the code points 0..255 ([ascii]); the character
      classes and the case-insensitive comparison are the ones CPython
      uses for [str] on that range, where only the letters A to Z
      have a lower-case partner among the letters of the patterns;
      text with other characters is outside the model;
    - a Python call is a [result]: a value or a raised exception;
    - dictionaries are association lists in insertion order;
    - integers are unbounded ([Z]); CPython's limit of 4300 digits on
      the conversions between text and integers, beyond which [int]
      and the formatting of an integer raise [ValueError], is not part
      of the model: the results that say a call returns are stated for
      lines and entries within the limit;
    - floats are rendered as exact rationals ([Q]), without rounding
      and without the [OverflowError] of a quotient too large for a
      float;
    - the keys of a counter are compared structurally, which is
      Python's equality on text and on integers (Python also merges
      [True] with 1 and [False] with 0);
    - [strptime] follows CPython 3.11 under the C locale. *)

From Stdlib Require Import Ascii String List ZArith NArith Lia Bool Arith.
From Stdlib Require Import QArith Sorted Permutation DecimalString.
Import ListNotations.

Local Open Scope Z_scope.
Local Open Scope list_scope.

Set Implicit Arguments.

(** ** Text *)

(** A Python [str] is the list of its characters. *)
Definition str := list ascii.

Definition lit (s : string) : str := list_ascii_of_string s.

(** The double quote character, code 34. *)
Definition dq : ascii := ascii_of_nat 34.
(** Line feed, code 10. *)
Definition lf : ascii := ascii_of_nat 10.

Definition code (c : ascii) : N := N_of_ascii c.

Definition between (lo hi : N) (c : ascii) : bool :=
  (N.leb lo (code c) && N.leb (code c) hi)%bool.

(** [str.isspace] on one character, also the class [\s] of [re] and the
    separator set of [str.split()] and [str.strip()]. *)
Definition is_space (c : ascii) : bool :=
  (between 9 13 c || between 28 32 c || N.eqb (code c) 133
   || N.eqb (code c) 160)%bool.

(** The class [\S]. *)
Definition non_space (c : ascii) : bool := negb (is_space c).

(** The class [\d] (Unicode decimal digits; on this range, 0-9). *)
Definition is_digit (c : ascii) : bool := between 48 57 c.

(** [str.isdigit] on one character: decimal digits and the superscripts
    two, three and one (codes 178, 179, 185). *)
Definition is_digit_char (c : ascii) : bool :=
  (is_digit c || N.eqb (code c) 178 || N.eqb (code c) 179
   || N.eqb (code c) 185)%bool.

(** [str.isalnum] on one character. *)
Definition is_alnum (c : ascii) : bool :=
  (is_digit c || between 65 90 c || between 97 122 c
   || N.eqb (code c) 170 || N.eqb (code c) 178 || N.eqb (code c) 179
   || N.eqb (code c) 181 || N.eqb (code c) 185 || N.eqb (code c) 186
   || between 188 190 c || between 192 214 c || between 216 246 c
   || between 248 255 c)%bool.

(** The class [\w]. *)
Definition is_word (c : ascii) : bool :=
  (is_alnum c || N.eqb (code c) 95)%bool.

(** The class [.] (no DOTALL flag): anything but a line feed. *)
Definition dot (c : ascii) : bool := negb (Ascii.eqb c lf).

(** [str.lower] on one character of the ASCII range; used for the
    IGNORECASE comparisons, whose patterns are ASCII letters. *)
Definition lower (c : ascii) : ascii :=
  if between 65 90 c then ascii_of_N (code c + 32) else c.

(** [str.isdigit]: non-empty and every character a digit character. *)
Definition isdigit (s : str) : bool :=
  match s with
  | [] => false
  | _ => forallb is_digit_char s
  end.

(** [str.strip()] and [str.split()]. *)
Fixpoint lstrip (s : str) : str :=
  match s with
  | c :: s' => if is_space c then lstrip s' else s
  | [] => []
  end.

Definition rstrip (s : str) : str := rev (lstrip (rev s)).

Definition strip (s : str) : str := rstrip (lstrip s).

(** [split_go cur s]: [cur] is the current token, reversed. *)
Fixpoint split_go (cur : str) (s : str) : list str :=
  match s with
  | [] => match cur with [] => [] | _ => [rev cur] end
  | c :: s' =>
      if is_space c
      then match cur with
           | [] => split_go [] s'
           | _ => rev cur :: split_go [] s'
           end
      else split_go (c :: cur) s'
  end.

Definition split (s : str) : list str := split_go [] s.

Definition str_eqb (a b : str) : bool :=
  if list_eq_dec ascii_dec a b then true else false.

(** ** Regular expressions and backtracking matching

    The fragment of [re] syntax the module and [_strptime] use:
    character classes, concatenation, ordered alternation, greedy and
    lazy repetition of a single class, and capturing groups. *)

Module Re.

Inductive regex : Type :=
| Eps
| Chr (p : ascii -> bool)
| Seq (r1 r2 : regex)
| Alt (r1 r2 : regex)
| Star (greedy : bool) (p : ascii -> bool)
| Group (r : regex).

(** Derived forms. *)
Definition chr (c : ascii) : regex := Chr (Ascii.eqb c).
Definition cat (rs : list regex) : regex := fold_right Seq Eps rs.
Definition text (s : string) : regex := cat (map chr (lit s)).
Definition plus (p : ascii -> bool) : regex := Seq (Chr p) (Star true p).
Definition lazy (p : ascii -> bool) : regex := Star false p.
Definition opt (r : regex) : regex := Alt r Eps.
Fixpoint rep (n : nat) (p : ascii -> bool) : regex :=
  match n with
  | O => Eps
  | S n' => Seq (Chr p) (rep n' p)
  end.
(** [p{1,n}], greedy. *)
Fixpoint upto (n : nat) (p : ascii -> bool) : regex :=
  match n with
  | O => Eps
  | S n' => Seq (Chr p) (opt (upto n' p))
  end.
(** Alternation of several branches, the first preferred. *)
Fixpoint alts (rs : list regex) : regex :=
  match rs with
  | [] => Chr (fun _ => false)
  | [r] => r
  | r :: rs' => Alt r (alts rs')
  end.
(** A literal under the IGNORECASE flag. *)
Definition chr_ci (c : ascii) : regex :=
  Chr (fun x => Ascii.eqb (lower x) (lower c)).
Definition text_ci (s : string) : regex := cat (map chr_ci (lit s)).

(** The text consumed between two positions of the same subject. *)
Definition consumed (s rest : str) : str :=
  firstn (length s - length rest) s.

Section Matcher.
Variable R : Type.

(** Greedy repetition: take one more character first, give it back
    when the rest of the pattern fails. *)
Fixpoint star_greedy (p : ascii -> bool) (k : str -> option R)
         (s : str) : option R :=
  match s with
  | c :: s' =>
      if p c
      then match star_greedy p k s' with
           | Some x => Some x
           | None => k s
           end
      else k s
  | [] => k []
  end.

(** Lazy repetition: try the rest of the pattern first. *)
Fixpoint star_lazy (p : ascii -> bool) (k : str -> option R)
         (s : str) : option R :=
  match k s with
  | Some x => Some x
  | None =>
      match s with
      | c :: s' => if p c then star_lazy p k s' else None
      | [] => None
      end
  end.

(** [run r k s caps]: match [r] at the head of [s]; [k] is the rest
    of the pattern, applied to the remaining text and the groups
    closed so far.  The first success in backtracking order wins. *)
Fixpoint run (r : regex) (k : str -> list str -> option R)
         (s : str) (caps : list str) : option R :=
  match r with
  | Eps => k s caps
  | Chr p =>
      match s with
      | c :: s' => if p c then k s' caps else None
      | [] => None
      end
  | Seq a b => run a (fun s' caps' => run b k s' caps') s caps
  | Alt a b =>
      match run a k s caps with
      | Some x => Some x
      | None => run b k s caps
      end
  | Star true p => star_greedy p (fun s' => k s' caps) s
  | Star false p => star_lazy p (fun s' => k s' caps) s
  | Group a =>
      run a (fun s' caps' => k s' (caps' ++ [consumed s s'])) s caps
  end.
End Matcher.

(** [re.match(pattern, s)]: anchored at the start of [s] only.  The
    result is [match.groups()] together with the unmatched rest. *)
Definition rmatch (r : regex) (s : str) : option (list str * str) :=
  run r (fun rest caps => Some (caps, rest)) s [].

(** [re.fullmatch(pattern, s)]: the whole of [s] must be consumed. *)
Definition fullmatch (r : regex) (s : str) : option (list str) :=
  run r (fun rest caps => match rest with [] => Some caps | _ => None end)
      s [].

(** [re.search(pattern + '$'?, s)]: the leftmost start at which the
    pattern matches; with [at_end], a trailing [$] must hold where the
    match stops (end of text, or just before a final line feed). *)
Definition dollar (rest : str) : bool :=
  match rest with
  | [] => true
  | [c] => Ascii.eqb c lf
  | _ => false
  end.

Fixpoint search (r : regex) (at_end : bool) (s : str) : bool :=
  match run r (fun rest _ =>
                 if (negb at_end || dollar rest)%bool
                 then Some tt else None) s [] with
  | Some _ => true
  | None =>
      match s with
      | [] => false
      | _ :: s' => search r at_end s'
      end
  end.

(** Declarative reading: [sem r w g] says that [r] matches exactly the
    word [w], closing the groups [g] in order. *)
Inductive sem : regex -> str -> list str -> Prop :=
| sem_eps : sem Eps [] []
| sem_chr p c : p c = true -> sem (Chr p) [c] []
| sem_seq a b w1 w2 g1 g2 :
    sem a w1 g1 -> sem b w2 g2 -> sem (Seq a b) (w1 ++ w2) (g1 ++ g2)
| sem_alt_l a b w g : sem a w g -> sem (Alt a b) w g
| sem_alt_r a b w g : sem b w g -> sem (Alt a b) w g
| sem_star gr p w : forallb p w = true -> sem (Star gr p) w []
| sem_group a w g : sem a w g -> sem (Group a) w (g ++ [w]).

End Re.

(** ** Exceptions *)

Inductive exn : Type := TypeError | ValueError | IndexError | KeyError.

(** The outcome of a Python call: a value, or an exception that
    propagates to the caller. *)
Inductive result (A : Type) : Type :=
| Ok (a : A)
| Raise (e : exn).
Arguments Ok {A} a.
Arguments Raise {A} e.

Definition bind {A B : Type} (m : result A) (f : A -> result B) : result B :=
  match m with
  | Ok a => f a
  | Raise e => Raise e
  end.

Notation "x <- m ;; f" := (bind m (fun x => f))
  (at level 61, m at next level, right associativity).

Fixpoint mapM {A B : Type} (f : A -> result B) (l : list A)
  : result (list B) :=
  match l with
  | [] => Ok []
  | a :: l' => b <- f a ;; bs <- mapM f l' ;; Ok (b :: bs)
  end.

Definition returns {A : Type} (m : result A) : Prop := exists a, m = Ok a.

(** Sequence indexing [seq[i]]. *)
Definition getitem {A : Type} (l : list A) (i : nat) : result A :=
  match nth_error l i with
  | Some x => Ok x
  | None => Raise IndexError
  end.

(** [int(s)] on decimal text, surrounding white space allowed.  (A sign
    and digit-group underscores, which [int] also accepts, never reach
    it from this module.) *)
Definition digit_val (c : ascii) : Z := Z.of_N (code c) - 48.

Definition int_of_digits (s : str) : Z :=
  fold_left (fun acc c => acc * 10 + digit_val c) s 0.

Definition py_int (s : str) : result Z :=
  match strip s with
  | [] => Raise ValueError
  | t => if forallb is_digit t then Ok (int_of_digits t)
         else Raise ValueError
  end.

(** ** Instants: [datetime.datetime] *)

(** [tzinfo] is the UTC offset in microseconds of an aware instant and
    [None] for a naive one. *)
Record datetime : Type := mkdt {
  year : Z; month : Z; day : Z;
  hour : Z; minute : Z; second : Z; microsecond : Z;
  tzinfo : option Z
}.

Module Calendar.

Definition is_leap (y : Z) : bool :=
  ((y mod 4 =? 0) && (negb (y mod 100 =? 0) || (y mod 400 =? 0)))%bool.

Definition days_in_month (y m : Z) : Z :=
  if ((m =? 2) && is_leap y)%bool then 29
  else nth (Z.to_nat m) [0; 31; 28; 31; 30; 31; 30; 31; 31; 30; 31; 30; 31] 0.

Definition days_before_year (y : Z) : Z :=
  let y1 := y - 1 in y1 * 365 + y1 / 4 - y1 / 100 + y1 / 400.

Definition days_before_month (y m : Z) : Z :=
  nth (Z.to_nat m) [0; 0; 31; 59; 90; 120; 151; 181; 212; 243; 273; 304; 334] 0
  + (if ((2 <? m) && is_leap y)%bool then 1 else 0).

Definition ymd2ord (y m d : Z) : Z :=
  days_before_year y + days_before_month y m + d.

(** Microseconds of the wall-clock reading since ordinal day 0. *)
Definition local_micros (t : datetime) : Z :=
  (((ymd2ord (year t) (month t) (day t) * 24 + hour t) * 60 + minute t) * 60
   + second t) * 1000000 + microsecond t.

(** The constructor [datetime(y, m, d, H, M, S, us, tz)] with its range
    checks; [timezone(offset)] wants the offset strictly inside a day. *)
Definition make_datetime (y m d H M S us : Z) (tz : option Z)
  : result datetime :=
  if ((1 <=? y) && (y <=? 9999) && (1 <=? m) && (m <=? 12)
      && (1 <=? d) && (d <=? days_in_month y m)
      && (0 <=? H) && (H <=? 23) && (0 <=? M) && (M <=? 59)
      && (0 <=? S) && (S <=? 59) && (0 <=? us) && (us <=? 999999)
      && match tz with
         | None => true
         | Some off => (-86400000000 <? off) && (off <? 86400000000)
         end)%bool
  then Ok (mkdt y m d H M S us tz)
  else Raise ValueError.

(** [a < b] on instants: naive with naive by wall clock, aware with
    aware by UTC instant, mixed operands raise [TypeError]. *)
Definition lt (a b : datetime) : result bool :=
  match tzinfo a, tzinfo b with
  | None, None => Ok (local_micros a <? local_micros b)
  | Some oa, Some ob => Ok (local_micros a - oa <? local_micros b - ob)
  | _, _ => Raise TypeError
  end.

(** [a - b], a [timedelta] counted in microseconds. *)
Definition sub (a b : datetime) : result Z :=
  match tzinfo a, tzinfo b with
  | None, None => Ok (local_micros a - local_micros b)
  | Some oa, Some ob => Ok ((local_micros a - oa) - (local_micros b - ob))
  | _, _ => Raise TypeError
  end.

End Calendar.

(** ** [datetime.strptime]

    A model of CPython's [_strptime] for the directives the module's
    four layouts use, under the C locale: the format is turned into a
    regular expression with one group per directive, the text is
    matched with [re.match], unconsumed text is an error, and the
    groups are converted to the fields of the instant. *)

Module Strptime.
Import Re.

Inductive directive : Type :=
| D_d | D_b | D_Y | D_m | D_H | D_M | D_S | D_f | D_z.

Inductive token : Type :=
| Dir (d : directive)
| Ws
| Lit (c : ascii)
| Bad.

Definition directive_of (c : ascii) : option directive :=
  if Ascii.eqb c "d" then Some D_d
  else if Ascii.eqb c "b" then Some D_b
  else if Ascii.eqb c "Y" then Some D_Y
  else if Ascii.eqb c "m" then Some D_m
  else if Ascii.eqb c "H" then Some D_H
  else if Ascii.eqb c "M" then Some D_M
  else if Ascii.eqb c "S" then Some D_S
  else if Ascii.eqb c "f" then Some D_f
  else if Ascii.eqb c "z" then Some D_z
  else None.

(** [TimeRE.pattern]: a run of white space in the format stands for
    [\s+], [%x] for the group of directive [x], any other character for
    itself.  [Bad] marks a stray [%] or a directive outside the model. *)
Fixpoint tokens (in_ws : bool) (fmt : str) : list token :=
  match fmt with
  | [] => []
  | c :: rest =>
      if is_space c
      then (if in_ws then tokens true rest else Ws :: tokens true rest)
      else if Ascii.eqb c "%"
      then match rest with
           | [] => [Bad]
           | d :: rest' =>
               if Ascii.eqb d "%" then Lit d :: tokens false rest'
               else match directive_of d with
                    | Some x => Dir x :: tokens false rest'
                    | None => Bad :: tokens false rest'
                    end
           end
      else Lit c :: tokens false rest
  end.

Definition rng (lo hi : ascii) : ascii -> bool := between (code lo) (code hi).

Definition a_month : list string :=
  ["jan"; "feb"; "mar"; "apr"; "may"; "jun";
   "jul"; "aug"; "sep"; "oct"; "nov"; "dec"]%string.

(** The regular expression of each directive, as in [TimeRE.__init__]. *)
Definition dir_regex (d : directive) : regex :=
  Group
    match d with
    | D_d => alts [Seq (chr "3") (Chr (rng "0" "1"));
                   Seq (Chr (rng "1" "2")) (Chr is_digit);
                   Seq (chr "0") (Chr (rng "1" "9"));
                   Chr (rng "1" "9");
                   Seq (chr " ") (Chr (rng "1" "9"))]
    | D_b => alts (map text_ci a_month)
    | D_Y => rep 4 is_digit
    | D_m => alts [Seq (chr "1") (Chr (rng "0" "2"));
                   Seq (chr "0") (Chr (rng "1" "9"));
                   Chr (rng "1" "9")]
    | D_H => alts [Seq (chr "2") (Chr (rng "0" "3"));
                   Seq (Chr (rng "0" "1")) (Chr is_digit);
                   Chr is_digit]
    | D_M => alts [Seq (Chr (rng "0" "5")) (Chr is_digit); Chr is_digit]
    | D_S => alts [Seq (chr "6") (Chr (rng "0" "1"));
                   Seq (Chr (rng "0" "5")) (Chr is_digit);
                   Chr is_digit]
    | D_f => upto 6 (rng "0" "9")
    | D_z =>
        Alt (cat [Chr (fun c => (Ascii.eqb c "+" || Ascii.eqb c "-")%bool);
                  Chr is_digit; Chr is_digit; opt (chr ":");
                  Chr (rng "0" "5"); Chr is_digit;
                  opt (cat [opt (chr ":"); Chr (rng "0" "5"); Chr is_digit;
                            opt (cat [chr "."; upto 6 is_digit])])])
            (chr "Z")
    end.

Definition tok_regex (t : token) : regex :=
  match t with
  | Dir d => dir_regex d
  | Ws => plus is_space
  | Lit c => chr_ci c
  | Bad => Chr (fun _ => false)
  end.

Fixpoint directives (ts : list token) : list directive :=
  match ts with
  | [] => []
  | Dir d :: ts' => d :: directives ts'
  | _ :: ts' => directives ts'
  end.

(** The locals of [_strptime] that the directives in use assign. *)
Record fields : Type := mkfields {
  f_year : option Z; f_month : Z; f_day : Z;
  f_hour : Z; f_minute : Z; f_second : Z; f_fraction : Z;
  f_gmtoff : option Z; f_gmtoff_fraction : Z
}.

Definition init : fields := mkfields None 1 1 0 0 0 0 None 0.

Definition slice (s : str) (a b : nat) : str := firstn (b - a) (skipn a s).

Definition zeros (n : nat) : str := repeat "0"%char n.

(** [list.index]: the position of [x], [ValueError] when absent. *)
Fixpoint index_of (x : str) (l : list string) (i : Z) : result Z :=
  match l with
  | [] => Raise ValueError
  | y :: l' => if str_eqb x (lit y) then Ok i else index_of x l' (i + 1)
  end.

(** The [%z] branch: the offset in seconds and its fraction. *)
Definition parse_z (z0 : str) : result (Z * Z) :=
  if str_eqb z0 (lit "Z") then Ok (0, 0)
  else
    z3 <- getitem z0 3 ;;
    z <- (if Ascii.eqb z3 ":"
          then let z1 := firstn 3 z0 ++ skipn 4 z0 in
               if (5 <? length z1)%nat
               then z5 <- getitem z1 5 ;;
                    if Ascii.eqb z5 ":"
                    then Ok (firstn 5 z1 ++ skipn 6 z1)
                    else Raise ValueError
               else Ok z1
          else Ok z0) ;;
    hours <- py_int (slice z 1 3) ;;
    minutes <- py_int (slice z 3 5) ;;
    seconds <- match slice z 5 7 with
               | [] => Ok 0
               | t => py_int t
               end ;;
    let gmtoff := hours * 60 * 60 + minutes * 60 + seconds in
    let remainder := skipn 8 z in
    fraction <- py_int (remainder ++ zeros (6 - length remainder)) ;;
    match z with
    | "-"%char :: _ => Ok (- gmtoff, - fraction)
    | _ => Ok (gmtoff, fraction)
    end.

(** One iteration of the loop over [found_dict]. *)
Definition convert (f : fields) (d : directive) (s : str) : result fields :=
  match d with
  | D_Y => n <- py_int s ;;
      Ok (mkfields (Some n) (f_month f) (f_day f) (f_hour f) (f_minute f)
                   (f_second f) (f_fraction f) (f_gmtoff f)
                   (f_gmtoff_fraction f))
  | D_m => n <- py_int s ;;
      Ok (mkfields (f_year f) n (f_day f) (f_hour f) (f_minute f)
                   (f_second f) (f_fraction f) (f_gmtoff f)
                   (f_gmtoff_fraction f))
  | D_b => n <- index_of (map lower s) a_month 1 ;;
      Ok (mkfields (f_year f) n (f_day f) (f_hour f) (f_minute f)
                   (f_second f) (f_fraction f) (f_gmtoff f)
                   (f_gmtoff_fraction f))
  | D_d => n <- py_int s ;;
      Ok (mkfields (f_year f) (f_month f) n (f_hour f) (f_minute f)
                   (f_second f) (f_fraction f) (f_gmtoff f)
                   (f_gmtoff_fraction f))
  | D_H => n <- py_int s ;;
      Ok (mkfields (f_year f) (f_month f) (f_day f) n (f_minute f)
                   (f_second f) (f_fraction f) (f_gmtoff f)
                   (f_gmtoff_fraction f))
  | D_M => n <- py_int s ;;
      Ok (mkfields (f_year f) (f_month f) (f_day f) (f_hour f) n
                   (f_second f) (f_fraction f) (f_gmtoff f)
                   (f_gmtoff_fraction f))
  | D_S => n <- py_int s ;;
      Ok (mkfields (f_year f) (f_month f) (f_day f) (f_hour f) (f_minute f)
                   n (f_fraction f) (f_gmtoff f) (f_gmtoff_fraction f))
  | D_f => n <- py_int (s ++ zeros (6 - length s)) ;;
      Ok (mkfields (f_year f) (f_month f) (f_day f) (f_hour f) (f_minute f)
                   (f_second f) n (f_gmtoff f) (f_gmtoff_fraction f))
  | D_z => p <- parse_z s ;;
      Ok (mkfields (f_year f) (f_month f) (f_day f) (f_hour f) (f_minute f)
                   (f_second f) (f_fraction f) (Some (fst p)) (snd p))
  end.

Fixpoint convert_all (f : fields) (ds : list directive) (gs : list str)
  : result fields :=
  match ds, gs with
  | d :: ds', g :: gs' => f' <- convert f d g ;; convert_all f' ds' gs'
  | _, _ => Ok f
  end.

(** [datetime.strptime(data_string, format)]. *)
Definition strptime (data_string format : str) : result datetime :=
  let ts := tokens false format in
  match rmatch (cat (map tok_regex ts)) data_string with
  | None => Raise ValueError
  | Some (found, rest) =>
      match rest with
      | _ :: _ => Raise ValueError
      | [] =>
          f <- convert_all init (directives ts) found ;;
          let y := match f_year f with Some y => y | None => 1900 end in
          Calendar.make_datetime y (f_month f) (f_day f) (f_hour f)
            (f_minute f) (f_second f) (f_fraction f)
            match f_gmtoff f with
            | Some g => Some (g * 1000000 + f_gmtoff_fraction f)
            | None => None
            end
      end
  end.

End Strptime.

(** ** [LogAnalyzer.parse_timestamp] *)

Definition timestamp_formats : list str :=
  [lit "%d/%b/%Y:%H:%M:%S %z";
   lit "%d/%b/%Y:%H:%M:%S";
   lit "%Y-%m-%d %H:%M:%S";
   lit "%Y-%m-%d %H:%M:%S.%f"].

(** The [for]/[try] loop: a [ValueError] moves on to the next layout,
    any other exception propagates. *)
Fixpoint try_formats (timestamp_str : str) (fmts : list str)
  : result (option datetime) :=
  match fmts with
  | [] => Ok None
  | fmt :: fmts' =>
      match Strptime.strptime timestamp_str fmt with
      | Ok t => Ok (Some t)
      | Raise ValueError => try_formats timestamp_str fmts'
      | Raise e => Raise e
      end
  end.

Definition parse_timestamp (timestamp_str : str) : result (option datetime) :=
  try_formats timestamp_str timestamp_formats.

(** ** Entries: Python dictionaries *)

Inductive value : Type :=
| VNone
| VBool (b : bool)
| VInt (n : Z)
| VStr (s : str)
| VTime (t : datetime).

(** A [dict] keeps its keys in insertion order; assigning to a key
    that is present replaces the value in place. *)
Definition dict (V : Type) : Type := list (string * V).

Fixpoint dict_get {V : Type} (k : string) (d : dict V) : option V :=
  match d with
  | [] => None
  | (k', v) :: d' => if String.eqb k k' then Some v else dict_get k d'
  end.

Definition dict_has {V : Type} (k : string) (d : dict V) : bool :=
  match dict_get k d with Some _ => true | None => false end.

Fixpoint dict_set {V : Type} (k : string) (v : V) (d : dict V) : dict V :=
  match d with
  | [] => [(k, v)]
  | (k', v') :: d' =>
      if String.eqb k k' then (k, v) :: d' else (k', v') :: dict_set k v d'
  end.

(** [d.update({...})]. *)
Definition dict_update {V : Type} (d : dict V) (kvs : list (string * V))
  : dict V :=
  fold_left (fun acc kv => dict_set (fst kv) (snd kv) acc) kvs d.

Definition keys {V : Type} (d : dict V) : list string := map fst d.

Definition entry : Type := dict value.

(** Truth value testing. *)
Definition truthy (v : value) : bool :=
  match v with
  | VNone => false
  | VBool b => b
  | VInt n => negb (n =? 0)
  | VStr s => match s with [] => false | _ => true end
  | VTime _ => true
  end.

(** [entry.get('parsed', False)] as a condition. *)
Definition is_parsed (e : entry) : bool :=
  match dict_get "parsed" e with
  | Some v => truthy v
  | None => false
  end.

(** ** [LogAnalyzer.__init__]: the pattern table *)

Module Patterns.
Import Re.

(** apache: ip, two more fields, bracketed time, quoted request,
    status, size.  [dq] is the double quote. *)
Definition apache : regex :=
  cat [Group (plus non_space); chr " "; plus non_space; chr " ";
       plus non_space; chr " "; chr "["; Group (lazy dot); chr "]";
       chr " "; chr dq; Group (lazy dot); chr dq; chr " ";
       Group (plus is_digit); chr " "; Group (plus is_digit)].

(** nginx: ip, two literal dashes, bracketed time, quoted request,
    status, size, quoted referer, quoted user agent. *)
Definition nginx : regex :=
  cat [Group (plus non_space); chr " "; chr "-"; chr " "; chr "-"; chr " ";
       chr "["; Group (lazy dot); chr "]";
       chr " "; chr dq; Group (lazy dot); chr dq; chr " ";
       Group (plus is_digit); chr " "; Group (plus is_digit);
       chr " "; chr dq; Group (lazy dot); chr dq;
       chr " "; chr dq; Group (lazy dot); chr dq].

(** common: as nginx without the two trailing quoted fields. *)
Definition common : regex :=
  cat [Group (plus non_space); chr " "; chr "-"; chr " "; chr "-"; chr " ";
       chr "["; Group (lazy dot); chr "]";
       chr " "; chr dq; Group (lazy dot); chr dq; chr " ";
       Group (plus is_digit); chr " "; Group (plus is_digit)].

(** The same text as [nginx]. *)
Definition combined : regex := nginx.

(** custom: a date and time of fixed digit counts, a level word, a
    colon and a space, the message. *)
Definition custom : regex :=
  cat [Group (cat [rep 4 is_digit; chr "-"; rep 2 is_digit; chr "-";
                   rep 2 is_digit; chr " "; rep 2 is_digit; chr ":";
                   rep 2 is_digit; chr ":"; rep 2 is_digit]);
       chr " "; Group (plus is_word); chr ":"; chr " "; Group (plus dot)].

End Patterns.

(** [self.log_patterns], in insertion order. *)
Definition log_patterns : dict Re.regex :=
  [("apache", Patterns.apache); ("nginx", Patterns.nginx);
   ("common", Patterns.common); ("combined", Patterns.combined);
   ("custom", Patterns.custom)]%string.

(** ** [LogAnalyzer.extract_fields] *)

Definition mem_string (x : string) (l : list string) : bool :=
  existsb (String.eqb x) l.

Definition opt_time (o : option datetime) : value :=
  match o with
  | Some t => VTime t
  | None => VNone
  end.

(** [int(g) if g.isdigit() else 0]. *)
Definition int_or_zero (g : str) : result Z :=
  if isdigit g then py_int g else Ok 0.

Definition extract_fields (groups : list str) (format_name : string)
           (raw_line : str) : result entry :=
  let entry0 : entry :=
    [("raw_line", VStr raw_line); ("parsed", VBool true);
     ("format", VStr (lit format_name))]%string in
  if mem_string format_name ["apache"; "nginx"; "common"; "combined"]%string
  then
    g0 <- getitem groups 0 ;;
    g1 <- getitem groups 1 ;;
    ts <- parse_timestamp g1 ;;
    g2 <- getitem groups 2 ;;
    g3 <- getitem groups 3 ;;
    status <- int_or_zero g3 ;;
    g4 <- getitem groups 4 ;;
    size <- int_or_zero g4 ;;
    let entry1 :=
      dict_update entry0
        [("ip", VStr g0); ("timestamp", opt_time ts); ("request", VStr g2);
         ("status", VInt status); ("size", VInt size)]%string in
    let request_parts := split g2 in
    entry2 <-
      (if (2 <=? length request_parts)%nat
       then
         m <- getitem request_parts 0 ;;
         p <- getitem request_parts 1 ;;
         pr <- (if (2 <? length request_parts)%nat
                then getitem request_parts 2
                else Ok (lit "HTTP/1.1")) ;;
         Ok (dict_set "protocol" (VStr pr)
               (dict_set "path" (VStr p)
                  (dict_set "method" (VStr m) entry1)))
       else Ok entry1) ;;
    if (mem_string format_name ["nginx"; "combined"]%string
        && (5 <? length groups)%nat)%bool
    then
      g5 <- getitem groups 5 ;;
      let referer := if str_eqb g5 (lit "-") then VNone else VStr g5 in
      ua <- (if (6 <? length groups)%nat
             then g6 <- getitem groups 6 ;; Ok (VStr g6)
             else Ok VNone) ;;
      Ok (dict_set "user_agent" ua (dict_set "referer" referer entry2))
    else Ok entry2
  else if String.eqb format_name "custom"
  then
    g0 <- getitem groups 0 ;;
    ts <- parse_timestamp g0 ;;
    g1 <- getitem groups 1 ;;
    g2 <- getitem groups 2 ;;
    Ok (dict_update entry0
          [("timestamp", opt_time ts); ("level", VStr g1);
           ("message", VStr g2)]%string)
  else Ok entry0.

(** ** [LogAnalyzer.parse_log_line] *)

Definition unparsed (line : str) : entry :=
  [("raw_line", VStr line); ("parsed", VBool false)]%string.

(** The auto-detection loop over [self.log_patterns.items()]. *)
Fixpoint auto_detect (patterns : dict Re.regex) (line : str)
  : result entry :=
  match patterns with
  | [] => Ok (unparsed line)
  | (format_name, pattern) :: rest =>
      match Re.rmatch pattern line with
      | Some (groups, _) => extract_fields groups format_name line
      | None => auto_detect rest line
      end
  end.

(** The registry patterns are non-empty texts, so the test
    [if pattern:] of the forced branch only checks that the selector is
    a key of the table. *)
Definition parse_log_line (line : str) (log_format : string) : result entry :=
  if String.eqb log_format "auto"
  then auto_detect log_patterns line
  else
    match dict_get log_format log_patterns with
    | Some pattern =>
        match Re.rmatch pattern line with
        | Some (groups, _) => extract_fields groups log_format line
        | None => Ok (unparsed line)
        end
    | None => Ok (unparsed line)
    end.

(** ** Rendering values as text: [str(x)] and f-strings *)

Definition str_of_Z (n : Z) : str :=
  lit (DecimalString.NilZero.string_of_int (Z.to_int n)).

(** ["%0wd" % n] for a non-negative [n]. *)
Definition pad0 (w : nat) (n : Z) : str :=
  let d := str_of_Z n in Strptime.zeros (w - length d) ++ d.

(** [str(timedelta)], the duration given in microseconds. *)
Definition str_timedelta (us : Z) : str :=
  let days := us / 86400000000 in
  let rest := us mod 86400000000 in
  let seconds := rest / 1000000 in
  let micro := rest mod 1000000 in
  let mm := seconds / 60 in
  let ss := seconds mod 60 in
  let hh := mm / 60 in
  let mm := mm mod 60 in
  (if days =? 0 then []
   else str_of_Z days ++ lit " day"
        ++ (if Z.abs days =? 1 then [] else lit "s") ++ lit ", ")
  ++ str_of_Z hh ++ lit ":" ++ pad0 2 mm ++ lit ":" ++ pad0 2 ss
  ++ (if micro =? 0 then [] else lit "." ++ pad0 6 micro).

(** The UTC offset suffix of [datetime.isoformat]. *)
Definition str_offset (off : Z) : str :=
  let a := Z.abs off in
  let hh := a / 3600000000 in
  let mm := (a mod 3600000000) / 60000000 in
  let ss := (a mod 60000000) / 1000000 in
  let us := a mod 1000000 in
  lit (if off <? 0 then "-" else "+") ++ pad0 2 hh ++ lit ":" ++ pad0 2 mm
  ++ (if ((ss =? 0) && (us =? 0))%bool then []
      else lit ":" ++ pad0 2 ss
           ++ (if us =? 0 then [] else lit "." ++ pad0 6 us)).

(** [str(datetime)]. *)
Definition str_datetime (t : datetime) : str :=
  pad0 4 (year t) ++ lit "-" ++ pad0 2 (month t) ++ lit "-" ++ pad0 2 (day t)
  ++ lit " " ++ pad0 2 (hour t) ++ lit ":" ++ pad0 2 (minute t)
  ++ lit ":" ++ pad0 2 (second t)
  ++ (if microsecond t =? 0 then [] else lit "." ++ pad0 6 (microsecond t))
  ++ match tzinfo t with
     | None => []
     | Some off => str_offset off
     end.

Definition py_str (v : value) : str :=
  match v with
  | VNone => lit "None"
  | VBool true => lit "True"
  | VBool false => lit "False"
  | VInt n => str_of_Z n
  | VStr s => s
  | VTime t => str_datetime t
  end.

(** ** [collections.Counter] *)

Definition value_eq_dec (a b : value) : {a = b} + {a <> b}.
Proof.
  repeat decide equality.
Defined.

(** Keys are compared structurally.  (Python also identifies [True]
    with [1] and [False] with [0] as keys; the counted fields of an
    entry built by [extract_fields] are all text or all integers.) *)
Definition value_eqb (a b : value) : bool :=
  if value_eq_dec a b then true else false.

Section Counter.
Variable K : Type.
Variable eqb : K -> K -> bool.

(** [c[x] += 1]: a known key is updated where it stands, a new key
    goes to the end. *)
Fixpoint counter_add (x : K) (c : list (K * Z)) : list (K * Z) :=
  match c with
  | [] => [(x, 1)]
  | (y, n) :: c' =>
      if eqb x y then (y, n + 1) :: c' else (y, n) :: counter_add x c'
  end.

(** [Counter(iterable).items()], in order of first appearance. *)
Definition Counter (l : list K) : list (K * Z) :=
  fold_left (fun c x => counter_add x c) l [].

(** [sorted(items, key=itemgetter(1), reverse=True)]: a stable sort,
    items of equal count keep the order they had in the input. *)
Fixpoint insert_desc (x : K * Z) (l : list (K * Z)) : list (K * Z) :=
  match l with
  | [] => [x]
  | y :: l' =>
      if snd x <? snd y then y :: insert_desc x l' else x :: y :: l'
  end.

Fixpoint sorted_desc (l : list (K * Z)) : list (K * Z) :=
  match l with
  | [] => []
  | x :: l' => insert_desc x (sorted_desc l')
  end.

(** [Counter.most_common(n)] is [heapq.nlargest(n, items, key=count)],
    which is [sorted(items, key=count, reverse=True)[:n]];
    [most_common()] is the whole sorted list. *)
Definition most_common (n : option nat) (c : list (K * Z)) : list (K * Z) :=
  match n with
  | Some n => firstn n (sorted_desc c)
  | None => sorted_desc c
  end.
End Counter.

(** ** [LogAnalyzer.analyze_entries] *)

(** The values held by the analysis dictionary.  Floats are rendered
    as exact rationals. *)
#[local] Unset Elimination Schemes.
Inductive aval : Type :=
| AInt (n : Z)
| AFloat (q : Q)
| AStr (s : str)
| ATime (t : datetime)
| ATable (t : list (value * Z))
| ADict (d : list (string * aval)).
#[local] Set Elimination Schemes.

Definition analysis : Type := dict aval.

(** [[e[k] for e in es if k in e]]. *)
Definition column (k : string) (es : list entry) : list value :=
  flat_map (fun e => match dict_get k e with
                     | Some v => [v]
                     | None => []
                     end) es.

(** [[e[k] for e in es if k in e and e[k]]]. *)
Definition truthy_column (k : string) (es : list entry) : list value :=
  filter truthy (column k es).

Definition table (n : option nat) (l : list value) : list (value * Z) :=
  most_common n (Counter value_eqb l).

(** An operand of [sum]: integers, booleans counting as 0 and 1. *)
Definition as_int (v : value) : result Z :=
  match v with
  | VInt n => Ok n
  | VBool b => Ok (Z.b2z b)
  | _ => Raise TypeError
  end.

(** A truthy timestamp that is not an instant makes the time block of
    [analyze_entries] raise (in the comparison, the subtraction or the
    [hour] attribute); the model raises at once. *)
Definition as_time (v : value) : result datetime :=
  match v with
  | VTime t => Ok t
  | _ => Raise TypeError
  end.

(** [min(l)] and [max(l)] with a comparison that may raise: the running
    extremum is replaced only by a strictly better item. *)
Fixpoint extremum {A : Type} (better : A -> A -> result bool) (cur : A)
         (l : list A) : result A :=
  match l with
  | [] => Ok cur
  | x :: l' =>
      b <- better x cur ;;
      extremum better (if b then x else cur) l'
  end.

Definition min_time (l : list datetime) : result datetime :=
  match l with
  | [] => Raise ValueError
  | x :: l' => extremum Calendar.lt x l'
  end.

Definition max_time (l : list datetime) : result datetime :=
  match l with
  | [] => Raise ValueError
  | x :: l' => extremum (fun a b => Calendar.lt b a) x l'
  end.

Definition sum_Z (l : list Z) : Z := fold_left Z.add l 0.

Definition max_Z (l : list Z) : Z :=
  match l with [] => 0 | x :: l' => fold_left Z.max l' x end.

Definition min_Z (l : list Z) : Z :=
  match l with [] => 0 | x :: l' => fold_left Z.min l' x end.

Definition len {A : Type} (l : list A) : Z := Z.of_nat (length l).

(** [len(parsed) / len(entries) * 100 if entries else 0]. *)
Definition parse_rate (parsed_entries entries : list entry) : aval :=
  match entries with
  | [] => AInt 0
  | _ => AFloat (inject_Z (len parsed_entries) / inject_Z (len entries)
                 * inject_Z 100)%Q
  end.

Definition analyze_entries (entries : list entry) : result analysis :=
  match entries with
  | [] => Ok []
  | _ =>
    let parsed_entries := filter is_parsed entries in
    let analysis0 : analysis :=
      [("total_entries", AInt (len entries));
       ("parsed_entries", AInt (len parsed_entries));
       ("parse_rate", parse_rate parsed_entries entries)]%string in
    match parsed_entries with
    | [] => Ok analysis0
    | _ =>
      let ips := column "ip" parsed_entries in
      let a1 := dict_set "top_ips" (ATable (table (Some 10%nat) ips))
                  analysis0 in
      let a2 := dict_set "unique_ips"
                  (AInt (len (Counter value_eqb ips))) a1 in
      let status_codes := truthy_column "status" parsed_entries in
      let a3 := dict_set "status_codes" (ATable (table None status_codes))
                  a2 in
      let methods := column "method" parsed_entries in
      let a4 := dict_set "http_methods" (ATable (table None methods)) a3 in
      let paths := column "path" parsed_entries in
      let a5 := dict_set "top_paths" (ATable (table (Some 10%nat) paths))
                  a4 in
      sizes <- mapM as_int (truthy_column "size" parsed_entries) ;;
      let a6 :=
        match sizes with
        | [] => a5
        | _ =>
            dict_set "response_sizes"
              (ADict [("total_bytes", AInt (sum_Z sizes));
                      ("avg_size",
                       AFloat (inject_Z (sum_Z sizes) / inject_Z (len sizes))%Q);
                      ("max_size", AInt (max_Z sizes));
                      ("min_size", AInt (min_Z sizes))]%string) a5
        end in
      timestamps <- mapM as_time (truthy_column "timestamp" parsed_entries) ;;
      match timestamps with
      | [] => Ok a6
      | _ =>
          start <- min_time timestamps ;;
          stop <- max_time timestamps ;;
          stop' <- max_time timestamps ;;
          start' <- min_time timestamps ;;
          duration <- Calendar.sub stop' start' ;;
          let a7 :=
            dict_set "time_range"
              (ADict [("start", ATime start); ("end", ATime stop);
                      ("duration", AStr (str_timedelta duration))]%string)
              a6 in
          let hours := map (fun t => VInt (hour t)) timestamps in
          Ok (dict_set "traffic_by_hour" (ATable (table None hours)) a7)
      end
    end
  end.

(** ** [LogAnalyzer.detect_anomalies] *)

Inductive anomaly_type : Type := error_status | large_response | suspicious_path.

Inductive severity_level : Type := medium | high.

Record anomaly : Type := mkanomaly {
  a_type : anomaly_type;
  a_severity : severity_level;
  a_message : str;
  a_entry : entry
}.

(** The suspicious patterns, each a regular expression compiled with
    IGNORECASE and a flag telling whether it ends in [$]. *)
Definition suspicious_patterns : list (Re.regex * bool) :=
  [(Re.text_ci ".php", true); (Re.text_ci "admin", false);
   (Re.text_ci "wp-admin", false); (Re.text_ci ".env", false);
   (Re.text_ci "backup", false); (Re.text_ci "config", false);
   (Re.text_ci ".git", false)].

(** [v >= n] for an integer [n]. *)
Definition ge_int (v : value) (n : Z) : result bool :=
  x <- as_int v ;; Ok (n <=? x).

(** [v > n] for an integer [n]. *)
Definition gt_int (v : value) (n : Z) : result bool :=
  x <- as_int v ;; Ok (n <? x).

Definition get_default {V : Type} (k : string) (default : V) (d : dict V) : V :=
  match dict_get k d with
  | Some v => v
  | None => default
  end.

(** [re.search(pattern, path, re.IGNORECASE)] wants text. *)
Definition search_path (p : Re.regex * bool) (path : value) : result bool :=
  match path with
  | VStr s => Ok (Re.search (fst p) (snd p) s)
  | _ => Raise TypeError
  end.

(** The inner [for pattern in suspicious_patterns] loop with its
    [break]. *)
Fixpoint scan_patterns (patterns : list (Re.regex * bool)) (path : value)
         (e : entry) : result (list anomaly) :=
  match patterns with
  | [] => Ok []
  | p :: rest =>
      hit <- search_path p path ;;
      if hit
      then Ok [mkanomaly suspicious_path high
                 (lit "Suspicious path access: " ++ py_str path) e]
      else scan_patterns rest path e
  end.

(** [d[k]]. *)
Definition subscript {V : Type} (d : dict V) (k : string) : result V :=
  match dict_get k d with
  | Some v => Ok v
  | None => Raise KeyError
  end.

(** The body of the loop over entries: the anomalies one entry adds. *)
Definition detect_entry (e : entry) : result (list anomaly) :=
  if negb (is_parsed e) then Ok []
  else
    is_error <- ge_int (get_default "status" (VInt 0) e) 400 ;;
    errors <-
      (if is_error
       then
         status <- subscript e "status" ;;
         is_high <- ge_int status 500 ;;
         Ok [mkanomaly error_status (if is_high then high else medium)
               (lit "HTTP " ++ py_str status ++ lit " from "
                ++ py_str (get_default "ip" (VStr (lit "unknown")) e)) e]
       else Ok []) ;;
    is_large <- gt_int (get_default "size" (VInt 0) e) (10 * 1024 * 1024) ;;
    larges <-
      (if is_large
       then
         size <- subscript e "size" ;;
         Ok [mkanomaly large_response medium
               (lit "Large response " ++ py_str size ++ lit " bytes") e]
       else Ok []) ;;
    suspicious <-
      scan_patterns suspicious_patterns (get_default "path" (VStr []) e) e ;;
    Ok (errors ++ larges ++ suspicious).

Fixpoint detect_anomalies (entries : list entry) : result (list anomaly) :=
  match entries with
  | [] => Ok []
  | e :: rest =>
      here <- detect_entry e ;;
      later <- detect_anomalies rest ;;
      Ok (here ++ later)
  end.

(** ** The loop of [LogAnalyzer.parse_log_file] over the lines read

    Lines are numbered from 1, blank lines and comment lines are
    skipped but counted; the entry returned for a line is never an
    empty dictionary, so it is always kept. *)

Fixpoint parse_lines (line_num : Z) (lines : list str) (log_format : string)
  : result (list entry) :=
  match lines with
  | [] => Ok []
  | raw :: rest =>
      let line := strip raw in
      match line with
      | [] => parse_lines (line_num + 1) rest log_format
      | c :: _ =>
          if Ascii.eqb c "#"
          then parse_lines (line_num + 1) rest log_format
          else
            e <- parse_log_line line log_format ;;
            es <- parse_lines (line_num + 1) rest log_format ;;
            Ok (dict_set "line_number" (VInt line_num) e :: es)
      end
  end.

(** * Vocabulary of the statements *)

(** A computation that can only fail with [ValueError]. *)
Definition only_value_error {A : Type} (m : result A) : Prop :=
  forall e, m = Raise e -> e = ValueError.

Create HintDb ove.

Module StrptimeSpec.
Import Re Strptime.

(** Patterns without groups capture nothing. *)
Fixpoint no_group (r : regex) : bool :=
  match r with
  | Eps | Chr _ | Star _ _ => true
  | Seq a b | Alt a b => no_group a && no_group b
  | Group _ => false
  end.

(** The least number of characters a pattern consumes. *)
Fixpoint min_len (r : regex) : nat :=
  match r with
  | Eps | Star _ _ => 0
  | Chr _ => 1
  | Seq a b => min_len a + min_len b
  | Alt a b => Nat.min (min_len a) (min_len b)
  | Group a => min_len a
  end.

(** What [parse_z] needs of its argument to index it safely. *)
Definition shape (d : directive) (s : str) : Prop :=
  match d with
  | D_z => s = lit "Z" \/ (4 <= length s)%nat
  | _ => True
  end.

End StrptimeSpec.

(** Non-empty decimal text, what the groups [(\d+)] capture. *)
Definition digits (s : str) : Prop := s <> [] /\ forallb is_digit s = true.

(** ** The entries of the data model

    The field sets an entry can have, written out: a web-log entry
    (with the request fields when the request has two tokens or more),
    the two extra fields of nginx and combined, and a custom entry. *)

Definition request_fields (request : str) : entry :=
  match split request with
  | m :: p :: rest =>
      [("method", VStr m); ("path", VStr p);
       ("protocol", VStr match rest with
                         | pr :: _ => pr
                         | [] => lit "HTTP/1.1"
                         end)]%string
  | _ => []
  end.

Definition web_entry (format_name : string) (line ip : str)
           (ts : option datetime) (request : str) (status size : Z) : entry :=
  [("raw_line", VStr line); ("parsed", VBool true);
   ("format", VStr (lit format_name)); ("ip", VStr ip);
   ("timestamp", opt_time ts); ("request", VStr request);
   ("status", VInt status); ("size", VInt size)]%string
  ++ request_fields request.

Definition referer_fields (referer user_agent : str) : entry :=
  [("referer", if str_eqb referer (lit "-") then VNone else VStr referer);
   ("user_agent", VStr user_agent)]%string.

Definition custom_entry (line : str) (ts : option datetime)
           (level message : str) : entry :=
  [("raw_line", VStr line); ("parsed", VBool true);
   ("format", VStr (lit "custom")); ("timestamp", opt_time ts);
   ("level", VStr level); ("message", VStr message)]%string.

(** [entry_of name line g e]: [e] is the entry of format [name] built
    from the groups [g] of a match on [line]. *)
Inductive entry_of : string -> str -> list str -> entry -> Prop :=
| entry_web name line g0 g1 g2 g3 g4 ts :
    (name = "apache" \/ name = "common")%string ->
    parse_timestamp g1 = Ok ts ->
    entry_of name line [g0; g1; g2; g3; g4]
      (web_entry name line g0 ts g2 (int_of_digits g3) (int_of_digits g4))
| entry_extra name line g0 g1 g2 g3 g4 g5 g6 ts :
    (name = "nginx" \/ name = "combined")%string ->
    parse_timestamp g1 = Ok ts ->
    entry_of name line [g0; g1; g2; g3; g4; g5; g6]
      (web_entry name line g0 ts g2 (int_of_digits g3) (int_of_digits g4)
       ++ referer_fields g5 g6)
| entry_custom line g0 g1 g2 ts :
    parse_timestamp g0 = Ok ts ->
    entry_of "custom" line [g0; g1; g2] (custom_entry line ts g1 g2).

(** The value of the [format] field. *)
Definition format_of (e : entry) : option value := dict_get "format" e.

(** A pattern matches at the start of a line, or the whole of it. *)
Definition matches_prefix (pat : Re.regex) (line : str) : Prop :=
  exists w rest g, line = w ++ rest /\ Re.sem pat w g.


(** [first_hit pats line name pat]: [(name, pat)] is the first pattern
    of the table [pats] that matches at the start of [line]. *)
Definition first_hit (pats : dict Re.regex) (line : str)
           (name : string) (pat : Re.regex) : Prop :=
  exists pre post,
    pats = pre ++ (name, pat) :: post /\
    (forall n p, In (n, p) pre -> ~ matches_prefix p line) /\
    matches_prefix pat line.




(** ** Sample lines *)

(** Scenario 1 of the specification. *)
Definition scenario1 : str :=
  lit "10.0.0.1 - - [10/Oct/2024:13:55:36 -0700] " ++
  dq :: lit "GET /index.html HTTP/1.1" ++ dq :: lit " 200 512".


(** Scenario 2 of the specification. *)
Definition scenario2 : str := lit "2024-10-10 13:55:36 ERROR: disk full".

(** The four layouts of [parse_timestamp] after [TimeRE.pattern]. *)
Module Layouts.
Import Strptime.
Local Open Scope char_scope.

Definition layout_tz : list token :=
  [Dir D_d; Lit "/"; Dir D_b; Lit "/"; Dir D_Y; Lit ":"; Dir D_H; Lit ":";
   Dir D_M; Lit ":"; Dir D_S; Ws; Dir D_z].
Definition layout_no_tz : list token :=
  [Dir D_d; Lit "/"; Dir D_b; Lit "/"; Dir D_Y; Lit ":"; Dir D_H; Lit ":";
   Dir D_M; Lit ":"; Dir D_S].
Definition layout_iso : list token :=
  [Dir D_Y; Lit "-"; Dir D_m; Lit "-"; Dir D_d; Ws; Dir D_H; Lit ":";
   Dir D_M; Lit ":"; Dir D_S].
Definition layout_iso_fraction : list token :=
  [Dir D_Y; Lit "-"; Dir D_m; Lit "-"; Dir D_d; Ws; Dir D_H; Lit ":";
   Dir D_M; Lit ":"; Dir D_S; Lit "."; Dir D_f].

End Layouts.

(** ** Anomalies of one entry, written as plain functions *)

Definition int_like (v : value) : bool :=
  match v with
  | VInt _ | VBool _ => true
  | _ => false
  end.

Definition is_text (v : value) : bool :=
  match v with
  | VStr _ => true
  | _ => false
  end.

Definition field_ok (ok : value -> bool) (k : string) (e : entry) : bool :=
  match dict_get k e with
  | Some v => ok v
  | None => true
  end.

(** The typing of the fields [detect_anomalies] reads: [status] and
    [size], when present, are integers and [path] is text. *)
Definition detect_typed (e : entry) : bool :=
  (field_ok int_like "status" e && field_ok int_like "size" e
   && field_ok is_text "path" e)%bool.

(** The integer held by a field, 0 when the field is absent. *)
Definition field_int (k : string) (e : entry) : Z :=
  match dict_get k e with
  | Some (VInt n) => n
  | Some (VBool b) => Z.b2z b
  | _ => 0
  end.

Definition field_text (k : string) (e : entry) : str :=
  match dict_get k e with
  | Some (VStr s) => s
  | _ => []
  end.

Definition errors_of (e : entry) : list anomaly :=
  if 400 <=? field_int "status" e
  then [mkanomaly error_status
          (if 500 <=? field_int "status" e then high else medium)
          (lit "HTTP " ++ py_str (get_default "status" (VInt 0) e)
           ++ lit " from "
           ++ py_str (get_default "ip" (VStr (lit "unknown")) e)) e]
  else [].

Definition larges_of (e : entry) : list anomaly :=
  if 10 * 1024 * 1024 <? field_int "size" e
  then [mkanomaly large_response medium
          (lit "Large response " ++ py_str (get_default "size" (VInt 0) e)
           ++ lit " bytes") e]
  else [].

(** The patterns of the suspicious list that are found in a path. *)
Definition matching_patterns (path : str) : list (Re.regex * bool) :=
  filter (fun p => Re.search (fst p) (snd p) path) suspicious_patterns.

Definition suspicious_of (e : entry) : list anomaly :=
  match matching_patterns (field_text "path" e) with
  | [] => []
  | _ :: _ =>
      [mkanomaly suspicious_path high
         (lit "Suspicious path access: " ++ field_text "path" e) e]
  end.

Definition anomalies_of (e : entry) : list anomaly :=
  if is_parsed e then errors_of e ++ larges_of e ++ suspicious_of e else [].

Definition type_eqb (a b : anomaly_type) : bool :=
  match a, b with
  | error_status, error_status
  | large_response, large_response
  | suspicious_path, suspicious_path => true
  | _, _ => false
  end.

(** The anomalies of one type in a list. *)
Definition of_type (t : anomaly_type) (l : list anomaly) : list anomaly :=
  filter (fun a => type_eqb (a_type a) t) l.

(** Scenario 3: a parsed entry with status 503. *)
Definition entry_503 : entry :=
  [("raw_line", VStr (lit "x")); ("parsed", VBool true);
   ("format", VStr (lit "apache")); ("ip", VStr (lit "10.0.0.1"));
   ("status", VInt 503); ("size", VInt 512)]%string.

(** Scenario 5: a parsed entry whose path matches several patterns. *)
Definition entry_wp_admin : entry :=
  [("raw_line", VStr (lit "x")); ("parsed", VBool true);
   ("format", VStr (lit "apache")); ("status", VInt 200);
   ("size", VInt 512); ("path", VStr (lit "/wp-admin/config.php"))]%string.

(** The three leading fields of the analysis of a non-empty batch. *)
Definition head_fields (entries : list entry) : analysis :=
  [("total_entries", AInt (len entries));
   ("parsed_entries", AInt (len (filter is_parsed entries)));
   ("parse_rate", parse_rate (filter is_parsed entries) entries)]%string.

(** ** Frequency ranking *)

Section Ranking.
Variable K : Type.
Variable eqb : K -> K -> bool.

(** The number of occurrences of [k] in [l]. *)
Fixpoint count (k : K) (l : list K) : Z :=
  match l with
  | [] => 0
  | x :: l' => (if eqb x k then 1 else 0) + count k l'
  end.

(** The position at which [k] first appears in [l]. *)
Fixpoint first_index (k : K) (l : list K) : nat :=
  match l with
  | [] => 0
  | x :: l' => if eqb x k then 0 else S (first_index k l')
  end.

(** [k] ranks before [k']: it is more frequent, or as frequent and
    first seen earlier. *)
Definition ranks_before (l : list K) (k k' : K) : Prop :=
  count k' l < count k l \/
  (count k l = count k' l /\ (first_index k l < first_index k' l)%nat).

(** [t] is the table of the [n] best-ranked values of [l] with their
    counts: at most [n] rows, one per value, in rank order, and a value
    is left out only when the table is full and every row ranks before
    it. *)
Definition is_top (n : nat) (l : list K) (t : list (K * Z)) : Prop :=
  (length t <= n)%nat /\
  NoDup (map fst t) /\
  (forall k c, In (k, c) t -> In k l /\ c = count k l) /\
  StronglySorted (ranks_before l) (map fst t) /\
  (forall k, In k l -> ~ In k (map fst t) ->
             length t = n /\
             forall k', In k' (map fst t) -> ranks_before l k' k).

(** The order [sorted_desc] puts its items in, ties resolved by [R]. *)
Definition item_before (R : K -> K -> Prop) (x y : K * Z) : Prop :=
  snd y < snd x \/ (snd x = snd y /\ R (fst x) (fst y)).
End Ranking.

(** A parsed entry that exposes only an [ip]. *)
Definition ip_entry (ip : string) : entry :=
  [("raw_line", VStr (lit ip)); ("parsed", VBool true);
   ("ip", VStr (lit ip))]%string.

(** A batch with a tie between two addresses. *)
Definition tie_batch : list entry :=
  map ip_entry ["b"; "a"; "b"; "a"; "c"]%string.

(** A batch with twelve addresses, the last one seen twice. *)
Definition twelve_batch : list entry :=
  map ip_entry ["1"; "2"; "3"; "4"; "5"; "6"; "7"; "8"; "9"; "10"; "11";
                "12"; "12"]%string.

(** ** When [analyze_entries] returns *)

Definition aware (t : datetime) : bool :=
  match tzinfo t with
  | Some _ => true
  | None => false
  end.

Definition time_like (v : value) : bool :=
  match v with
  | VTime _ | VNone => true
  | _ => false
  end.

(** The typing of the fields whose values [analyze_entries] computes
    with: [size] is an integer, [timestamp] an instant or null. *)
Definition analyze_typed (e : entry) : bool :=
  (field_ok int_like "size" e && field_ok time_like "timestamp" e)%bool.

(** The instants [analyze_entries] takes the minimum and maximum of. *)
Definition timestamps_of (entries : list entry) : list value :=
  truthy_column "timestamp" (filter is_parsed entries).

(** All aware, or all naive. *)
Definition uniform (l : list value) : Prop :=
  exists b, forall t, In (VTime t) l -> aware t = b.

(** ** Vocabulary of the further properties *)


(** A token as [str.split()] yields them: not empty, no white space. *)
Definition token (s : str) : Prop := s <> [] /\ forallb non_space s = true.

(** Whether a layout has the [%z] directive. *)
Definition has_z (ds : list Strptime.directive) : bool :=
  existsb (fun d => match d with Strptime.D_z => true | _ => false end) ds.

(** The first layout of [parse_timestamp], the one with a UTC offset. *)
Definition offset_layout : str := lit "%d/%b/%Y:%H:%M:%S %z".

(** A line of the file that yields an entry: not blank once stripped,
    and not a comment. *)
Definition kept (raw : str) : bool :=
  match strip raw with
  | [] => false
  | c :: _ => negb (Ascii.eqb c "#")
  end.

(** The lines with their numbers, counted from [n]. *)
Fixpoint numbered (n : Z) (lines : list str) : list (Z * str) :=
  match lines with
  | [] => []
  | l :: ls => (n, l) :: numbered (n + 1) ls
  end.

(** Scenario 4: a parsed entry with a response of 11 000 000 bytes. *)
Definition entry_large : entry :=
  [("raw_line", VStr (lit "x")); ("parsed", VBool true);
   ("format", VStr (lit "apache")); ("status", VInt 200);
   ("size", VInt 11000000)]%string.

(** [sub] occurs in [s]. *)
Definition contains (sub s : str) : Prop := exists a b, s = a ++ sub ++ b.

(** [s] ends in [.php], a final line feed aside. *)
Definition ends_in_php (s : str) : Prop :=
  exists a b, s = a ++ lit ".php" ++ b /\ Re.dollar b = true.

(** The paths the suspicious list flags, read on the lower-cased path. *)
Definition suspicious (path : str) : Prop :=
  let p := map lower path in
  ends_in_php p \/ contains (lit "admin") p \/ contains (lit ".env") p \/
  contains (lit "backup") p \/ contains (lit "config") p \/
  contains (lit ".git") p.

(** ** The analysis dictionary, stage by stage *)

(** The table fields, written when at least one entry is parsed. *)
Definition with_tables (ps : list entry) (hd : analysis) : analysis :=
  dict_set "top_paths" (ATable (table (Some 10%nat) (column "path" ps)))
    (dict_set "http_methods" (ATable (table None (column "method" ps)))
       (dict_set "status_codes"
          (ATable (table None (truthy_column "status" ps)))
          (dict_set "unique_ips"
             (AInt (len (Counter value_eqb (column "ip" ps))))
             (dict_set "top_ips"
                (ATable (table (Some 10%nat) (column "ip" ps))) hd)))).

Definition sizes_summary (sizes : list Z) : aval :=
  ADict [("total_bytes", AInt (sum_Z sizes));
         ("avg_size", AFloat (inject_Z (sum_Z sizes) / inject_Z (len sizes))%Q);
         ("max_size", AInt (max_Z sizes));
         ("min_size", AInt (min_Z sizes))]%string.

(** The size statistics, written when some size is not zero. *)
Definition with_sizes (sizes : list Z) (a : analysis) : analysis :=
  match sizes with
  | [] => a
  | _ :: _ => dict_set "response_sizes" (sizes_summary sizes) a
  end.

Definition time_summary (start stop : datetime) (duration : Z) : aval :=
  ADict [("start", ATime start); ("end", ATime stop);
         ("duration", AStr (str_timedelta duration))]%string.

(** The time fields, written when some timestamp is not null. *)
Definition with_times (ts : list datetime) (start stop : datetime)
           (duration : Z) (a : analysis) : analysis :=
  dict_set "traffic_by_hour"
    (ATable (table None (map (fun t => VInt (hour t)) ts)))
    (dict_set "time_range" (time_summary start stop duration) a).

(** The sizes and the instants [analyze_entries] computes with. *)
Definition sizes_of (entries : list entry) : list value :=
  truthy_column "size" (filter is_parsed entries).

(** ** Sample results, computed *)

Definition entry_or_empty (m : result entry) : entry :=
  match m with
  | Ok e => e
  | Raise _ => []
  end.

(** The entry of scenario 1 under auto-detection. *)
Definition scenario1_entry : entry :=
  Eval vm_compute in entry_or_empty (parse_log_line scenario1 "auto").

(** The entry of scenario 1 with the common format forced. *)
Definition scenario1_common : entry :=
  Eval vm_compute in entry_or_empty (parse_log_line scenario1 "common").

(** A file of four lines, two of them kept. *)
Definition sample_file : list str :=
  [scenario1; lit "# comment"; lit "  "; lit "junk"].

Definition sample_entries : list entry :=
  Eval vm_compute in
    match parse_lines 1 sample_file "auto" with
    | Ok es => es
    | Raise _ => []
    end.

Definition sample_analysis : analysis :=
  Eval vm_compute in
    match analyze_entries sample_entries with
    | Ok r => r
    | Raise _ => []
    end.

(** ** Full frequency tables *)

Section FullRanking.
Variable K : Type.
Variable eqb : K -> K -> bool.

(** The counts of a table, added up. *)
Definition total (t : list (K * Z)) : Z :=
  fold_right (fun x acc => snd x + acc) 0 t.

(** [t] is the frequency table of [l]: one row per value of [l] with
    its number of occurrences, rows in rank order. *)
Definition is_ranking (l : list K) (t : list (K * Z)) : Prop :=
  NoDup (map fst t) /\
  (forall k c, In (k, c) t <-> In k l /\ c = count eqb k l) /\
  StronglySorted (ranks_before eqb l) (map fst t) /\
  total t = len l.
End FullRanking.

(** The keys of the analysis, stage by stage. *)
Definition head_keys : list string :=
  ["total_entries"; "parsed_entries"; "parse_rate"]%string.
Definition table_keys : list string :=
  ["top_ips"; "unique_ips"; "status_codes"; "http_methods";
   "top_paths"]%string.


(** ** Entries of a parsed file *)

(** An instant within the ranges the [datetime] constructor accepts. *)
Definition valid_datetime (t : datetime) : Prop :=
  1 <= year t <= 9999 /\ 1 <= month t <= 12 /\
  1 <= day t <= Calendar.days_in_month (year t) (month t) /\
  0 <= hour t <= 23 /\ 0 <= minute t <= 59 /\ 0 <= second t <= 59 /\
  0 <= microsecond t <= 999999 /\
  match tzinfo t with
  | Some off => -86400000000 < off < 86400000000
  | None => True
  end.

(** The position of an instant on its time line, in microseconds: UTC
    for an aware instant, the wall clock for a naive one. *)
Definition instant (t : datetime) : Z :=
  match tzinfo t with
  | Some off => Calendar.local_micros t - off
  | None => Calendar.local_micros t
  end.

Definition nat_field (v : value) : Prop := exists n, v = VInt n /\ 0 <= n.

Definition token_field (v : value) : Prop := exists s, v = VStr s /\ token s.

Definition time_field (v : value) : Prop :=
  v = VNone \/ exists t, v = VTime t /\ valid_datetime t.

(** The field [k] of [e], when present, satisfies [P]. *)
Definition has_type (P : value -> Prop) (k : string) (e : entry) : Prop :=
  forall v, dict_get k e = Some v -> P v.

(** The typing of the fields of an entry built from a line. *)
Definition line_entry (e : entry) : Prop :=
  has_type token_field "ip" e /\ has_type nat_field "status" e /\
  has_type nat_field "size" e /\ has_type token_field "method" e /\
  has_type token_field "path" e /\ has_type time_field "timestamp" e.

(** The hours [analyze_entries] counts: one per instant. *)
Definition hours_of (entries : list entry) : list value :=
  flat_map (fun v => match v with
                     | VTime t => [VInt (hour t)]
                     | _ => []
                     end) (timestamps_of entries).

(** The size statistics with their integer members given. *)
Definition sizes_record (total_bytes : Z) (avg_size : aval)
           (max_size min_size : Z) : aval :=
  ADict [("total_bytes", AInt total_bytes); ("avg_size", avg_size);
         ("max_size", AInt max_size); ("min_size", AInt min_size)]%string.

(** ** The limit of number conversion

    CPython converts between text and integers of at most 4300 decimal
    digits, and raises [ValueError] beyond; the model converts numbers
    of any length.  A line within the limit holds no longer number, and
    the integers of a printable entry have no more digits: the results
    that rely on a conversion going through are stated for these. *)
Definition max_str_digits : nat := 4300.

Definition within_limit (line : str) : bool :=
  (length line <=? max_str_digits)%nat.

Definition printable_value (v : value) : bool :=
  match v with
  | VInt n => (length (str_of_Z (Z.abs n)) <=? max_str_digits)%nat
  | _ => true
  end.

Definition printable (e : entry) : bool :=
  forallb (fun kv => printable_value (snd kv)) e.

(** ** Anomalies of a batch *)

(** The entries [detect_anomalies] reports an error status for. *)
Definition error_entry (e : entry) : bool :=
  (is_parsed e && (400 <=? field_int "status" e))%bool.

(** The entries in whose path some suspicious pattern is found. *)
Definition suspicious_entry (e : entry) : bool :=
  (is_parsed e
   && match matching_patterns (field_text "path" e) with
      | [] => false
      | _ :: _ => true
      end)%bool.

(** A batch with the entry of scenario 5 twice, the entry of
    scenario 3 and an unparsed entry. *)
Definition mixed_batch : list entry :=
  [entry_wp_admin; entry_503; unparsed (lit "junk"); entry_wp_admin].

(** The [ip] and the [path] of an entry, when present, are text, as in
    every entry built from a line. *)
Definition text_keys (e : entry) : bool :=
  (field_ok is_text "ip" e && field_ok is_text "path" e)%bool.
(** * Properties *)

(** ** Text and results *)

Lemma str_eqb_eq (a b : str) : str_eqb a b = true <-> a = b.
Proof.
  unfold str_eqb. destruct (list_eq_dec ascii_dec a b); split; congruence.
Qed.

Lemma bind_ok {A B : Type} (m : result A) (f : A -> result B) (b : B) :
  bind m f = Ok b -> exists a, m = Ok a /\ f a = Ok b.
Proof.
  destruct m as [a|e]; simpl; [eauto | discriminate].
Qed.

Lemma getitem_lt {A : Type} (l : list A) (i : nat) :
  (i < length l)%nat -> exists x, getitem l i = Ok x /\ nth_error l i = Some x.
Proof.
  intros H. unfold getitem.
  destruct (nth_error l i) as [x|] eqn:E; [eauto|].
  apply nth_error_None in E. lia.
Qed.

(** ** The matcher against the declarative reading *)

Module ReFacts.
Import Re.

Lemma consumed_app (w rest : str) : consumed (w ++ rest) rest = w.
Proof.
  unfold consumed. rewrite length_app, Nat.add_sub.
  rewrite firstn_app, Nat.sub_diag, firstn_all. simpl. apply app_nil_r.
Qed.

Section Star.
Variable R : Type.
Variable p : ascii -> bool.
Variable k : str -> option R.

Lemma star_greedy_sound (s : str) (x : R) :
  star_greedy p k s = Some x ->
  exists w rest, s = w ++ rest /\ forallb p w = true /\ k rest = Some x.
Proof.
  induction s as [|c s IH]; simpl; intros H.
  - exists [], []. auto.
  - destruct (p c) eqn:Hc.
    + destruct (star_greedy p k s) as [y|] eqn:E.
      * inversion H; subst y. destruct (IH eq_refl) as (w & rest & -> & Hw & Hk).
        exists (c :: w), rest. simpl. rewrite Hc, Hw. auto.
      * exists [], (c :: s). auto.
    + exists [], (c :: s). auto.
Qed.

Lemma star_greedy_here (s : str) (y : R) :
  k s = Some y -> exists x, star_greedy p k s = Some x.
Proof.
  intros H. destruct s as [|c s]; simpl; [eauto|].
  destruct (p c); [|eauto].
  destruct (star_greedy p k s); eauto.
Qed.

Lemma star_greedy_complete (w rest : str) (y : R) :
  forallb p w = true -> k rest = Some y ->
  exists x, star_greedy p k (w ++ rest) = Some x.
Proof.
  induction w as [|c w IH]; simpl; intros Hw Hk.
  - eapply star_greedy_here; eauto.
  - apply andb_true_iff in Hw as [Hc Hw]. rewrite Hc.
    destruct (IH Hw Hk) as [x ->]. eauto.
Qed.

Lemma star_lazy_sound (s : str) (x : R) :
  star_lazy p k s = Some x ->
  exists w rest, s = w ++ rest /\ forallb p w = true /\ k rest = Some x.
Proof.
  induction s as [|c s IH]; simpl; intros H.
  - destruct (k []) eqn:E; [|discriminate]. inversion H; subst.
    exists [], []. auto.
  - destruct (k (c :: s)) eqn:E.
    + inversion H; subst. exists [], (c :: s). auto.
    + destruct (p c) eqn:Hc; [|discriminate].
      destruct (IH H) as (w & rest & -> & Hw & Hk).
      exists (c :: w), rest. simpl. rewrite Hc, Hw. auto.
Qed.

Lemma star_lazy_complete (w rest : str) (y : R) :
  forallb p w = true -> k rest = Some y ->
  exists x, star_lazy p k (w ++ rest) = Some x.
Proof.
  induction w as [|c w IH]; simpl; intros Hw Hk.
  - destruct rest; simpl; rewrite Hk; eauto.
  - apply andb_true_iff in Hw as [Hc Hw].
    destruct (k (c :: w ++ rest)); [eauto|]. rewrite Hc. auto.
Qed.
End Star.

(** Whatever [run] returns was produced by the continuation after a
    prefix that the pattern matches. *)
Lemma run_sound (R : Type) (r : regex) :
  forall (k : str -> list str -> option R) s caps x,
    run r k s caps = Some x ->
    exists w g rest,
      s = w ++ rest /\ sem r w g /\ k rest (caps ++ g) = Some x.
Proof.
  induction r as [| p | a IHa b IHb | a IHa b IHb | gr p | a IHa];
    intros k s caps x H; simpl in H.
  - exists [], [], s. rewrite app_nil_r. repeat split; auto. constructor.
  - destruct s as [|c s]; [discriminate|].
    destruct (p c) eqn:Hc; [|discriminate].
    exists [c], [], s. rewrite app_nil_r. repeat split; auto.
    constructor; auto.
  - apply IHa in H as (w1 & g1 & rest1 & -> & Ha & H).
    apply IHb in H as (w2 & g2 & rest & -> & Hb & H).
    exists (w1 ++ w2), (g1 ++ g2), rest.
    rewrite <- !app_assoc in *. repeat split; auto. constructor; auto.
  - destruct (run a k s caps) as [y|] eqn:E.
    + inversion H; subst y.
      apply IHa in E as (w & g & rest & -> & Ha & E).
      exists w, g, rest. repeat split; auto. apply sem_alt_l; auto.
    + apply IHb in H as (w & g & rest & -> & Hb & H).
      exists w, g, rest. repeat split; auto. apply sem_alt_r; auto.
  - destruct gr.
    + apply star_greedy_sound in H as (w & rest & -> & Hw & H).
      exists w, [], rest. rewrite app_nil_r. repeat split; auto.
      constructor; auto.
    + apply star_lazy_sound in H as (w & rest & -> & Hw & H).
      exists w, [], rest. rewrite app_nil_r. repeat split; auto.
      constructor; auto.
  - apply IHa in H as (w & g & rest & -> & Ha & H).
    rewrite consumed_app in H.
    exists w, (g ++ [w]), rest. rewrite app_assoc.
    repeat split; auto. constructor; auto.
Qed.

(** If the pattern matches a prefix after which the continuation
    succeeds, [run] succeeds (possibly on an earlier alternative). *)
Lemma run_complete (R : Type) (r : regex) (w : str) (g : list str) :
  sem r w g ->
  forall (k : str -> list str -> option R) rest caps y,
    k rest (caps ++ g) = Some y ->
    exists x, run r k (w ++ rest) caps = Some x.
Proof.
  induction 1 as [| p c Hc | a b w1 w2 g1 g2 Ha IHa Hb IHb
                  | a b w g Ha IHa | a b w g Hb IHb | gr p w Hw
                  | a w g Ha IHa];
    intros k rest caps y Hk; simpl.
  - rewrite app_nil_r in Hk. eauto.
  - rewrite Hc. rewrite app_nil_r in Hk. eauto.
  - rewrite app_assoc in Hk.
    destruct (IHb k rest (caps ++ g1) y Hk) as [x1 Hx1].
    rewrite <- app_assoc.
    eapply IHa with (y := x1). exact Hx1.
  - destruct (IHa k rest caps y Hk) as [x ->]. eauto.
  - destruct (run a k (w ++ rest) caps); [eauto|].
    eapply IHb; eauto.
  - rewrite app_nil_r in Hk. destruct gr.
    + eapply star_greedy_complete with (k := fun s' => k s' caps); eauto.
    + eapply star_lazy_complete with (k := fun s' => k s' caps); eauto.
  - eapply IHa with (y := y) (rest := rest) (caps := caps).
    rewrite consumed_app, <- app_assoc. exact Hk.
Qed.

(** [re.match] succeeds exactly on the lines with a matching prefix. *)
Lemma rmatch_sound (r : regex) (s : str) (g : list str) (rest : str) :
  rmatch r s = Some (g, rest) ->
  exists w, s = w ++ rest /\ sem r w g.
Proof.
  unfold rmatch. intros H.
  apply run_sound in H as (w & g' & rest' & -> & Hs & H).
  simpl in H. inversion H; subst. eauto.
Qed.

Lemma rmatch_complete (r : regex) (w rest : str) (g : list str) :
  sem r w g -> exists m, rmatch r (w ++ rest) = Some m.
Proof.
  intros H. unfold rmatch.
  eapply run_complete with (y := (g, rest)) (caps := @nil str); eauto.
Qed.

Lemma fullmatch_sound (r : regex) (s : str) (g : list str) :
  fullmatch r s = Some g -> sem r s g.
Proof.
  unfold fullmatch. intros H.
  apply run_sound in H as (w & g' & rest & -> & Hs & H).
  destruct rest; [|discriminate]. simpl in H. inversion H; subst.
  rewrite app_nil_r. auto.
Qed.



End ReFacts.

(** ** Exceptions of [strptime] and [parse_timestamp] *)


Lemma ove_ok {A : Type} (a : A) : only_value_error (Ok a).
Proof. intros e H; discriminate. Qed.

Lemma ove_raise {A : Type} : only_value_error (@Raise A ValueError).
Proof. intros e H; inversion H; auto. Qed.

Lemma ove_bind {A B : Type} (m : result A) (f : A -> result B) :
  only_value_error m ->
  (forall a, m = Ok a -> only_value_error (f a)) ->
  only_value_error (bind m f).
Proof.
  intros Hm Hf e H. destruct m as [a|e']; simpl in H.
  - eapply Hf; eauto.
  - inversion H; subst. apply Hm; auto.
Qed.

Lemma ove_py_int (s : str) : only_value_error (py_int s).
Proof.
  unfold py_int. destruct (strip s); [apply ove_raise|].
  destruct (forallb _ _); [apply ove_ok | apply ove_raise].
Qed.

#[local] Hint Resolve ove_ok ove_raise ove_py_int : ove.

Module StrptimeFacts.
Import Re Strptime StrptimeSpec.


Lemma sem_no_group (r : regex) (w : str) (g : list str) :
  sem r w g -> no_group r = true -> g = [].
Proof.
  induction 1; simpl; intros Hn; auto; try discriminate.
  - apply andb_true_iff in Hn as [Ha Hb]. rewrite IHsem1, IHsem2; auto.
  - apply andb_true_iff in Hn as [Ha Hb]. auto.
  - apply andb_true_iff in Hn as [Ha Hb]. auto.
Qed.

Lemma sem_min_len (r : regex) (w : str) (g : list str) :
  sem r w g -> (min_len r <= length w)%nat.
Proof.
  induction 1; simpl; try lia.
  rewrite length_app. lia.
Qed.


Lemma dir_regex_shape (d : directive) (w : str) (g : list str) :
  sem (dir_regex d) w g -> g = [w] /\ shape d w.
Proof.
  unfold dir_regex. intros H. inversion H as [| | | | | |a w' g' Hs]; subst.
  assert (Hg : g' = []).
  { eapply sem_no_group; eauto. destruct d; reflexivity. }
  subst g'. split; [reflexivity|].
  destruct d; simpl; auto.
  inversion Hs as [| | |a b w' g' Hl|a b w' g' Hr| |]; subst.
  - right. apply sem_min_len in Hl. simpl in Hl. lia.
  - left. inversion Hr as [|p c Hc| | | | |]; subst.
    apply Ascii.eqb_eq in Hc. subst c. reflexivity.
Qed.

Lemma tok_regex_groups (t : token) (w : str) (g : list str) :
  sem (tok_regex t) w g ->
  match t with
  | Dir d => g = [w] /\ shape d w
  | _ => g = []
  end.
Proof.
  destruct t; intros H.
  - apply dir_regex_shape; auto.
  - eapply sem_no_group; eauto.
  - eapply sem_no_group; eauto.
  - eapply sem_no_group; eauto.
Qed.

Lemma format_groups (ts : list token) :
  forall w g, sem (cat (map tok_regex ts)) w g ->
              Forall2 shape (directives ts) g.
Proof.
  induction ts as [|t ts IH]; simpl; intros w g H.
  - inversion H; subst. constructor.
  - inversion H as [| |a b w1 w2 g1 g2 H1 H2| | | |]; subst.
    apply tok_regex_groups in H1. apply IH in H2.
    destruct t; subst; simpl; auto.
    destruct H1 as [-> Hsh]. constructor; auto.
Qed.

Lemma ove_index_of (x : str) (l : list string) :
  forall i, only_value_error (index_of x l i).
Proof.
  induction l as [|y l IH]; simpl; intros i; [apply ove_raise|].
  destruct (str_eqb x (lit y)); auto with ove.
Qed.

Lemma ove_parse_z (z : str) : shape D_z z -> only_value_error (parse_z z).
Proof.
  unfold parse_z. intros [-> | Hlen]; [simpl; auto with ove|].
  destruct (str_eqb z (lit "Z")); [auto with ove|].
  destruct (getitem_lt z (i := 3)) as (z3 & Hz3 & _); [lia|].
  rewrite Hz3. cbn [bind].
  apply ove_bind.
  - destruct (Ascii.eqb z3 ":"); [|auto with ove].
    cbv zeta.
    destruct (5 <? length (firstn 3 z ++ skipn 4 z))%nat eqn:E;
      [|auto with ove].
    apply Nat.ltb_lt in E.
    destruct (getitem_lt (firstn 3 z ++ skipn 4 z) (i := 5)) as (z5 & Hz5 & _);
      [lia|]. rewrite Hz5. cbn [bind].
    destruct (Ascii.eqb z5 ":"); auto with ove.
  - intros z' _.
    do 2 (apply ove_bind; [auto with ove|intros ? _]).
    apply ove_bind.
    { destruct (slice z' 5 7); auto with ove. }
    intros ? _. apply ove_bind; [auto with ove|intros ? _].
    destruct z' as [|c ?]; [auto with ove|].
    destruct c as [[] [] [] [] [] [] [] []]; auto with ove.
Qed.

Lemma ove_convert (f : fields) (d : directive) (s : str) :
  shape d s -> only_value_error (convert f d s).
Proof.
  intros Hs. destruct d; cbn [convert];
    (apply ove_bind; [|intros; apply ove_ok]); auto with ove.
  - apply ove_index_of.
  - apply ove_parse_z; auto.
Qed.

Lemma ove_convert_all (ds : list directive) (gs : list str) :
  Forall2 shape ds gs ->
  forall f, only_value_error (convert_all f ds gs).
Proof.
  induction 1; intros f; simpl; [apply ove_ok|].
  apply ove_bind; [apply ove_convert; auto|auto].
Qed.

Lemma ove_make_datetime (y m d H M S us : Z) (tz : option Z) :
  only_value_error (Calendar.make_datetime y m d H M S us tz).
Proof.
  unfold Calendar.make_datetime.
  match goal with |- context [if ?c then _ else _] => destruct c end;
    auto with ove.
Qed.

(** [strptime] either returns an instant or raises [ValueError]. *)
Lemma ove_strptime (data_string format : str) :
  only_value_error (strptime data_string format).
Proof.
  unfold strptime.
  destruct (rmatch _ data_string) as [[found rest]|] eqn:E; [|apply ove_raise].
  destruct rest; [|apply ove_raise].
  apply ReFacts.rmatch_sound in E as (w & _ & Hs).
  apply format_groups in Hs.
  apply ove_bind; [apply ove_convert_all; auto|].
  intros f _. apply ove_make_datetime.
Qed.

End StrptimeFacts.

Lemma try_formats_returns (s : str) (fmts : list str) :
  exists o, try_formats s fmts = Ok o.
Proof.
  induction fmts as [|fmt fmts IH]; simpl; [eauto|].
  destruct (Strptime.strptime s fmt) as [t|e] eqn:E; [eauto|].
  apply StrptimeFacts.ove_strptime in E. subst e. exact IH.
Qed.

Lemma parse_timestamp_returns (s : str) : exists o, parse_timestamp s = Ok o.
Proof. apply try_formats_returns. Qed.

(** ** Digits, white space and [int] *)

Lemma digit_not_space (c : ascii) : is_digit c = true -> is_space c = false.
Proof.
  destruct c as [[] [] [] [] [] [] [] []]; vm_compute; congruence.
Qed.

Lemma digit_is_digit_char (c : ascii) :
  is_digit c = true -> is_digit_char c = true.
Proof. unfold is_digit_char. intros ->. reflexivity. Qed.

Lemma lstrip_digits (s : str) : forallb is_digit s = true -> lstrip s = s.
Proof.
  destruct s as [|c s]; simpl; [reflexivity|].
  intros H. apply andb_true_iff in H as [Hc _].
  rewrite (digit_not_space _ Hc). reflexivity.
Qed.

Lemma forallb_rev {A : Type} (p : A -> bool) (l : list A) :
  forallb p l = true -> forallb p (rev l) = true.
Proof.
  rewrite !forallb_forall. intros H x Hx. apply H. apply in_rev. exact Hx.
Qed.

Lemma strip_digits (s : str) : forallb is_digit s = true -> strip s = s.
Proof.
  intros H. unfold strip, rstrip.
  rewrite (lstrip_digits _ H).
  rewrite (lstrip_digits _ (forallb_rev _ _ H)). apply rev_involutive.
Qed.

Lemma py_int_digits (s : str) : digits s -> py_int s = Ok (int_of_digits s).
Proof.
  intros [Hne H]. unfold py_int. rewrite (strip_digits _ H).
  destruct s; [congruence|]. rewrite H. reflexivity.
Qed.

Lemma isdigit_digits (s : str) : digits s -> isdigit s = true.
Proof.
  intros [Hne H]. unfold isdigit. destruct s; [congruence|].
  rewrite forallb_forall in *. intros x Hx.
  apply digit_is_digit_char. auto.
Qed.

(** On a group captured by [(\d+)] the guard holds and [int] succeeds. *)
Lemma int_or_zero_digits (s : str) :
  digits s -> int_or_zero s = Ok (int_of_digits s).
Proof.
  intros H. unfold int_or_zero.
  rewrite (isdigit_digits H). apply py_int_digits. exact H.
Qed.

(** In every case the guarded conversion returns. *)
Lemma int_or_zero_only_value_error (s : str) :
  only_value_error (int_or_zero s).
Proof.
  unfold int_or_zero. destruct (isdigit s); auto with ove.
Qed.

(** ** The groups of the registry patterns *)

Module PatternFacts.
Import Re Patterns.

Ltac inv_sem :=
  repeat match goal with
    | H : sem (Seq _ _) _ _ |- _ => inversion H; subst; clear H
    | H : sem (Group _) _ _ |- _ => inversion H; subst; clear H
    | H : sem (Chr _) _ _ |- _ => inversion H; subst; clear H
    | H : sem (Star _ _) _ _ |- _ => inversion H; subst; clear H
    | H : sem Eps _ _ |- _ => inversion H; subst; clear H
    end.

Lemma digits_plus (c : ascii) (w : str) :
  is_digit c = true -> forallb is_digit w = true -> digits (c :: w).
Proof.
  intros Hc Hw. split; [discriminate|]. simpl. rewrite Hc, Hw. reflexivity.
Qed.

#[local] Hint Resolve digits_plus : core.

Lemma common_groups (w : str) (g : list str) :
  sem common w g ->
  exists g0 g1 g2 g3 g4, g = [g0; g1; g2; g3; g4] /\ digits g3 /\ digits g4.
Proof.
  unfold common, cat, plus, lazy, chr. simpl. intros H. inv_sem.
  simpl. do 5 eexists. split; [reflexivity|]. split; auto.
Qed.

Lemma apache_groups (w : str) (g : list str) :
  sem apache w g ->
  exists g0 g1 g2 g3 g4, g = [g0; g1; g2; g3; g4] /\ digits g3 /\ digits g4.
Proof.
  unfold apache, cat, plus, lazy, chr. simpl. intros H. inv_sem.
  simpl. do 5 eexists. split; [reflexivity|]. split; auto.
Qed.

Lemma nginx_groups (w : str) (g : list str) :
  sem nginx w g ->
  exists g0 g1 g2 g3 g4 g5 g6,
    g = [g0; g1; g2; g3; g4; g5; g6] /\ digits g3 /\ digits g4.
Proof.
  unfold nginx, cat, plus, lazy, chr. simpl. intros H. inv_sem.
  simpl. do 7 eexists. split; [reflexivity|]. split; auto.
Qed.

Lemma custom_groups (w : str) (g : list str) :
  sem custom w g -> exists g0 g1 g2, g = [g0; g1; g2].
Proof.
  unfold custom, cat, plus, lazy, chr, rep. simpl. intros H. inv_sem.
  simpl. do 3 eexists. reflexivity.
Qed.

End PatternFacts.

(** ** [extract_fields] on the groups of a registry pattern *)

Lemma extract_fields_web (name : string) (line g0 g1 g2 g3 g4 : str) :
  (name = "apache" \/ name = "common")%string ->
  digits g3 -> digits g4 ->
  exists e, extract_fields [g0; g1; g2; g3; g4] name line = Ok e /\
            entry_of name line [g0; g1; g2; g3; g4] e.
Proof.
  intros Hn H3 H4.
  destruct (parse_timestamp_returns g1) as [ts Hts].
  exists (web_entry name line g0 ts g2 (int_of_digits g3) (int_of_digits g4)).
  split; [|constructor; auto].
  unfold extract_fields, web_entry, request_fields.
  destruct Hn as [-> | ->]; cbn [mem_string existsb String.eqb Ascii.eqb
    Bool.eqb orb andb getitem nth_error bind];
    rewrite Hts, (int_or_zero_digits H3), (int_or_zero_digits H4);
    cbn [bind];
    destruct (split g2) as [|m [|p [|pr rest]]]; reflexivity.
Qed.

Lemma extract_fields_extra (name : string) (line g0 g1 g2 g3 g4 g5 g6 : str) :
  (name = "nginx" \/ name = "combined")%string ->
  digits g3 -> digits g4 ->
  exists e, extract_fields [g0; g1; g2; g3; g4; g5; g6] name line = Ok e /\
            entry_of name line [g0; g1; g2; g3; g4; g5; g6] e.
Proof.
  intros Hn H3 H4.
  destruct (parse_timestamp_returns g1) as [ts Hts].
  exists (web_entry name line g0 ts g2 (int_of_digits g3) (int_of_digits g4)
          ++ referer_fields g5 g6).
  split; [|constructor; auto].
  unfold extract_fields, web_entry, request_fields, referer_fields.
  destruct Hn as [-> | ->]; cbn [mem_string existsb String.eqb Ascii.eqb
    Bool.eqb orb andb getitem nth_error bind];
    rewrite Hts, (int_or_zero_digits H3), (int_or_zero_digits H4);
    cbn [bind];
    destruct (split g2) as [|m [|p [|pr rest]]]; reflexivity.
Qed.

Lemma extract_fields_custom (line g0 g1 g2 : str) :
  exists e, extract_fields [g0; g1; g2] "custom" line = Ok e /\
            entry_of "custom" line [g0; g1; g2] e.
Proof.
  destruct (parse_timestamp_returns g0) as [ts Hts].
  exists (custom_entry line ts g1 g2).
  split; [|constructor; auto].
  unfold extract_fields, custom_entry.
  cbn [mem_string existsb String.eqb Ascii.eqb Bool.eqb orb andb getitem
       nth_error bind].
  rewrite Hts. reflexivity.
Qed.

(** A match of a registry pattern always yields an entry. *)
Lemma extract_fields_registry (name : string) (pat : Re.regex)
      (line : str) (g : list str) (rest : str) :
  In (name, pat) log_patterns ->
  Re.rmatch pat line = Some (g, rest) ->
  exists e, extract_fields g name line = Ok e /\ entry_of name line g e.
Proof.
  intros Hin Hm. apply ReFacts.rmatch_sound in Hm as (w & _ & Hs).
  unfold log_patterns in Hin. simpl in Hin.
  destruct Hin as [E|[E|[E|[E|[E|[]]]]]]; inversion E; subst; clear E.
  - apply PatternFacts.apache_groups in Hs
      as (g0 & g1 & g2 & g3 & g4 & -> & H3 & H4).
    apply extract_fields_web; auto.
  - apply PatternFacts.nginx_groups in Hs
      as (g0 & g1 & g2 & g3 & g4 & g5 & g6 & -> & H3 & H4).
    apply extract_fields_extra; auto.
  - apply PatternFacts.common_groups in Hs
      as (g0 & g1 & g2 & g3 & g4 & -> & H3 & H4).
    apply extract_fields_web; auto.
  - apply PatternFacts.nginx_groups in Hs
      as (g0 & g1 & g2 & g3 & g4 & g5 & g6 & -> & H3 & H4).
    apply extract_fields_extra; auto.
  - apply PatternFacts.custom_groups in Hs as (g0 & g1 & g2 & ->).
    apply extract_fields_custom.
Qed.

(** ** [parse_log_line]: first match in table order *)

Lemma rmatch_some_prefix (pat : Re.regex) (line : str) m :
  Re.rmatch pat line = Some m -> matches_prefix pat line.
Proof.
  destruct m as [g rest]. intros H.
  apply ReFacts.rmatch_sound in H as (w & -> & Hs).
  exists w, rest, g. auto.
Qed.

Lemma rmatch_none_prefix (pat : Re.regex) (line : str) :
  Re.rmatch pat line = None -> ~ matches_prefix pat line.
Proof.
  intros H (w & rest & g & -> & Hs).
  destruct (ReFacts.rmatch_complete rest Hs) as [m Hm]. congruence.
Qed.

Lemma prefix_rmatch (pat : Re.regex) (line : str) :
  matches_prefix pat line -> exists m, Re.rmatch pat line = Some m.
Proof.
  intros (w & rest & g & -> & Hs). eapply ReFacts.rmatch_complete; eauto.
Qed.

Lemma auto_detect_spec (pats : dict Re.regex) (line : str) :
  (forall n p, In (n, p) pats -> In (n, p) log_patterns) ->
  exists e, auto_detect pats line = Ok e /\
    ((e = unparsed line /\
      forall n p, In (n, p) pats -> ~ matches_prefix p line)
     \/
     (exists name pat g rest,
        first_hit pats line name pat /\
        Re.rmatch pat line = Some (g, rest) /\
        entry_of name line g e)).
Proof.
  induction pats as [|[n p] pats IH]; intros Hsub.
  - exists (unparsed line). split; [reflexivity|]. left.
    split; [reflexivity|]. intros ? ? [].
  - simpl. destruct (Re.rmatch p line) as [[g rest]|] eqn:E.
    + destruct (@extract_fields_registry n p line g rest) as (e & He & Hof);
        auto. { apply Hsub. left; auto. }
      exists e. split; auto. right. exists n, p, g, rest.
      repeat split; auto.
      exists [], pats. repeat split; auto.
      eapply rmatch_some_prefix; eauto.
    + destruct IH as (e & He & [[-> Hno] | Hhit]).
      { intros; apply Hsub; right; auto. }
      * exists (unparsed line). split; auto. left. split; auto.
        intros n' p' [Heq | Hin]; [|eauto].
        inversion Heq; subst. apply rmatch_none_prefix; auto.
      * destruct Hhit as (name & pat & g & rest & Hfirst & Hm & Hof).
        exists e. split; auto. right. exists name, pat, g, rest.
        repeat split; auto.
        destruct Hfirst as (pre & post & -> & Hpre & Hp).
        exists ((n, p) :: pre), post. repeat split; auto.
        intros n' p' [Heq | Hin]; [|eauto].
        inversion Heq; subst. apply rmatch_none_prefix; auto.
Qed.

Lemma dict_get_In {V : Type} (k : string) (d : dict V) (v : V) :
  dict_get k d = Some v -> In (k, v) d.
Proof.
  induction d as [|[k' v'] d IH]; simpl; [discriminate|].
  destruct (String.eqb k k') eqn:E.
  - apply String.eqb_eq in E. intros H; inversion H; subst. auto.
  - auto.
Qed.

(** Whatever the line and the selector, [parse_log_line] returns an
    entry: the unparsed one, or the entry of a registry pattern that
    matched at the start of the line. *)
Lemma parse_log_line_spec (line : str) (log_format : string) :
  exists e, parse_log_line line log_format = Ok e /\
    (e = unparsed line \/
     exists name pat g rest,
       In (name, pat) log_patterns /\
       (log_format = "auto"%string \/ log_format = name) /\
       Re.rmatch pat line = Some (g, rest) /\
       entry_of name line g e).
Proof.
  unfold parse_log_line. destruct (String.eqb log_format "auto") eqn:Ea.
  - apply String.eqb_eq in Ea.
    destruct (@auto_detect_spec log_patterns line) as (e & He & [[-> _]|H]);
      auto.
    + eauto.
    + destruct H as (name & pat & g & rest & (pre & post & Hp & _) & Hm & Hof).
      exists e. split; auto. right. exists name, pat, g, rest.
      repeat split; auto. rewrite Hp. apply in_elt.
  - destruct (dict_get log_format log_patterns) as [pat|] eqn:Eg; [|eauto].
    apply dict_get_In in Eg.
    destruct (Re.rmatch pat line) as [[g rest]|] eqn:Em; [|eauto].
    destruct (@extract_fields_registry log_format pat line g rest Eg Em)
      as (e & He & Hof).
    exists e. split; auto. right. exists log_format, pat, g, rest. auto.
Qed.

Lemma entry_of_parsed (name : string) (line : str) (g : list str) (e : entry) :
  entry_of name line g e ->
  is_parsed e = true /\ format_of e = Some (VStr (lit name)).
Proof.
  destruct 1; split; reflexivity.
Qed.


(** ** Apache covers the other web patterns *)

Module Coverage.
Import Re Patterns.











End Coverage.


(** ** Timestamps *)

Lemma try_formats_first (s : str) (fmts : list str) :
  exists o, try_formats s fmts = Ok o /\
    match o with
    | Some t =>
        exists i fmt,
          nth_error fmts i = Some fmt /\
          Strptime.strptime s fmt = Ok t /\
          forall j fmt', (j < i)%nat -> nth_error fmts j = Some fmt' ->
                         Strptime.strptime s fmt' = Raise ValueError
    | None =>
        forall fmt, In fmt fmts -> Strptime.strptime s fmt = Raise ValueError
    end.
Proof.
  induction fmts as [|fmt fmts IH]; simpl.
  - exists None. split; [reflexivity|]. intros ? [].
  - destruct (Strptime.strptime s fmt) as [t|e] eqn:E.
    + exists (Some t). split; [reflexivity|]. exists 0%nat, fmt.
      repeat split; auto. intros j fmt' Hj. lia.
    + apply StrptimeFacts.ove_strptime in E as Hv. subst e.
      destruct IH as (o & Ho & Hspec). exists o. split; [exact Ho|].
      destruct o as [t|].
      * destruct Hspec as (i & fmt0 & Hn & Hok & Hbefore).
        exists (S i), fmt0. repeat split; auto.
        intros [|j] fmt' Hj Hnth; simpl in Hnth.
        -- inversion Hnth; subst. exact E.
        -- apply (Hbefore j); auto. lia.
      * intros fmt' [<- | Hin]; auto.
Qed.

(** C7: [parse_timestamp] has exactly four layouts, in the order
    day/month-name/year time with UTC offset, the same without offset,
    year-month-day time, year-month-day time with fraction; on every
    text it returns without raising, the instant of the first layout
    that [strptime] accepts (all earlier ones having failed with
    [ValueError]), and null exactly when all four fail. *)
Theorem C7_parse_timestamp_first_layout (s : str) :
  map (Strptime.tokens false) timestamp_formats
  = [Layouts.layout_tz; Layouts.layout_no_tz; Layouts.layout_iso;
     Layouts.layout_iso_fraction] /\
  exists o, parse_timestamp s = Ok o /\
    match o with
    | Some t =>
        exists i fmt,
          nth_error timestamp_formats i = Some fmt /\
          Strptime.strptime s fmt = Ok t /\
          forall j fmt', (j < i)%nat ->
                         nth_error timestamp_formats j = Some fmt' ->
                         Strptime.strptime s fmt' = Raise ValueError
    | None =>
        forall fmt, In fmt timestamp_formats ->
                    Strptime.strptime s fmt = Raise ValueError
    end.
Proof.
  split; [reflexivity|]. apply try_formats_first.
Qed.

(** One text per layout, and one no layout accepts. *)
Example parse_timestamp_layouts :
  parse_timestamp (lit "10/Oct/2024:13:55:36 -0700")
  = Ok (Some (mkdt 2024 10 10 13 55 36 0 (Some (-25200000000)))) /\
  parse_timestamp (lit "10/Oct/2024:13:55:36")
  = Ok (Some (mkdt 2024 10 10 13 55 36 0 None)) /\
  parse_timestamp (lit "2024-10-10 13:55:36")
  = Ok (Some (mkdt 2024 10 10 13 55 36 0 None)) /\
  parse_timestamp (lit "2024-10-10 13:55:36.25")
  = Ok (Some (mkdt 2024 10 10 13 55 36 250000 None)) /\
  parse_timestamp (lit "yesterday") = Ok None /\
  parse_timestamp (lit "30/Feb/2024:13:55:36") = Ok None.
Proof. vm_compute. repeat split. Qed.

(** ** Claims about [parse_log_line] *)









(** A forced format yields that format's fields, the extra pair
    included, where auto-detection tags the same line apache. *)
Example forced_nginx_has_referer :
  let line := scenario1 ++ lit " " ++ dq :: lit "-" ++ dq :: lit " "
              ++ dq :: lit "curl/8" ++ [dq] in
  (exists e, parse_log_line line "nginx" = Ok e /\
             format_of e = Some (VStr (lit "nginx")) /\
             dict_get "referer" e = Some VNone /\
             dict_get "user_agent" e = Some (VStr (lit "curl/8"))) /\
  (exists e, parse_log_line line "auto" = Ok e /\
             format_of e = Some (VStr (lit "apache"))).
Proof.
  split; eexists; (split; [vm_compute; reflexivity|]);
    repeat split; vm_compute; reflexivity.
Qed.

(** ** [detect_anomalies] on typed entries *)

Lemma scan_patterns_text (pats : list (Re.regex * bool)) (s : str)
      (e : entry) :
  scan_patterns pats (VStr s) e
  = Ok match filter (fun p => Re.search (fst p) (snd p) s) pats with
       | [] => []
       | _ :: _ =>
           [mkanomaly suspicious_path high
              (lit "Suspicious path access: " ++ s) e]
       end.
Proof.
  induction pats as [|p pats IH]; simpl; [reflexivity|].
  destruct (Re.search (fst p) (snd p) s); simpl; auto.
Qed.

Lemma detect_entry_typed (e : entry) :
  detect_typed e = true -> detect_entry e = Ok (anomalies_of e).
Proof.
  unfold detect_typed, field_ok. intros H.
  apply andb_true_iff in H as [H Hpath].
  apply andb_true_iff in H as [Hstatus Hsize].
  unfold detect_entry, anomalies_of.
  destruct (is_parsed e); [|reflexivity]. cbn [negb].
  unfold errors_of, larges_of, suspicious_of, matching_patterns,
    field_int, field_text, get_default, subscript, ge_int, gt_int.
  destruct (dict_get "status" e) as [[| b | n | |]|]; try discriminate;
    destruct (dict_get "size" e) as [[| b' | n' | |]|]; try discriminate;
    destruct (dict_get "path" e) as [[| | | s |]|]; try discriminate;
    cbn [as_int bind];
    repeat match goal with
      | |- context [if ?c then _ else _] =>
          lazymatch c with
          | Z.leb _ _ => destruct c eqn:?
          | Z.ltb _ _ => destruct c eqn:?
          end
      end;
    cbn [as_int bind]; rewrite ?scan_patterns_text; cbn [bind];
    try reflexivity;
    repeat match goal with
      | H : (_ <=? Z.b2z ?b) = true |- _ => destruct b; discriminate H
      | H : (_ <? Z.b2z ?b) = true |- _ => destruct b; discriminate H
      | H : (_ <=? 0) = true |- _ => discriminate H
      | H : (_ <? 0) = true |- _ => discriminate H
      end.
Qed.

Lemma detect_anomalies_typed (es : list entry) :
  Forall (fun e => detect_typed e = true) es ->
  detect_anomalies es = Ok (flat_map anomalies_of es).
Proof.
  induction 1 as [|e es He Hes IH]; simpl; [reflexivity|].
  rewrite (detect_entry_typed _ He), IH. reflexivity.
Qed.

Lemma detect_anomalies_single (e : entry) :
  detect_typed e = true -> detect_anomalies [e] = Ok (anomalies_of e).
Proof.
  intros H. rewrite detect_anomalies_typed by (constructor; auto).
  simpl. rewrite app_nil_r. reflexivity.
Qed.

Lemma of_type_app (t : anomaly_type) (l1 l2 : list anomaly) :
  of_type t (l1 ++ l2) = of_type t l1 ++ of_type t l2.
Proof. apply filter_app. Qed.

Lemma of_type_errors (t : anomaly_type) (e : entry) :
  of_type t (errors_of e)
  = if type_eqb error_status t then errors_of e else [].
Proof.
  unfold errors_of. destruct (400 <=? _); destruct t; reflexivity.
Qed.

Lemma of_type_larges (t : anomaly_type) (e : entry) :
  of_type t (larges_of e)
  = if type_eqb large_response t then larges_of e else [].
Proof.
  unfold larges_of. destruct (_ <? _); destruct t; reflexivity.
Qed.

Lemma of_type_suspicious (t : anomaly_type) (e : entry) :
  of_type t (suspicious_of e)
  = if type_eqb suspicious_path t then suspicious_of e else [].
Proof.
  unfold suspicious_of. destruct (matching_patterns _); destruct t;
    reflexivity.
Qed.

(** The scan never looks past the first pattern found. *)
Lemma scan_patterns_stops_at_first (pre post : list (Re.regex * bool))
      (p : Re.regex * bool) (s : str) (e : entry) :
  (forall q, In q pre -> Re.search (fst q) (snd q) s = false) ->
  Re.search (fst p) (snd p) s = true ->
  scan_patterns (pre ++ p :: post) (VStr s) e
  = Ok [mkanomaly suspicious_path high
          (lit "Suspicious path access: " ++ s) e].
Proof.
  induction pre as [|q pre IH]; simpl; intros Hpre Hp.
  - rewrite Hp. reflexivity.
  - rewrite (Hpre q) by (left; reflexivity). simpl.
    apply IH; [|exact Hp]. intros q' Hq'. apply Hpre. right; exact Hq'.
Qed.

(** With one match the result is the same, with none there is no
    [suspicious_path] anomaly. *)
Lemma suspicious_count (e : entry) :
  is_parsed e = true -> detect_typed e = true ->
  exists l, detect_anomalies [e] = Ok l /\
    length (of_type suspicious_path l)
    = match matching_patterns (field_text "path" e) with
      | [] => 0%nat
      | _ :: _ => 1%nat
      end.
Proof.
  intros Hparsed Htyped. exists (anomalies_of e). split.
  { apply detect_anomalies_single; auto. }
  unfold anomalies_of. rewrite Hparsed.
  rewrite !of_type_app, of_type_errors, of_type_larges, of_type_suspicious.
  simpl. unfold suspicious_of.
  destruct (matching_patterns _); reflexivity.
Qed.

(** ** [analyze_entries]: counts and parse rate *)

Lemma dict_get_set_other {V : Type} (k k' : string) (v : V) (d : dict V) :
  k <> k' -> dict_get k (dict_set k' v d) = dict_get k d.
Proof.
  intros Hk. induction d as [|[k0 v0] d IH]; simpl.
  - destruct (String.eqb k k') eqn:E; [|reflexivity].
    apply String.eqb_eq in E. congruence.
  - destruct (String.eqb k' k0) eqn:E0; simpl.
    + apply String.eqb_eq in E0. subst k0.
      destruct (String.eqb k k') eqn:E; [|reflexivity].
      apply String.eqb_eq in E. congruence.
    + destruct (String.eqb k k0); auto.
Qed.

Lemma dict_get_set_same {V : Type} (k : string) (v : V) (d : dict V) :
  dict_get k (dict_set k v d) = Some v.
Proof.
  induction d as [|[k0 v0] d IH]; simpl.
  - rewrite String.eqb_refl. reflexivity.
  - destruct (String.eqb k k0) eqn:E; simpl.
    + rewrite String.eqb_refl. reflexivity.
    + rewrite E. exact IH.
Qed.

(** Whatever [analyze_entries] adds later, it leaves the three leading
    fields as first written. *)
Lemma analyze_entries_head (entries : list entry) (r : analysis) (k : string) :
  entries <> [] -> analyze_entries entries = Ok r ->
  In k ["total_entries"; "parsed_entries"; "parse_rate"]%string ->
  dict_get k r = dict_get k (head_fields entries).
Proof.
  intros Hne H Hk. unfold analyze_entries in H.
  destruct entries as [|e0 es]; [congruence|].
  fold (head_fields (e0 :: es)) in H.
  remember (head_fields (e0 :: es)) as hd eqn:Ehd. clear Ehd.
  destruct (filter is_parsed (e0 :: es)) as [|p ps] eqn:Ef.
  { injection H as <-. reflexivity. }
  apply bind_ok in H as (sizes & _ & H).
  apply bind_ok in H as (timestamps & _ & H).
  assert (Hk' : (k <> "top_ips" /\ k <> "unique_ips" /\ k <> "status_codes"
                 /\ k <> "http_methods" /\ k <> "top_paths"
                 /\ k <> "response_sizes" /\ k <> "time_range"
                 /\ k <> "traffic_by_hour")%string).
  { simpl in Hk. destruct Hk as [<-|[<-|[<-|[]]]]; repeat split; discriminate. }
  destruct Hk' as (K1 & K2 & K3 & K4 & K5 & K6 & K7 & K8).
  destruct timestamps as [|t ts].
  - injection H as <-. destruct sizes;
      repeat (rewrite dict_get_set_other by assumption); reflexivity.
  - apply bind_ok in H as (start & _ & H).
    apply bind_ok in H as (stop & _ & H).
    apply bind_ok in H as (stop' & _ & H).
    apply bind_ok in H as (start' & _ & H).
    apply bind_ok in H as (duration & _ & H).
    injection H as <-. destruct sizes;
      repeat (rewrite dict_get_set_other by assumption); reflexivity.
Qed.

Lemma len_filter_le {A : Type} (f : A -> bool) (l : list A) :
  0 <= len (filter f l) <= len l.
Proof.
  unfold len. pose proof (filter_length_le f l). lia.
Qed.

Lemma parse_rate_bounds (p t : Z) :
  0 <= p <= t -> 0 < t ->
  (0 <= inject_Z p / inject_Z t * inject_Z 100 <= inject_Z 100)%Q.
Proof.
  intros Hp Ht. destruct t as [|t|t]; try lia.
  unfold Qle, Qdiv, Qmult, Qinv, inject_Z. simpl. split; nia.
Qed.

(** C2 (as amended): on the empty batch [analyze_entries] returns the
    empty dictionary, without a fault: it has no [total_entries],
    [parsed_entries] or [parse_rate] field at all.  On a non-empty batch
    for which it returns, [total_entries] is the length of the batch,
    [parsed_entries] the number of parsed entries, and [parse_rate] is
    [parsed_entries / total_entries * 100], between 0 and 100. *)
Theorem C2_empty_batch_empty_result (entries : list entry) (r : analysis)
        (Hr : analyze_entries entries = Ok r) :
  match entries with
  | [] => r = []
  | _ :: _ =>
      dict_get "total_entries" r = Some (AInt (len entries)) /\
      dict_get "parsed_entries" r
      = Some (AInt (len (filter is_parsed entries))) /\
      dict_get "parse_rate" r
      = Some (AFloat (inject_Z (len (filter is_parsed entries))
                      / inject_Z (len entries) * inject_Z 100)%Q) /\
      (0 <= inject_Z (len (filter is_parsed entries))
            / inject_Z (len entries) * inject_Z 100 <= inject_Z 100)%Q
  end.
Proof.
  destruct entries as [|e0 es].
  - simpl in Hr. inversion Hr. reflexivity.
  - assert (Hne : e0 :: es <> []) by discriminate.
    rewrite (@analyze_entries_head _ _ "total_entries" Hne Hr),
      (@analyze_entries_head _ _ "parsed_entries" Hne Hr),
      (@analyze_entries_head _ _ "parse_rate" Hne Hr) by (simpl; auto).
    repeat split; try reflexivity.
    + apply parse_rate_bounds.
      * apply len_filter_le.
      * unfold len. simpl. lia.
    + apply parse_rate_bounds.
      * apply len_filter_le.
      * unfold len. simpl. lia.
Qed.

Lemma C2_witness_three_lines :
  exists r,
    analyze_entries [unparsed (lit "junk"); entry_503; entry_wp_admin] = Ok r /\
    dict_get "total_entries" r = Some (AInt 3) /\
    dict_get "parsed_entries" r = Some (AInt 2).
Proof.
  eexists. split; [vm_compute; reflexivity|].
  pose proof (@C2_empty_batch_empty_result
                [unparsed (lit "junk"); entry_503; entry_wp_admin] _ eq_refl)
    as (Ht & Hp & _).
  split; [exact Ht | exact Hp].
Defined.

(** C2, the claim as stated fails: the result for the empty batch
    holds no [total_entries], [parsed_entries] or [parse_rate]. *)
Lemma C2_empty_batch_has_no_fields :
  analyze_entries [] = Ok [] /\
  dict_get "total_entries" (@nil (string * aval)) = None /\
  dict_get "parsed_entries" (@nil (string * aval)) = None /\
  dict_get "parse_rate" (@nil (string * aval)) = None.
Proof. repeat split. Qed.

(** ** [Counter] and [most_common] *)

Lemma StronglySorted_snoc {A : Type} (R : A -> A -> Prop) (l : list A) (x : A) :
  StronglySorted R l -> (forall a, In a l -> R a x) ->
  StronglySorted R (l ++ [x]).
Proof.
  induction 1 as [|a l Hl IH Ha]; intros Hx; simpl.
  - constructor; constructor.
  - constructor.
    + apply IH. intros b Hb. apply Hx. right; exact Hb.
    + apply Forall_app. split; [exact Ha|].
      constructor; [|constructor]. apply Hx. left; reflexivity.
Qed.

Lemma StronglySorted_map_in {A B : Type} (P : A -> A -> Prop)
      (Q : B -> B -> Prop) (f : A -> B) (l : list A) :
  (forall a b, In a l -> In b l -> P a b -> Q (f a) (f b)) ->
  StronglySorted P l -> StronglySorted Q (map f l).
Proof.
  intros H Hs. induction Hs as [|a l Hl IH Ha]; simpl; constructor.
  - apply IH. intros x y Hx Hy. apply H; right; assumption.
  - rewrite Forall_forall in *. intros y Hy.
    apply in_map_iff in Hy as (b & <- & Hb).
    apply H; [left; reflexivity | right; exact Hb | apply Ha; exact Hb].
Qed.

Lemma StronglySorted_app_inv {A : Type} (R : A -> A -> Prop) (l1 l2 : list A) :
  StronglySorted R (l1 ++ l2) ->
  StronglySorted R l1 /\
  forall a b, In a l1 -> In b l2 -> R a b.
Proof.
  induction l1 as [|x l1 IH]; simpl; intros H.
  - split; [constructor|]. intros a b [].
  - inversion H as [|y l Hl Hx]; subst. destruct (IH Hl) as [Hs Hab].
    split.
    + constructor; [exact Hs|].
      rewrite Forall_forall in *. intros y Hy. apply Hx.
      apply in_or_app. left; exact Hy.
    + intros a b [<- | Ha] Hb.
      * rewrite Forall_forall in Hx. apply Hx. apply in_or_app. right; exact Hb.
      * apply Hab; assumption.
Qed.

Lemma NoDup_snoc {A : Type} (l : list A) (x : A) :
  NoDup l -> ~ In x l -> NoDup (l ++ [x]).
Proof.
  intros Hl Hx. apply (Permutation_NoDup (l := x :: l)).
  - apply Permutation_cons_append.
  - constructor; assumption.
Qed.

Section CounterFacts.
Variable K : Type.
Variable eqb : K -> K -> bool.
Hypothesis eqb_spec : forall x y, eqb x y = true <-> x = y.

Lemma eqb_refl (x : K) : eqb x x = true.
Proof. apply eqb_spec. reflexivity. Qed.

Lemma eqb_neq (x y : K) : x <> y -> eqb x y = false.
Proof.
  intros H. destruct (eqb x y) eqn:E; [|reflexivity].
  apply eqb_spec in E. contradiction.
Qed.

Lemma existsb_eqb (x : K) (l : list K) :
  existsb (eqb x) l = true <-> In x l.
Proof.
  rewrite existsb_exists. split.
  - intros (y & Hy & E). apply eqb_spec in E. subst. exact Hy.
  - intros H. exists x. split; [exact H | apply eqb_refl].
Qed.

Lemma keys_counter_add (x : K) (c : list (K * Z)) :
  map fst (counter_add eqb x c)
  = if existsb (eqb x) (map fst c) then map fst c else map fst c ++ [x].
Proof.
  induction c as [|[y n] c IH]; simpl; [reflexivity|].
  destruct (eqb x y); simpl; [reflexivity|].
  rewrite IH. destruct (existsb (eqb x) (map fst c)); reflexivity.
Qed.

Lemma In_counter_add (x k : K) (n : Z) (c : list (K * Z)) :
  NoDup (map fst c) ->
  In (k, n) (counter_add eqb x c) ->
  (k <> x /\ In (k, n) c) \/
  (k = x /\ (In (x, n - 1) c \/ (~ In x (map fst c) /\ n = 1))).
Proof.
  induction c as [|[y m] c IH]; simpl; intros Hnd Hin.
  - destruct Hin as [E|[]]. inversion E; subst. right. split; auto.
  - inversion Hnd as [|? ? Hy Hc]; subst.
    destruct (eqb x y) eqn:E.
    + apply eqb_spec in E. subst y. destruct Hin as [E'|Hin].
      * inversion E'; subst. right. split; auto. left. left.
        f_equal. lia.
      * left. split; [|right; exact Hin].
        intros ->. apply Hy. apply in_map_iff. exists (x, n). auto.
    + assert (Hxy : x <> y).
      { intros ->. rewrite eqb_refl in E. discriminate. }
      destruct Hin as [E'|Hin].
      * inversion E'; subst. left. split; auto.
      * destruct (IH Hc Hin) as [[Hk Hi] | [Hk [Hi | [Hi Hn]]]].
        -- left. auto.
        -- right. split; auto.
        -- right. split; auto. right. split; auto.
           intros [Hy'|Hx']; auto.
Qed.

Lemma Counter_snoc (l : list K) (x : K) :
  Counter eqb (l ++ [x]) = counter_add eqb x (Counter eqb l).
Proof. unfold Counter. rewrite fold_left_app. reflexivity. Qed.

Lemma Counter_keys_In (l : list K) (k : K) :
  In k (map fst (Counter eqb l)) <-> In k l.
Proof.
  induction l as [|x l IH] using rev_ind; [simpl; tauto|].
  rewrite Counter_snoc, keys_counter_add, in_app_iff.
  destruct (existsb (eqb x) (map fst (Counter eqb l))) eqn:E.
  - apply existsb_eqb in E. rewrite IH. simpl.
    split; [tauto|]. intros [H|[<-|[]]]; [exact H | apply IH; exact E].
  - rewrite in_app_iff, IH. tauto.
Qed.

Lemma Counter_keys_NoDup (l : list K) : NoDup (map fst (Counter eqb l)).
Proof.
  induction l as [|x l IH] using rev_ind; [constructor|].
  rewrite Counter_snoc, keys_counter_add.
  destruct (existsb (eqb x) (map fst (Counter eqb l))) eqn:E; [exact IH|].
  apply NoDup_snoc; [exact IH|].
  intros H. apply existsb_eqb in H. congruence.
Qed.

Lemma count_snoc (k x : K) (l : list K) :
  count eqb k (l ++ [x]) = count eqb k l + (if eqb x k then 1 else 0).
Proof.
  induction l as [|y l IH]; simpl; [lia|]. rewrite IH. lia.
Qed.

Lemma count_notin (k : K) (l : list K) : ~ In k l -> count eqb k l = 0.
Proof.
  induction l as [|y l IH]; simpl; intros H; [reflexivity|].
  rewrite eqb_neq by (intros ->; apply H; left; reflexivity).
  rewrite IH; [reflexivity|]. intros Hin. apply H. right; exact Hin.
Qed.

Lemma count_pos (k : K) (l : list K) : In k l -> 0 < count eqb k l.
Proof.
  assert (Hnn : forall l', 0 <= count eqb k l').
  { induction l' as [|y l' IH]; simpl; [lia|]. destruct (eqb y k); lia. }
  induction l as [|y l IH]; simpl; intros H; [contradiction|].
  destruct H as [-> | H].
  - rewrite eqb_refl. specialize (Hnn l). lia.
  - specialize (IH H). destruct (eqb y k); lia.
Qed.

(** Each row of the counter holds the number of occurrences of its key. *)
Lemma Counter_counts (l : list K) (k : K) (n : Z) :
  In (k, n) (Counter eqb l) -> n = count eqb k l.
Proof.
  revert k n. induction l as [|x l IH] using rev_ind; intros k n H.
  - destruct H.
  - rewrite Counter_snoc in H. rewrite count_snoc.
    apply In_counter_add in H; [|apply Counter_keys_NoDup].
    destruct H as [[Hk Hi] | [-> [Hi | [Hi ->]]]].
    + rewrite (IH _ _ Hi), eqb_neq by congruence. lia.
    + rewrite eqb_refl. apply IH in Hi. lia.
    + rewrite eqb_refl, count_notin; [reflexivity|].
      intros Hin. apply Hi. apply Counter_keys_In. exact Hin.
Qed.

Lemma first_index_snoc_in (k x : K) (l : list K) :
  In k l -> first_index eqb k (l ++ [x]) = first_index eqb k l.
Proof.
  induction l as [|y l IH]; simpl; intros H; [contradiction|].
  destruct (eqb y k) eqn:E; [reflexivity|].
  destruct H as [-> | H]; [rewrite eqb_refl in E; discriminate|].
  rewrite IH; auto.
Qed.

Lemma first_index_lt (k : K) (l : list K) :
  In k l -> (first_index eqb k l < length l)%nat.
Proof.
  induction l as [|y l IH]; simpl; intros H; [contradiction|].
  destruct (eqb y k) eqn:E; [lia|].
  destruct H as [-> | H]; [rewrite eqb_refl in E; discriminate|].
  specialize (IH H). lia.
Qed.

Lemma first_index_snoc_new (x : K) (l : list K) :
  ~ In x l -> first_index eqb x (l ++ [x]) = length l.
Proof.
  induction l as [|y l IH]; simpl; intros H.
  - rewrite eqb_refl. reflexivity.
  - rewrite eqb_neq by (intros ->; apply H; left; reflexivity).
    rewrite IH; [reflexivity|]. intros Hin. apply H. right; exact Hin.
Qed.

(** The keys of the counter stand in order of first appearance. *)
Lemma Counter_keys_order (l : list K) :
  StronglySorted (fun a b => (first_index eqb a l < first_index eqb b l)%nat)
                 (map fst (Counter eqb l)).
Proof.
  induction l as [|x l IH] using rev_ind; [constructor|].
  rewrite Counter_snoc, keys_counter_add.
  assert (Hold : StronglySorted
                   (fun a b => (first_index eqb a (l ++ [x])
                                < first_index eqb b (l ++ [x]))%nat)
                   (map fst (Counter eqb l))).
  { rewrite <- (map_id (map fst (Counter eqb l))).
    eapply StronglySorted_map_in; [|exact IH].
    intros a b Ha Hb Hab.
    apply (proj1 (Counter_keys_In _ _)) in Ha.
    apply (proj1 (Counter_keys_In _ _)) in Hb.
    cbv beta. rewrite !first_index_snoc_in by assumption. exact Hab. }
  destruct (existsb (eqb x) (map fst (Counter eqb l))) eqn:E; [exact Hold|].
  apply StronglySorted_snoc; [exact Hold|].
  intros a Ha. apply (proj1 (Counter_keys_In _ _)) in Ha.
  assert (Hx : ~ In x l).
  { intros Hin. apply (proj2 (Counter_keys_In _ _)) in Hin.
    apply (proj2 (existsb_eqb _ _)) in Hin.
    congruence. }
  rewrite first_index_snoc_in, first_index_snoc_new by assumption.
  apply first_index_lt. exact Ha.
Qed.

End CounterFacts.

Section SortFacts.
Variable K : Type.
Variable R : K -> K -> Prop.

Lemma insert_desc_perm (x : K * Z) (l : list (K * Z)) :
  Permutation (insert_desc x l) (x :: l).
Proof.
  induction l as [|y l IH]; simpl; [reflexivity|].
  destruct (snd x <? snd y); [|reflexivity].
  rewrite IH. apply perm_swap.
Qed.

Lemma sorted_desc_perm (l : list (K * Z)) : Permutation (sorted_desc l) l.
Proof.
  induction l as [|x l IH]; simpl; [reflexivity|].
  rewrite insert_desc_perm. constructor. exact IH.
Qed.

Lemma sorted_head_max (y : K * Z) (l : list (K * Z)) :
  StronglySorted (item_before R) (y :: l) ->
  forall z, In z l -> snd z <= snd y.
Proof.
  intros H z Hz. inversion H as [|? ? _ Hy]; subst.
  rewrite Forall_forall in Hy. destruct (Hy z Hz) as [Hlt | [Heq _]]; lia.
Qed.

(** Inserting an item that the tie-break puts before every item of a
    sorted list keeps the list sorted. *)
Lemma insert_desc_sorted (x : K * Z) (l : list (K * Z)) :
  StronglySorted (item_before R) l ->
  (forall y, In y l -> R (fst x) (fst y)) ->
  StronglySorted (item_before R) (insert_desc x l).
Proof.
  induction l as [|y l IH]; simpl; intros Hs Hx.
  - constructor; constructor.
  - destruct (snd x <? snd y) eqn:E.
    + apply Z.ltb_lt in E. inversion Hs as [|? ? Hl Hy]; subst.
      constructor.
      * apply IH; [exact Hl|]. intros z Hz. apply Hx. right; exact Hz.
      * rewrite Forall_forall in *. intros z Hz.
        apply (Permutation_in _ (insert_desc_perm x l)) in Hz.
        destruct Hz as [<- | Hz]; [left; exact E | apply Hy; exact Hz].
    + apply Z.ltb_ge in E. constructor; [exact Hs|].
      rewrite Forall_forall. intros z Hz.
      assert (Hzy : snd z <= snd y).
      { destruct Hz as [<- | Hz]; [lia|].
        eapply sorted_head_max; eauto. }
      destruct (Z.eq_dec (snd x) (snd z)) as [Heq | Hne].
      * right. split; [exact Heq|]. apply Hx. exact Hz.
      * left. lia.
Qed.

(** Stability: a list whose items stand in tie-break order is sorted
    into decreasing count with ties in that same order. *)
Lemma sorted_desc_sorted (l : list (K * Z)) :
  StronglySorted (fun a b => R (fst a) (fst b)) l ->
  StronglySorted (item_before R) (sorted_desc l).
Proof.
  induction 1 as [|x l Hl IH Hx]; simpl; [constructor|].
  apply insert_desc_sorted; [exact IH|].
  intros y Hy. apply (Permutation_in _ (sorted_desc_perm l)) in Hy.
  rewrite Forall_forall in Hx. apply Hx. exact Hy.
Qed.

End SortFacts.

Section TopTable.
Variable K : Type.
Variable eqb : K -> K -> bool.
Hypothesis eqb_spec : forall x y, eqb x y = true <-> x = y.

Lemma Counter_items_order (l : list K) :
  StronglySorted
    (fun a b : K * Z =>
       (first_index eqb (fst a) l < first_index eqb (fst b) l)%nat)
    (Counter eqb l).
Proof.
  pose proof (@Counter_keys_order K eqb eqb_spec l) as H.
  remember (Counter eqb l) as c eqn:Ec. clear Ec.
  induction c as [|x c IH]; [constructor|].
  simpl in H. inversion H as [|? ? Hc Hx]; subst.
  constructor; [apply IH; exact Hc|].
  rewrite Forall_forall in *. intros y Hy. apply Hx.
  apply in_map. exact Hy.
Qed.

Lemma sorted_Counter (l : list K) :
  StronglySorted
    (item_before (fun a b => (first_index eqb a l < first_index eqb b l)%nat))
    (sorted_desc (Counter eqb l)).
Proof. apply sorted_desc_sorted. apply Counter_items_order. Qed.

Lemma sorted_Counter_In (l : list K) (k : K) (c : Z) :
  In (k, c) (sorted_desc (Counter eqb l)) -> In k l /\ c = count eqb k l.
Proof.
  intros H. apply (Permutation_in _ (sorted_desc_perm (Counter eqb l))) in H.
  split.
  - apply (@Counter_keys_In K eqb eqb_spec). apply in_map_iff. exists (k, c). auto.
  - apply (@Counter_counts K eqb eqb_spec). exact H.
Qed.

Lemma item_before_ranks (l : list K) (a b : K * Z) :
  In a (sorted_desc (Counter eqb l)) ->
  In b (sorted_desc (Counter eqb l)) ->
  item_before (fun a b => (first_index eqb a l < first_index eqb b l)%nat) a b ->
  ranks_before eqb l (fst a) (fst b).
Proof.
  destruct a as [ka ca], b as [kb cb]. intros Ha Hb H.
  apply sorted_Counter_In in Ha as [_ ->].
  apply sorted_Counter_In in Hb as [_ ->].
  exact H.
Qed.

(** [most_common(n)] of a counter is the table of the [n] best-ranked
    values. *)
Lemma most_common_is_top (n : nat) (l : list K) :
  is_top eqb n l (most_common (Some n) (Counter eqb l)).
Proof.
  unfold most_common.
  set (s := sorted_desc (Counter eqb l)).
  assert (Hs : StronglySorted
                 (item_before
                    (fun a b => (first_index eqb a l
                                 < first_index eqb b l)%nat))
                 (firstn n s ++ skipn n s)).
  { rewrite firstn_skipn. apply sorted_Counter. }
  apply StronglySorted_app_inv in Hs as [Hfirst Hcut].
  assert (Hsub : forall a, In a (firstn n s) -> In a s).
  { intros a Ha. rewrite <- (firstn_skipn n s). apply in_or_app. auto. }
  assert (Hnd : NoDup (map fst s)).
  { apply (Permutation_NoDup (l := map fst (Counter eqb l))).
    - apply Permutation_map. symmetry. apply sorted_desc_perm.
    - apply (@Counter_keys_NoDup K eqb eqb_spec). }
  repeat split.
  - apply firstn_le_length.
  - rewrite <- (firstn_skipn n s), map_app in Hnd.
    apply NoDup_app_remove_r in Hnd. exact Hnd.
  - apply Hsub in H. apply sorted_Counter_In in H as [H _]. exact H.
  - apply Hsub in H. apply sorted_Counter_In in H as [_ H]. exact H.
  - eapply StronglySorted_map_in; [|exact Hfirst].
    intros a b Ha Hb. apply item_before_ranks; apply Hsub; assumption.
  - assert (Hin : In k (map fst (skipn n s))).
    { assert (Hk : In k (map fst s)).
      { apply (Permutation_in (l := map fst (Counter eqb l))).
        - apply Permutation_map. symmetry. apply sorted_desc_perm.
        - apply (@Counter_keys_In K eqb eqb_spec). exact H. }
      rewrite <- (firstn_skipn n s), map_app in Hk.
      apply in_app_or in Hk as [Hk | Hk]; [contradiction | exact Hk]. }
    rewrite length_firstn.
    destruct (skipn n s) eqn:E; [destruct Hin|].
    assert (Hlen : (n < length s)%nat).
    { destruct (Nat.lt_ge_cases n (length s)) as [Hl | Hl]; [exact Hl|].
      rewrite skipn_all2 in E by exact Hl. discriminate. }
    lia.
  - intros k' Hk'.
    apply in_map_iff in Hk' as (a & <- & Ha).
    assert (Hin : In k (map fst (skipn n s))).
    { assert (Hk : In k (map fst s)).
      { apply (Permutation_in (l := map fst (Counter eqb l))).
        - apply Permutation_map. symmetry. apply sorted_desc_perm.
        - apply (@Counter_keys_In K eqb eqb_spec). exact H. }
      rewrite <- (firstn_skipn n s), map_app in Hk.
      apply in_app_or in Hk as [Hk | Hk]; [contradiction | exact Hk]. }
    apply in_map_iff in Hin as (b & <- & Hb).
    apply item_before_ranks.
    + apply Hsub. exact Ha.
    + fold s. rewrite <- (firstn_skipn n s). apply in_or_app.
      right; exact Hb.
    + apply Hcut; assumption.
Qed.

End TopTable.

Lemma value_eqb_spec (a b : value) : value_eqb a b = true <-> a = b.
Proof.
  unfold value_eqb. destruct (value_eq_dec a b); split; congruence.
Qed.

(** The two top-ten tables as [analyze_entries] stores them. *)
Lemma analyze_entries_top (entries : list entry) (r : analysis)
      (k col : string) :
  analyze_entries entries = Ok r ->
  (k = "top_ips" /\ col = "ip" \/ k = "top_paths" /\ col = "path")%string ->
  dict_get k r
  = match filter is_parsed entries with
    | [] => None
    | ps => Some (ATable (table (Some 10%nat) (column col ps)))
    end.
Proof.
  intros H Hk. unfold analyze_entries in H.
  destruct entries as [|e0 es].
  { injection H as <-. reflexivity. }
  fold (head_fields (e0 :: es)) in H.
  assert (Hhd : dict_get k (head_fields (e0 :: es)) = None).
  { destruct Hk as [[-> _] | [-> _]]; reflexivity. }
  remember (head_fields (e0 :: es)) as hd eqn:Ehd. clear Ehd.
  destruct (filter is_parsed (e0 :: es)) as [|p ps] eqn:Ef.
  { injection H as <-. exact Hhd. }
  apply bind_ok in H as (sizes & _ & H).
  apply bind_ok in H as (timestamps & _ & H).
  assert (Hgoal : forall top : analysis -> analysis,
             (r = top (dict_set "top_paths"
                         (ATable (table (Some 10%nat)
                                        (column "path" (p :: ps))))
                         (dict_set "http_methods"
                            (ATable (table None (column "method" (p :: ps))))
                            (dict_set "status_codes"
                               (ATable (table None
                                  (truthy_column "status" (p :: ps))))
                               (dict_set "unique_ips"
                                  (AInt (len (Counter value_eqb
                                                (column "ip" (p :: ps)))))
                                  (dict_set "top_ips"
                                     (ATable (table (Some 10%nat)
                                                (column "ip" (p :: ps))))
                                     hd)))))) ->
             (forall d, dict_get k (top d) = dict_get k d) ->
             dict_get k r
             = Some (ATable (table (Some 10%nat) (column col (p :: ps))))).
  { intros top -> Htop. rewrite Htop.
    destruct Hk as [[-> ->] | [-> ->]].
    - repeat (rewrite dict_get_set_other by discriminate).
      apply dict_get_set_same.
    - apply dict_get_set_same. }
  assert (Hk' : (k <> "response_sizes" /\ k <> "time_range"
                 /\ k <> "traffic_by_hour")%string).
  { destruct Hk as [[-> _] | [-> _]]; repeat split; discriminate. }
  destruct Hk' as (K1 & K2 & K3).
  destruct timestamps as [|t ts].
  - injection H as <-. destruct sizes.
    + apply (Hgoal (fun d => d)); auto.
    + eapply (Hgoal (fun d => dict_set "response_sizes" _ d));
        [reflexivity|].
      intros d. apply dict_get_set_other. exact K1.
  - apply bind_ok in H as (start & _ & H).
    apply bind_ok in H as (stop & _ & H).
    apply bind_ok in H as (stop' & _ & H).
    apply bind_ok in H as (start' & _ & H).
    apply bind_ok in H as (duration & _ & H).
    injection H as <-. destruct sizes.
    + eapply (Hgoal (fun d => dict_set "traffic_by_hour" _
                                (dict_set "time_range" _ d)));
        [reflexivity|].
      intros d. rewrite !dict_get_set_other by assumption. reflexivity.
    + eapply (Hgoal (fun d => dict_set "traffic_by_hour" _
                                (dict_set "time_range" _
                                   (dict_set "response_sizes" _ d))));
        [reflexivity|].
      intros d. rewrite !dict_get_set_other by assumption. reflexivity.
Qed.

(** With twelve distinct addresses the table keeps ten: the most
    frequent one first, then the first nine seen. *)
Example top_ips_of_twelve :
  exists r, analyze_entries twelve_batch = Ok r /\
    dict_get "top_ips" r
    = Some (ATable (map (fun s => (VStr (lit s), if String.eqb s "12" then 2 else 1))
                        ["12"; "1"; "2"; "3"; "4"; "5"; "6"; "7"; "8";
                         "9"]%string)).
Proof. eexists. split; vm_compute; reflexivity. Qed.

(** ** Which functions always return *)

Lemma parse_log_line_returns (line : str) (log_format : string) :
  returns (parse_log_line line log_format).
Proof.
  destruct (parse_log_line_spec line log_format) as (e & He & _).
  exists e. exact He.
Qed.

Lemma entry_of_detect_typed (name : string) (line : str) (g : list str)
      (e : entry) :
  entry_of name line g e -> detect_typed e = true.
Proof.
  destruct 1; unfold web_entry, request_fields, referer_fields;
    try destruct (split g2) as [|m [|p r]]; reflexivity.
Qed.

Lemma detect_typed_line_number (n : Z) (e : entry) :
  detect_typed (dict_set "line_number" (VInt n) e) = detect_typed e.
Proof.
  unfold detect_typed, field_ok.
  rewrite !dict_get_set_other by discriminate. reflexivity.
Qed.

Lemma parse_log_line_typed (line : str) (log_format : string) (e : entry) :
  parse_log_line line log_format = Ok e -> detect_typed e = true.
Proof.
  intros H.
  destruct (parse_log_line_spec line log_format) as (e' & He & Hcase).
  rewrite H in He. injection He as <-.
  destruct Hcase as [-> | (name & pat & g & rest & _ & _ & _ & Hof)].
  - reflexivity.
  - eapply entry_of_detect_typed; eauto.
Qed.

(** The lines of a file always parse into a batch of typed entries. *)
Lemma parse_lines_typed (lines : list str) (log_format : string) :
  forall n, exists es,
    parse_lines n lines log_format = Ok es /\
    Forall (fun e => detect_typed e = true) es.
Proof.
  induction lines as [|raw lines IH]; intros n; simpl.
  - exists []. split; [reflexivity | constructor].
  - destruct (strip raw) as [|c s] eqn:Es; [apply IH|].
    destruct (Ascii.eqb c "#"); [apply IH|].
    destruct (parse_log_line_returns (c :: s) log_format) as [e He].
    destruct (IH (n + 1)) as (es & Hes & Hty).
    rewrite He, Hes. cbn [bind]. eexists. split; [reflexivity|].
    constructor; [|exact Hty].
    rewrite detect_typed_line_number.
    eapply parse_log_line_typed; eauto.
Qed.

(** On the entries of a parsed file [detect_anomalies] returns. *)
Lemma detect_anomalies_returns (lines : list str) (log_format : string)
      (n : Z) (es : list entry) :
  parse_lines n lines log_format = Ok es -> returns (detect_anomalies es).
Proof.
  intros H. destruct (parse_lines_typed lines log_format n) as (es' & He & Hty).
  rewrite H in He. injection He as <-.
  eexists. apply detect_anomalies_typed. exact Hty.
Qed.

(** C9, failing input: the two sample lines of scenarios 1 and 2 parse
    into two parsed entries, one with an aware and one with a naive
    timestamp; [detect_anomalies] returns on them, [analyze_entries]
    raises [TypeError] when it takes the minimum of the timestamps. *)
Theorem C9_analyze_raises_on_mixed_timestamps :
  exists es,
    parse_lines 1 [scenario1; scenario2] "auto" = Ok es /\
    Forall (fun e => is_parsed e = true) es /\
    map (dict_get "timestamp") es
    = [Some (VTime (mkdt 2024 10 10 13 55 36 0 (Some (-25200000000))));
       Some (VTime (mkdt 2024 10 10 13 55 36 0 None))] /\
    returns (detect_anomalies es) /\
    analyze_entries es = Raise TypeError.
Proof.
  eexists. split; [vm_compute; reflexivity|].
  split; [repeat constructor|].
  split; [vm_compute; reflexivity|].
  split; [eexists; vm_compute; reflexivity|].
  vm_compute. reflexivity.
Qed.

(** ** [analyze_entries] returns exactly on unmixed timestamps *)

Section Extremum.
Variable better : datetime -> datetime -> result bool.
Hypothesis better_same :
  forall a b, aware a = aware b -> exists r, better a b = Ok r.
Hypothesis better_mixed :
  forall a b, aware a <> aware b -> better a b = Raise TypeError.

Lemma extremum_same (l : list datetime) :
  forall cur, Forall (fun t => aware t = aware cur) l ->
              exists r, extremum better cur l = Ok r /\ aware r = aware cur.
Proof.
  induction l as [|x l IH]; intros cur H; simpl.
  - exists cur. auto.
  - inversion H as [|? ? Hx Hl]; subst.
    destruct (better_same _ _ Hx) as [b ->]. cbn [bind].
    destruct (IH (if b then x else cur)) as (r & Hr & Ha).
    { destruct b; [|exact Hl].
      eapply Forall_impl; [|exact Hl]. intros t Ht. congruence. }
    exists r. split; [exact Hr|]. destruct b; congruence.
Qed.

Lemma extremum_mixed (l : list datetime) :
  forall cur, ~ Forall (fun t => aware t = aware cur) l ->
              extremum better cur l = Raise TypeError.
Proof.
  induction l as [|x l IH]; intros cur H; simpl.
  - exfalso. apply H. constructor.
  - destruct (Bool.bool_dec (aware x) (aware cur)) as [Hx | Hx].
    + destruct (better_same _ _ Hx) as [b ->]. cbn [bind].
      apply IH. intros Hl. apply H. constructor; [exact Hx|].
      destruct b; [|exact Hl].
      eapply Forall_impl; [|exact Hl]. intros t Ht. congruence.
    + rewrite (better_mixed _ _ Hx). reflexivity.
Qed.
End Extremum.

Lemma lt_same (a b : datetime) :
  aware a = aware b -> exists r, Calendar.lt a b = Ok r.
Proof.
  unfold aware, Calendar.lt.
  destruct (tzinfo a), (tzinfo b); intros H; try discriminate; eauto.
Qed.

Lemma lt_mixed (a b : datetime) :
  aware a <> aware b -> Calendar.lt a b = Raise TypeError.
Proof.
  unfold aware, Calendar.lt.
  destruct (tzinfo a), (tzinfo b); intros H; congruence.
Qed.

Lemma gt_same (a b : datetime) :
  aware a = aware b -> exists r, Calendar.lt b a = Ok r.
Proof. intros H. apply lt_same. congruence. Qed.

Lemma gt_mixed (a b : datetime) :
  aware a <> aware b -> Calendar.lt b a = Raise TypeError.
Proof. intros H. apply lt_mixed. congruence. Qed.

Lemma sub_same (a b : datetime) :
  aware a = aware b -> exists d, Calendar.sub a b = Ok d.
Proof.
  unfold aware, Calendar.sub.
  destruct (tzinfo a), (tzinfo b); intros H; try discriminate; eauto.
Qed.

Lemma column_typed (ok : value -> bool) (k : string) (es : list entry) :
  Forall (fun e => field_ok ok k e = true) es ->
  Forall (fun v => ok v = true) (column k es).
Proof.
  induction 1 as [|e es He Hes IH]; simpl; [constructor|].
  unfold field_ok in He. destruct (dict_get k e); simpl; auto.
Qed.

Lemma Forall_filter {A : Type} (P : A -> Prop) (f : A -> bool) (l : list A) :
  Forall P l -> Forall P (filter f l).
Proof.
  induction 1 as [|x l Hx Hl IH]; simpl; [constructor|].
  destruct (f x); auto.
Qed.

Lemma mapM_as_int (l : list value) :
  Forall (fun v => int_like v = true) l -> exists ns, mapM as_int l = Ok ns.
Proof.
  induction 1 as [|v l Hv Hl [ns IH]]; simpl; [eauto|].
  rewrite IH. destruct v; try discriminate; simpl; eauto.
Qed.

Lemma mapM_as_time (l : list value) :
  Forall (fun v => time_like v = true) l ->
  exists ts, mapM as_time (filter truthy l) = Ok ts /\
             filter truthy l = map VTime ts.
Proof.
  induction 1 as [|v l Hv Hl (ts & IH & Hm)]; simpl.
  - exists []. auto.
  - destruct v; try discriminate; simpl.
    + exists ts. auto.
    + rewrite IH. simpl. exists (t :: ts). rewrite Hm. auto.
Qed.

Lemma uniform_cons (t : datetime) (ts : list datetime) :
  uniform (map VTime (t :: ts)) <->
  Forall (fun x => aware x = aware t) ts.
Proof.
  split.
  - intros [b Hb]. rewrite Forall_forall. intros x Hx.
    rewrite (Hb x), (Hb t); [reflexivity | left; reflexivity |].
    right. apply in_map. exact Hx.
  - intros H. exists (aware t). intros x [E | Hx].
    + inversion E. reflexivity.
    + rewrite Forall_forall in H. apply H.
      apply in_map_iff in Hx as (y & E & Hy). inversion E; subst. exact Hy.
Qed.

(** On typed entries [analyze_entries] returns when the timestamps of
    the parsed entries are all aware or all naive, and raises
    [TypeError] when they are mixed. *)
Lemma analyze_entries_returns_iff (entries : list entry) :
  Forall (fun e => analyze_typed e = true) entries ->
  (uniform (timestamps_of entries) -> returns (analyze_entries entries)) /\
  (~ uniform (timestamps_of entries) ->
   analyze_entries entries = Raise TypeError).
Proof.
  intros Hty. unfold timestamps_of, truthy_column, analyze_entries.
  destruct entries as [|e0 es].
  { split; [intros _; eexists; reflexivity|].
    intros H. exfalso. apply H. exists true. intros t []. }
  assert (Hp : Forall (fun e => analyze_typed e = true)
                      (filter is_parsed (e0 :: es)))
    by (apply Forall_filter; exact Hty).
  destruct (filter is_parsed (e0 :: es)) as [|p ps].
  { split; [intros _; eexists; reflexivity|].
    intros H. exfalso. apply H. exists true. intros t []. }
  destruct (@mapM_as_int (filter truthy (column "size" (p :: ps))))
    as [sizes Hs].
  { apply Forall_filter. apply column_typed.
    eapply Forall_impl; [|exact Hp]. intros e He.
    unfold analyze_typed in He. apply andb_true_iff in He. tauto. }
  destruct (@mapM_as_time (column "timestamp" (p :: ps)))
    as (ts & Hts & Hm).
  { apply column_typed.
    eapply Forall_impl; [|exact Hp]. intros e He.
    unfold analyze_typed in He. apply andb_true_iff in He. tauto. }
  unfold truthy_column. rewrite Hs, Hts, Hm. cbn [bind].
  destruct ts as [|t ts].
  { split; [intros _; eexists; reflexivity|].
    intros H. exfalso. apply H. exists true. intros t []. }
  rewrite uniform_cons. unfold min_time, max_time. split.
  - intros Hu.
    destruct (@extremum_same Calendar.lt lt_same ts t Hu) as (lo & -> & Hlo).
    destruct (@extremum_same (fun a b => Calendar.lt b a) gt_same ts t Hu)
      as (hi & -> & Hhi).
    cbn [bind].
    destruct (@sub_same hi lo) as [d ->]; [congruence|].
    cbn [bind]. eexists. reflexivity.
  - intros Hu.
    rewrite (@extremum_mixed Calendar.lt lt_same lt_mixed ts t Hu).
    reflexivity.
Qed.

Lemma entry_of_analyze_typed (name : string) (line : str) (g : list str)
      (e : entry) :
  entry_of name line g e -> analyze_typed e = true.
Proof.
  destruct 1; unfold web_entry, request_fields, referer_fields;
    try destruct (split g2) as [|m [|p r]]; destruct ts; reflexivity.
Qed.

Lemma analyze_typed_line_number (n : Z) (e : entry) :
  analyze_typed (dict_set "line_number" (VInt n) e) = analyze_typed e.
Proof.
  unfold analyze_typed, field_ok.
  rewrite !dict_get_set_other by discriminate. reflexivity.
Qed.

Lemma parse_log_line_analyze_typed (line : str) (log_format : string)
      (e : entry) :
  parse_log_line line log_format = Ok e -> analyze_typed e = true.
Proof.
  intros H.
  destruct (parse_log_line_spec line log_format) as (e' & He & Hcase).
  rewrite H in He. injection He as <-.
  destruct Hcase as [-> | (name & pat & g & rest & _ & _ & _ & Hof)].
  - reflexivity.
  - eapply entry_of_analyze_typed; eauto.
Qed.

Lemma parse_lines_analyze_typed (lines : list str) (log_format : string) :
  forall n es, parse_lines n lines log_format = Ok es ->
               Forall (fun e => analyze_typed e = true) es.
Proof.
  induction lines as [|raw lines IH]; intros n es; simpl.
  - intros H. injection H as <-. constructor.
  - destruct (strip raw) as [|c s] eqn:Es; [apply IH|].
    destruct (Ascii.eqb c "#"); [apply IH|].
    intros H. apply bind_ok in H as (e & He & H).
    apply bind_ok in H as (es' & Hes & H). injection H as <-.
    constructor; [|eapply IH; eauto].
    rewrite analyze_typed_line_number.
    eapply parse_log_line_analyze_typed; eauto.
Qed.

(** On the entries of a parsed file [analyze_entries] returns exactly
    when the timestamps are not a mix of aware and naive instants. *)
Lemma analyze_parsed_file (lines : list str) (log_format : string)
      (n : Z) (es : list entry) :
  parse_lines n lines log_format = Ok es ->
  (uniform (timestamps_of es) -> returns (analyze_entries es)) /\
  (~ uniform (timestamps_of es) -> analyze_entries es = Raise TypeError).
Proof.
  intros H. apply analyze_entries_returns_iff.
  eapply parse_lines_analyze_typed; eauto.
Qed.

(** * Further properties of the module *)

(** ** [parse_log_line]: selectors *)

(** X1: A selector that is neither [auto] nor a key of the pattern table
    leaves every line unparsed. *)
Theorem unknown_selector_unparsed (line : str) (log_format : string)
        (Hsel : ~ In log_format
                  ["auto"; "apache"; "nginx"; "common"; "combined";
                   "custom"]%string) :
  parse_log_line line log_format = Ok (unparsed line).
Proof.
  assert (Hne : forall k, In k ["auto"; "apache"; "nginx"; "common";
                                "combined"; "custom"]%string ->
                          String.eqb log_format k = false).
  { intros k Hk. apply String.eqb_neq. intros ->. contradiction. }
  unfold parse_log_line, log_patterns. cbn [dict_get].
  rewrite !Hne by (simpl; auto 10). reflexivity.
Qed.

Lemma unknown_selector_witness :
  ~ In "syslog"%string
      ["auto"; "apache"; "nginx"; "common"; "combined"; "custom"]%string /\
  parse_log_line scenario1 "syslog" = Ok (unparsed scenario1).
Proof.
  assert (H : ~ In "syslog"%string
                ["auto"; "apache"; "nginx"; "common"; "combined";
                 "custom"]%string).
  { simpl. intros [E|[E|[E|[E|[E|[E|[]]]]]]]; discriminate E. }
  split; [exact H|]. exact (@unknown_selector_unparsed scenario1 "syslog" H).
Defined.

Lemma registry_lookup (name : string) (pat : Re.regex) :
  In (name, pat) log_patterns ->
  dict_get name log_patterns = Some pat /\ String.eqb name "auto" = false.
Proof.
  unfold log_patterns. simpl.
  intros [E|[E|[E|[E|[E|[]]]]]]; inversion E; subst; split; reflexivity.
Qed.

(** X2: A forced format tries its own pattern only: on a line within the
    conversion limit an entry is returned, it is parsed exactly when
    that pattern matches at the start of the line, it is then tagged
    with the selector, and otherwise it is the unparsed entry. *)
Theorem forced_format_own_pattern (line : str) (name : string)
        (pat : Re.regex) (Hin : In (name, pat) log_patterns)
        (Hlen : within_limit line = true) :
  exists e, parse_log_line line name = Ok e /\
    (is_parsed e = true <-> matches_prefix pat line) /\
    (is_parsed e = true -> format_of e = Some (VStr (lit name))) /\
    (is_parsed e = false -> e = unparsed line).
Proof.
  clear Hlen.
  destruct (registry_lookup Hin) as [Hget Hauto].
  unfold parse_log_line. rewrite Hauto, Hget.
  destruct (Re.rmatch pat line) as [[g rest]|] eqn:Em.
  - destruct (@extract_fields_registry name pat line g rest Hin Em)
      as (e & He & Hof).
    destruct (entry_of_parsed Hof) as [Hp Hf].
    exists e. split; [exact He|]. repeat split; auto.
    + intros _. eapply rmatch_some_prefix; eauto.
    + congruence.
  - exists (unparsed line). split; [reflexivity|]. repeat split.
    + discriminate.
    + intros H. exfalso. eapply rmatch_none_prefix; eauto.
    + discriminate.
Qed.

Lemma forced_format_witness :
  In ("custom"%string, Patterns.custom) log_patterns /\
  within_limit scenario2 = true /\
  exists e, parse_log_line scenario2 "custom" = Ok e /\
            (is_parsed e = true <-> matches_prefix Patterns.custom scenario2).
Proof.
  assert (H : In ("custom"%string, Patterns.custom) log_patterns).
  { unfold log_patterns. simpl. auto 10. }
  assert (Hlen : within_limit scenario2 = true) by (vm_compute; reflexivity).
  split; [exact H|]. split; [exact Hlen|].
  destruct (@forced_format_own_pattern scenario2 "custom" Patterns.custom H
              Hlen)
    as (e & He & Hiff & _).
  exists e. split; [exact He | exact Hiff].
Defined.

(** X3: Whatever a forced format parses on a line within the conversion
    limit, auto-detection parses too. *)
Theorem auto_parses_what_forced_parses (line : str) (log_format : string)
        (e : entry) (Hlen : within_limit line = true)
        (He : parse_log_line line log_format = Ok e)
        (Hp : is_parsed e = true) :
  exists e', parse_log_line line "auto" = Ok e' /\ is_parsed e' = true.
Proof.
  clear Hlen.
  destruct (parse_log_line_spec line log_format) as (e0 & He0 & Hcase).
  rewrite He in He0. injection He0 as <-.
  destruct Hcase as [-> | (name & pat & g & rest & Hin & _ & Hm & _)];
    [discriminate|].
  unfold parse_log_line. simpl String.eqb. cbv iota.
  destruct (@auto_detect_spec log_patterns line) as (e' & He' & Hc); auto.
  exists e'. split; [exact He'|].
  destruct Hc as [[_ Hno] | (n & p & g' & r' & _ & _ & Hof)].
  - exfalso. apply (Hno name pat Hin). eapply rmatch_some_prefix; eauto.
  - apply (entry_of_parsed Hof).
Qed.

Lemma auto_parses_what_forced_parses_witness :
  within_limit scenario1 = true /\
  parse_log_line scenario1 "common" = Ok scenario1_common /\
  is_parsed scenario1_common = true /\
  exists e', parse_log_line scenario1 "auto" = Ok e' /\
             is_parsed e' = true.
Proof.
  assert (Hlen : within_limit scenario1 = true) by (vm_compute; reflexivity).
  assert (He : parse_log_line scenario1 "common" = Ok scenario1_common)
    by (vm_compute; reflexivity).
  assert (Hp : is_parsed scenario1_common = true) by reflexivity.
  split; [exact Hlen|]. split; [exact He|]. split; [exact Hp|].
  exact (@auto_parses_what_forced_parses scenario1 "common" _ Hlen He Hp).
Defined.



(** ** [extract_fields]: what the fields of a web entry hold *)

Lemma digit_val_nonneg (c : ascii) : is_digit c = true -> 0 <= digit_val c.
Proof.
  unfold is_digit, between, digit_val. intros H.
  apply andb_true_iff in H as [H _]. apply N.leb_le in H. lia.
Qed.

Lemma int_of_digits_nonneg (s : str) :
  forallb is_digit s = true -> 0 <= int_of_digits s.
Proof.
  unfold int_of_digits.
  assert (H : forall acc, 0 <= acc -> forallb is_digit s = true ->
                          0 <= fold_left (fun a c => a * 10 + digit_val c) s acc).
  { induction s as [|c s IH]; simpl; intros acc Hacc Hs; [exact Hacc|].
    apply andb_true_iff in Hs as [Hc Hs]. apply IH; [|exact Hs].
    pose proof (digit_val_nonneg _ Hc). lia. }
  apply H. lia.
Qed.

Lemma token_rev (cur : str) :
  cur <> [] -> forallb non_space cur = true -> token (rev cur).
Proof.
  intros Hne Hall. split.
  - intros H. apply Hne. rewrite <- (rev_involutive cur), H. reflexivity.
  - apply forallb_rev. exact Hall.
Qed.

Lemma split_go_tokens (s : str) :
  forall cur, forallb non_space cur = true ->
              Forall token (split_go cur s).
Proof.
  induction s as [|c s IH]; simpl; intros cur Hcur.
  - destruct cur as [|x cur]; constructor; [|constructor].
    apply token_rev; [discriminate | exact Hcur].
  - destruct (is_space c) eqn:Ec.
    + destruct cur as [|x cur]; [apply IH; reflexivity|].
      constructor; [|apply IH; reflexivity].
      apply token_rev; [discriminate | exact Hcur].
    + apply IH. simpl. unfold non_space at 1. rewrite Ec. exact Hcur.
Qed.

(** [str.split()] yields tokens only. *)
Lemma split_tokens (s : str) : Forall token (split s).
Proof. apply split_go_tokens. reflexivity. Qed.

Lemma registry_groups_shape (name : string) (pat : Re.regex)
      (w : str) (g : list str) :
  In (name, pat) log_patterns -> name <> "custom"%string ->
  Re.sem pat w g ->
  exists g0 g1 g2 g3 g4 tl,
    g = g0 :: g1 :: g2 :: g3 :: g4 :: tl /\
    token g0 /\ forallb dot g2 = true /\ digits g3 /\ digits g4.
Proof.
  intros Hin Hn Hs. unfold log_patterns in Hin. simpl in Hin.
  assert (Htok : forall c s, non_space c = true ->
                             forallb non_space s = true -> token (c :: s)).
  { intros c s Hc Hall. split; [discriminate|]. simpl.
    rewrite Hc, Hall. reflexivity. }
  destruct Hin as [E|[E|[E|[E|[E|[]]]]]]; inversion E; subst; clear E;
    try congruence;
    unfold Patterns.combined, Patterns.apache, Patterns.nginx,
      Patterns.common, Re.cat, Re.plus, Re.lazy, Re.chr in Hs;
    simpl in Hs; PatternFacts.inv_sem; simpl;
    do 6 eexists; (split; [reflexivity|]);
    repeat split; auto using PatternFacts.digits_plus;
    try discriminate; simpl;
    repeat match goal with
      | H : ?x = true |- context [?x] => rewrite H
      end; reflexivity.
Qed.

(** X5: Every entry that has an [ip] field holds there a non-empty text
    without white space, and holds non-negative integers as [status] and
    [size]. *)
Theorem web_entry_ip_status_size (line : str) (log_format : string)
        (e : entry) (v : value)
        (He : parse_log_line line log_format = Ok e)
        (Hip : dict_get "ip" e = Some v) :
  exists ip n m,
    v = VStr ip /\ token ip /\
    dict_get "status" e = Some (VInt n) /\ 0 <= n /\
    dict_get "size" e = Some (VInt m) /\ 0 <= m.
Proof.
  destruct (parse_log_line_spec line log_format) as (e0 & He0 & Hcase).
  rewrite He in He0. injection He0 as <-.
  destruct Hcase as [-> | (name & pat & g & rest & Hin & _ & Hm & Hof)];
    [discriminate|].
  apply ReFacts.rmatch_sound in Hm as (w & _ & Hs).
  destruct (string_dec name "custom") as [-> | Hn].
  { inversion Hof as [? ? ? ? ? ? ? ? [E|E]|? ? ? ? ? ? ? ? ? ? [E|E]|];
      subst; try discriminate. all: simpl in Hip; discriminate. }
  destruct (registry_groups_shape Hin Hn Hs)
    as (g0 & g1 & g2 & g3 & g4 & tl & -> & Ht & _ & [_ H3] & [_ H4]).
  inversion Hof; subst; simpl in Hip; injection Hip as <-;
    exists g0, (int_of_digits g3), (int_of_digits g4);
    repeat split; try apply Ht; auto using int_of_digits_nonneg.
Qed.

Lemma web_entry_ip_status_size_witness :
  parse_log_line scenario1 "auto" = Ok scenario1_entry /\
  dict_get "ip" scenario1_entry = Some (VStr (lit "10.0.0.1")) /\
  exists n m,
    dict_get "status" scenario1_entry = Some (VInt n) /\ 0 <= n /\
    dict_get "size" scenario1_entry = Some (VInt m) /\ 0 <= m.
Proof.
  assert (He : parse_log_line scenario1 "auto" = Ok scenario1_entry)
    by (vm_compute; reflexivity).
  assert (Hip : dict_get "ip" scenario1_entry = Some (VStr (lit "10.0.0.1")))
    by reflexivity.
  split; [exact He|]. split; [exact Hip|].
  destruct (@web_entry_ip_status_size scenario1 "auto" _ _ He Hip)
    as (ip & n & m & _ & _ & Hs & Hn & Hz & Hm).
  exists n, m. auto.
Defined.

(** X6: The request of an entry is split on white space: with two tokens
    or more the entry holds the first as [method], the second as [path]
    and the third (or [HTTP/1.1] when there is none) as [protocol], each
    non-empty and free of white space; with fewer it holds none of the
    three fields. *)
Theorem request_tokens (line : str) (log_format : string) (e : entry)
        (req : str)
        (He : parse_log_line line log_format = Ok e)
        (Hreq : dict_get "request" e = Some (VStr req)) :
  match split req with
  | m :: p :: rest =>
      let pr := match rest with x :: _ => x | [] => lit "HTTP/1.1" end in
      dict_get "method" e = Some (VStr m) /\
      dict_get "path" e = Some (VStr p) /\
      dict_get "protocol" e = Some (VStr pr) /\
      token m /\ token p /\ token pr
  | _ =>
      dict_get "method" e = None /\ dict_get "path" e = None /\
      dict_get "protocol" e = None
  end.
Proof.
  destruct (parse_log_line_spec line log_format) as (e0 & He0 & Hcase).
  rewrite He in He0. injection He0 as <-.
  destruct Hcase as [-> | (name & pat & g & rest & _ & _ & _ & Hof)];
    [discriminate|].
  pose proof (split_tokens req) as Htok.
  inversion Hof; subst; simpl in Hreq; try discriminate;
    injection Hreq as <-;
    unfold web_entry, request_fields, referer_fields;
    destruct (split g2) as [|m [|p r]]; try (repeat split; reflexivity);
    inversion Htok as [|? ? Hm Htok']; subst;
    inversion Htok' as [|? ? Hp Hr]; subst;
    (repeat split; try reflexivity; try apply Hm; try apply Hp);
    destruct r as [|x r]; try discriminate; try reflexivity;
    inversion Hr; subst;
    match goal with H : token x |- _ => apply H end.
Qed.

Lemma request_tokens_witness :
  parse_log_line scenario1 "auto" = Ok scenario1_entry /\
  dict_get "request" scenario1_entry
  = Some (VStr (lit "GET /index.html HTTP/1.1")) /\
  dict_get "method" scenario1_entry = Some (VStr (lit "GET")) /\
  dict_get "path" scenario1_entry = Some (VStr (lit "/index.html")).
Proof.
  assert (He : parse_log_line scenario1 "auto" = Ok scenario1_entry)
    by (vm_compute; reflexivity).
  assert (Hreq : dict_get "request" scenario1_entry
                 = Some (VStr (lit "GET /index.html HTTP/1.1")))
    by reflexivity.
  split; [exact He|]. split; [exact Hreq|].
  pose proof (@request_tokens scenario1 "auto" _ _ He Hreq) as H.
  vm_compute in H. destruct H as (Hm & Hp & _).
  split; [exact Hm | exact Hp].
Defined.

(** ** [parse_timestamp]: aware and naive instants *)

Module AwareFacts.
Import Strptime StrptimeSpec.

Lemma convert_gmtoff (f f' : fields) (d : directive) (s : str) :
  convert f d s = Ok f' ->
  match d with
  | D_z => f_gmtoff f' <> None
  | _ => f_gmtoff f' = f_gmtoff f
  end.
Proof.
  destruct d; cbn [convert]; intros H;
    apply bind_ok in H as (x & _ & H); injection H as <-; simpl;
    try reflexivity; discriminate.
Qed.

Lemma convert_all_gmtoff (ds : list directive) :
  forall gs f f',
    length ds = length gs -> convert_all f ds gs = Ok f' ->
    (has_z ds = true -> f_gmtoff f' <> None) /\
    (has_z ds = false -> f_gmtoff f' = f_gmtoff f).
Proof.
  induction ds as [|d ds IH]; intros gs f f' Hlen H.
  - simpl in H. injection H as <-. split; [discriminate | reflexivity].
  - destruct gs as [|g gs]; [discriminate|]. simpl in Hlen, H.
    apply bind_ok in H as (f1 & H1 & H).
    apply convert_gmtoff in H1.
    destruct (IH gs f1 f' ltac:(lia) H) as [IHt IHf].
    unfold has_z in *. simpl. split.
    + intros Hz. destruct (existsb _ ds) eqn:E; [apply IHt; reflexivity|].
      rewrite IHf by reflexivity.
      destruct d; try discriminate. exact H1.
    + intros Hz. apply orb_false_iff in Hz as [Hd Hds].
      rewrite IHf by exact Hds. destruct d; try discriminate; exact H1.
Qed.

(** An instant read by [strptime] is aware exactly when the layout has
    the [%z] directive. *)
Lemma strptime_aware (s fmt : str) (t : datetime) :
  strptime s fmt = Ok t ->
  aware t = has_z (directives (tokens false fmt)).
Proof.
  unfold strptime.
  destruct (Re.rmatch _ s) as [[found rest]|] eqn:E; [|discriminate].
  destruct rest; [|discriminate].
  apply ReFacts.rmatch_sound in E as (w & _ & Hs).
  apply StrptimeFacts.format_groups in Hs. apply Forall2_length in Hs.
  intros H. apply bind_ok in H as (f & Hf & H).
  apply convert_all_gmtoff in Hf as [Ht Hn]; [|exact Hs].
  unfold Calendar.make_datetime in H.
  match type of H with
  | (if ?c then _ else _) = _ => destruct c; [|discriminate]
  end.
  injection H as <-. unfold aware. simpl.
  destruct (has_z _).
  - destruct (f_gmtoff f); [reflexivity|]. exfalso. apply Ht; reflexivity.
  - rewrite Hn by reflexivity. reflexivity.
Qed.

End AwareFacts.

Lemma parse_timestamp_first (s : str) :
  exists o, parse_timestamp s = Ok o /\
    match o with
    | Some t =>
        exists i fmt,
          nth_error timestamp_formats i = Some fmt /\
          Strptime.strptime s fmt = Ok t /\
          forall j fmt', (j < i)%nat ->
                         nth_error timestamp_formats j = Some fmt' ->
                         Strptime.strptime s fmt' = Raise ValueError
    | None =>
        forall fmt, In fmt timestamp_formats ->
                    Strptime.strptime s fmt = Raise ValueError
    end.
Proof. apply try_formats_first. Qed.

Lemma layouts_has_z :
  map (fun f => has_z (Strptime.directives (Strptime.tokens false f)))
      timestamp_formats
  = [true; false; false; false].
Proof. vm_compute. reflexivity. Qed.

Lemma formats_head : nth_error timestamp_formats 0 = Some offset_layout.
Proof. reflexivity. Qed.

(** X7: The instant [parse_timestamp] returns is aware exactly when it was
    read with the first layout, the one with a UTC offset; whenever one
    of the three other layouts is the first to succeed the instant is
    naive. *)
Theorem timestamp_aware_iff_offset_layout (s : str) (t : datetime)
        (H : parse_timestamp s = Ok (Some t)) :
  (aware t = true <-> Strptime.strptime s offset_layout = Ok t) /\
  (aware t = false -> Strptime.strptime s offset_layout = Raise ValueError).
Proof.
  destruct (parse_timestamp_first s) as (o & Ho & Hspec).
  rewrite H in Ho. injection Ho as <-.
  destruct Hspec as (i & fmt & Hn & Hok & Hbefore).
  pose proof (AwareFacts.strptime_aware _ _ Hok) as Ha.
  pose proof (map_nth_error
                (fun f => has_z (Strptime.directives (Strptime.tokens false f)))
                i timestamp_formats Hn) as Hz.
  rewrite layouts_has_z in Hz. rewrite <- Ha in Hz.
  destruct i as [|i].
  - rewrite formats_head in Hn. injection Hn as <-.
    injection Hz as Hz. split; [tauto | congruence].
  - assert (H0 : Strptime.strptime s offset_layout = Raise ValueError).
    { apply (Hbefore 0%nat); [lia | exact formats_head]. }
    assert (Hf : aware t = false).
    { destruct i as [|[|[|i]]]; simpl in Hz; try congruence.
      destruct i; discriminate. }
    split; [|auto]. split; congruence.
Qed.

Lemma timestamp_aware_witness :
  parse_timestamp (lit "10/Oct/2024:13:55:36 -0700")
  = Ok (Some (mkdt 2024 10 10 13 55 36 0 (Some (-25200000000)))) /\
  Strptime.strptime (lit "10/Oct/2024:13:55:36 -0700") offset_layout
  = Ok (mkdt 2024 10 10 13 55 36 0 (Some (-25200000000))).
Proof.
  assert (H : parse_timestamp (lit "10/Oct/2024:13:55:36 -0700")
              = Ok (Some (mkdt 2024 10 10 13 55 36 0 (Some (-25200000000)))))
    by (vm_compute; reflexivity).
  split; [exact H|].
  apply (proj1 (proj1 (@timestamp_aware_iff_offset_layout _ _ H))).
  reflexivity.
Defined.

(** ** The line loop of [parse_log_file] *)

Lemma parse_log_line_raw_line (line : str) (log_format : string) (e : entry) :
  parse_log_line line log_format = Ok e ->
  dict_get "raw_line" e = Some (VStr line).
Proof.
  intros H.
  destruct (parse_log_line_spec line log_format) as (e0 & He0 & Hcase).
  rewrite H in He0. injection He0 as <-.
  destruct Hcase as [-> | (name & pat & g & rest & _ & _ & _ & Hof)];
    [reflexivity|].
  destruct Hof; reflexivity.
Qed.

Lemma parse_lines_length (lines : list str) (log_format : string) :
  forall n es, parse_lines n lines log_format = Ok es ->
               length es = length (filter kept lines).
Proof.
  induction lines as [|raw lines IH]; intros n es.
  - intros H. injection H as <-. reflexivity.
  - unfold kept at 1. cbn [parse_lines filter].
    destruct (strip raw) as [|c s]; [apply IH|].
    destruct (Ascii.eqb c "#"); [apply IH|]. cbn [negb].
    intros H. apply bind_ok in H as (e & _ & H).
    apply bind_ok in H as (es' & Hes & H). injection H as <-.
    simpl. f_equal. eapply IH. exact Hes.
Qed.

(** X8: The entries of a file whose lines are within the conversion limit
    are those of its kept lines, in order, each holding the stripped
    line as [raw_line] and the position of the line in the file as
    [line_number]; blank lines and comment lines are counted in the
    numbering but give no entry. *)
Theorem parse_lines_numbering (lines : list str) (log_format : string)
        (n : Z) (Hlen : forallb within_limit lines = true) :
  exists es,
    parse_lines n lines log_format = Ok es /\
    map (fun e => (dict_get "line_number" e, dict_get "raw_line" e)) es
    = map (fun p => (Some (VInt (fst p)), Some (VStr (strip (snd p)))))
          (filter (fun p => kept (snd p)) (numbered n lines)) /\
    length es = length (filter kept lines).
Proof.
  clear Hlen.
  revert n. induction lines as [|raw lines IH]; intros n.
  - exists []. repeat split.
  - assert (Hcase :
      (kept raw = false /\
       parse_lines n (raw :: lines) log_format
       = parse_lines (n + 1) lines log_format) \/
      (kept raw = true /\
       parse_lines n (raw :: lines) log_format
       = (e <- parse_log_line (strip raw) log_format ;;
          es <- parse_lines (n + 1) lines log_format ;;
          Ok (dict_set "line_number" (VInt n) e :: es)))).
    { unfold kept. cbn [parse_lines].
      destruct (strip raw) as [|c s]; [left; auto|].
      destruct (Ascii.eqb c "#"); [left; auto | right; auto]. }
    cbn [numbered filter snd].
    destruct Hcase as [[Hk Hp] | [Hk Hp]]; rewrite Hp, Hk; [apply IH|].
    destruct (parse_log_line_returns (strip raw) log_format) as [e He].
    destruct (IH (n + 1)) as (es & Hes & Hmap & Hlen).
    rewrite He, Hes. cbn [bind]. eexists. split; [reflexivity|].
    cbn [map length fst snd]. rewrite Hmap, Hlen, dict_get_set_same.
    rewrite dict_get_set_other by discriminate.
    rewrite (parse_log_line_raw_line _ _ He). split; reflexivity.
Qed.

Lemma parse_lines_numbering_witness :
  forallb within_limit sample_file = true /\
  parse_lines 1 sample_file "auto" = Ok sample_entries /\
  map (fun e => dict_get "line_number" e) sample_entries
  = [Some (VInt 1); Some (VInt 4)].
Proof.
  assert (Hlen : forallb within_limit sample_file = true)
    by (vm_compute; reflexivity).
  split; [exact Hlen|].
  destruct (@parse_lines_numbering sample_file "auto" 1 Hlen)
    as (es & Hes & Hmap & _).
  assert (Hp : parse_lines 1 sample_file "auto" = Ok sample_entries)
    by (vm_compute; reflexivity).
  split; [exact Hp|].
  rewrite Hp in Hes. injection Hes as <-.
  apply (f_equal (map fst)) in Hmap. rewrite !map_map in Hmap.
  exact Hmap.
Defined.

(** X9: Parsing a file in two chunks, the second numbered from where the
    first stops, gives the entries of the whole file. *)
Theorem parse_lines_app (l1 l2 : list str) (log_format : string) (n : Z) :
  parse_lines n (l1 ++ l2) log_format
  = (a <- parse_lines n l1 log_format ;;
     b <- parse_lines (n + len l1) l2 log_format ;;
     Ok (a ++ b)).
Proof.
  revert n. induction l1 as [|raw l1 IH]; intros n.
  - simpl. unfold len. simpl. rewrite Z.add_0_r.
    destruct (parse_lines n l2 log_format); reflexivity.
  - assert (Hn : n + len (raw :: l1) = n + 1 + len l1).
    { unfold len. simpl length. lia. }
    rewrite Hn. simpl.
    destruct (strip raw) as [|c s]; [apply IH|].
    destruct (Ascii.eqb c "#"); [apply IH|].
    rewrite IH.
    destruct (parse_log_line (c :: s) log_format) as [e|x]; [|reflexivity].
    cbn [bind].
    destruct (parse_lines (n + 1) l1 log_format) as [a|x]; [|reflexivity].
    cbn [bind].
    destruct (parse_lines (n + 1 + len l1) l2 log_format); reflexivity.
Qed.

(** X10: Analysing the entries of a file whose lines are within the
    conversion limit counts one entry per kept line. *)
Theorem analyze_counts_kept_lines (lines : list str) (log_format : string)
        (n : Z) (es : list entry) (r : analysis)
        (Hlen : forallb within_limit lines = true)
        (Hes : parse_lines n lines log_format = Ok es)
        (Hr : analyze_entries es = Ok r) :
  match filter kept lines with
  | [] => r = []
  | _ :: _ =>
      dict_get "total_entries" r = Some (AInt (len (filter kept lines)))
  end.
Proof.
  clear Hlen. pose proof (parse_lines_length _ _ _ Hes) as Hlen.
  destruct (filter kept lines) as [|k ks] eqn:Ek.
  - destruct es; [|discriminate]. simpl in Hr. injection Hr as <-.
    reflexivity.
  - destruct es as [|e0 es]; [discriminate|].
    assert (Hne : e0 :: es <> []) by discriminate.
    rewrite (@analyze_entries_head _ _ "total_entries" Hne Hr)
      by (simpl; auto).
    change (dict_get "total_entries" (head_fields (e0 :: es)))
      with (Some (AInt (len (e0 :: es)))).
    unfold len. rewrite Hlen. reflexivity.
Qed.

Lemma analyze_counts_kept_lines_witness :
  forallb within_limit sample_file = true /\
  parse_lines 1 sample_file "auto" = Ok sample_entries /\
  analyze_entries sample_entries = Ok sample_analysis /\
  dict_get "total_entries" sample_analysis = Some (AInt 2).
Proof.
  assert (Hlen : forallb within_limit sample_file = true)
    by (vm_compute; reflexivity).
  assert (Hes : parse_lines 1 sample_file "auto" = Ok sample_entries)
    by (vm_compute; reflexivity).
  assert (Hr : analyze_entries sample_entries = Ok sample_analysis)
    by (vm_compute; reflexivity).
  split; [exact Hlen|]. split; [exact Hes|]. split; [exact Hr|].
  pose proof (@analyze_counts_kept_lines sample_file "auto" 1 _ _ Hlen Hes Hr)
    as H.
  vm_compute in H. exact H.
Defined.

(** ** [detect_anomalies]: sizes, batches *)

(** X11: For a parsed, printable entry (whose size, when present, is an
    integer) [detect_anomalies] emits a [large_response] anomaly if and only if
    the size exceeds 10 * 1024 * 1024 bytes: exactly one, of severity
    medium; a size of exactly 10 MiB, or an absent size, emits none. *)
Theorem large_response_iff_size_gt_10MiB (e : entry)
        (Hparsed : is_parsed e = true) (Htyped : detect_typed e = true)
        (Hprint : printable e = true) :
  exists l, detect_anomalies [e] = Ok l /\
    (10485760 < field_int "size" e ->
     exists a, of_type large_response l = [a] /\
               a_entry a = e /\ a_severity a = medium) /\
    (field_int "size" e <= 10485760 -> of_type large_response l = []).
Proof.
  exists (anomalies_of e). split.
  { apply detect_anomalies_single; auto. }
  unfold anomalies_of. rewrite Hparsed.
  rewrite !of_type_app, of_type_errors, of_type_larges, of_type_suspicious.
  simpl. rewrite app_nil_r. unfold larges_of.
  change (10 * 1024 * 1024) with 10485760.
  split.
  - intros H. apply Z.ltb_lt in H. rewrite H. eexists. repeat split.
  - intros H. apply Z.ltb_ge in H. rewrite H. reflexivity.
Qed.

Lemma large_response_witness :
  is_parsed entry_large = true /\ detect_typed entry_large = true /\
  printable entry_large = true /\
  exists l, detect_anomalies [entry_large] = Ok l /\
    exists a, of_type large_response l = [a] /\ a_severity a = medium.
Proof.
  assert (Hp : is_parsed entry_large = true) by reflexivity.
  assert (Ht : detect_typed entry_large = true) by reflexivity.
  assert (Hpr : printable entry_large = true) by (vm_compute; reflexivity).
  split; [exact Hp|]. split; [exact Ht|]. split; [exact Hpr|].
  destruct (@large_response_iff_size_gt_10MiB entry_large Hp Ht Hpr)
    as (l & Hl & Hgt & _).
  exists l. split; [exact Hl|].
  destruct Hgt as (a & Ha & _ & Hs); [vm_compute; reflexivity|].
  exists a. split; [exact Ha | exact Hs].
Defined.

(** X12: The anomalies of a batch are those of its first part followed by
    those of its second part; an exception in either part is the
    exception of the whole. *)
Theorem detect_anomalies_app (es1 es2 : list entry) :
  detect_anomalies (es1 ++ es2)
  = (a <- detect_anomalies es1 ;;
     b <- detect_anomalies es2 ;;
     Ok (a ++ b)).
Proof.
  induction es1 as [|e es1 IH]; simpl.
  - destruct (detect_anomalies es2); reflexivity.
  - destruct (detect_entry e) as [here|x]; [|reflexivity]. cbn [bind].
    rewrite IH.
    destruct (detect_anomalies es1) as [a|x]; [|reflexivity]. cbn [bind].
    destruct (detect_anomalies es2) as [b|x]; [|reflexivity]. cbn [bind].
    rewrite app_assoc. reflexivity.
Qed.

Lemma anomalies_of_bound (e : entry) :
  (length (anomalies_of e) <= 3)%nat /\
  (length (of_type error_status (anomalies_of e)) <= 1)%nat /\
  (length (of_type large_response (anomalies_of e)) <= 1)%nat /\
  (length (of_type suspicious_path (anomalies_of e)) <= 1)%nat /\
  forall a, In a (anomalies_of e) -> a_entry a = e /\ is_parsed e = true.
Proof.
  unfold anomalies_of. destruct (is_parsed e).
  - rewrite !of_type_app, !of_type_errors, !of_type_larges,
      !of_type_suspicious, !length_app.
    unfold errors_of, larges_of, suspicious_of.
    destruct (400 <=? _), (_ <? _), (matching_patterns _); simpl;
      (split; [lia|]); (split; [lia|]); (split; [lia|]); (split; [lia|]);
      intros x Hx;
      repeat (destruct Hx as [<- | Hx]; [split; reflexivity|]);
      destruct Hx.
  - simpl. do 4 (split; [lia|]). intros x [].
Qed.

(** X13: On a batch of typed, printable entries [detect_anomalies]
    returns at most three anomalies per parsed entry and none for an
    unparsed one; each anomaly refers to a parsed entry of the batch. *)
Theorem detect_anomalies_bounds (es : list entry)
        (Htyped : Forall (fun e => detect_typed e = true) es)
        (Hprint : forallb printable es = true) :
  exists l, detect_anomalies es = Ok l /\
    (length l <= 3 * length (filter is_parsed es))%nat /\
    forall a, In a l -> In (a_entry a) es /\ is_parsed (a_entry a) = true.
Proof.
  exists (flat_map anomalies_of es). split.
  { apply detect_anomalies_typed. exact Htyped. }
  clear Htyped Hprint. induction es as [|e es [IHl IHa]]; simpl.
  - split; [lia|]. intros a [].
  - destruct (anomalies_of_bound e) as (H3 & _ & _ & _ & He).
    split.
    + rewrite length_app. unfold anomalies_of in *.
      destruct (is_parsed e); simpl in *; lia.
    + intros a Ha. apply in_app_or in Ha as [Ha | Ha].
      * destruct (He a Ha) as [-> Hp]. split; [left; reflexivity | exact Hp].
      * destruct (IHa a Ha) as [Hin Hp]. split; [right; exact Hin | exact Hp].
Qed.

Lemma detect_anomalies_bounds_witness :
  Forall (fun e => detect_typed e = true)
         [entry_503; unparsed (lit "junk"); entry_wp_admin] /\
  forallb printable [entry_503; unparsed (lit "junk"); entry_wp_admin]
  = true /\
  exists l, detect_anomalies [entry_503; unparsed (lit "junk"); entry_wp_admin]
            = Ok l /\ (length l <= 6)%nat.
Proof.
  assert (H : Forall (fun e => detect_typed e = true)
                     [entry_503; unparsed (lit "junk"); entry_wp_admin])
    by (repeat constructor).
  assert (Hpr : forallb printable
                  [entry_503; unparsed (lit "junk"); entry_wp_admin] = true)
    by (vm_compute; reflexivity).
  split; [exact H|]. split; [exact Hpr|].
  destruct (@detect_anomalies_bounds _ H Hpr) as (l & Hl & Hlen & _).
  exists l. split; [exact Hl | exact Hlen].
Defined.

(** ** [re.search] with IGNORECASE literals *)

Module SearchFacts.
Import Re.

Lemma search_eq (r : regex) (at_end : bool) (s : str) :
  search r at_end s
  = match run r (fun rest _ =>
                   if (negb at_end || dollar rest)%bool
                   then Some tt else None) s [] with
    | Some _ => true
    | None => match s with
              | [] => false
              | _ :: s' => search r at_end s'
              end
    end.
Proof. destruct s; reflexivity. Qed.

(** [search] finds a match somewhere in the text, followed by the end
    of the text when the pattern ends in [$]. *)
Lemma search_spec (r : regex) (at_end : bool) (s : str) :
  search r at_end s = true <->
  exists a w g b, s = a ++ w ++ b /\ sem r w g /\
                  (at_end = true -> dollar b = true).
Proof.
  split.
  - induction s as [|c s IH]; rewrite search_eq;
      destruct (run r _ _ []) as [u|] eqn:E; try discriminate.
    + intros _. apply ReFacts.run_sound in E as (w & g & rest & Hs & Hw & Hk).
      exists [], w, g, rest. split; [exact Hs|]. split; [exact Hw|].
      intros ->. simpl in Hk. destruct (dollar rest); [reflexivity|discriminate].
    + intros _. apply ReFacts.run_sound in E as (w & g & rest & Hs & Hw & Hk).
      exists [], w, g, rest. split; [exact Hs|]. split; [exact Hw|].
      intros ->. simpl in Hk. destruct (dollar rest); [reflexivity|discriminate].
    + intros H. destruct (IH H) as (a & w & g & b & -> & Hw & Hb).
      exists (c :: a), w, g, b. auto.
  - intros (a & w & g & b & -> & Hw & Hb).
    assert (Hhere : exists u,
               run r (fun rest _ =>
                        if (negb at_end || dollar rest)%bool
                        then Some tt else None) (w ++ b) [] = Some u).
    { eapply ReFacts.run_complete with (y := tt); [exact Hw|].
      destruct at_end; [rewrite Hb by reflexivity|]; reflexivity. }
    induction a as [|c a IH]; rewrite search_eq; simpl.
    + destruct Hhere as [u ->]. reflexivity.
    + destruct (run r _ (c :: a ++ w ++ b) []); [reflexivity | exact IH].
Qed.

Lemma lower_idem (c : ascii) : lower (lower c) = lower c.
Proof. destruct c as [[] [] [] [] [] [] [] []]; reflexivity. Qed.

Lemma lower_lf (c : ascii) : Ascii.eqb (lower c) lf = Ascii.eqb c lf.
Proof. destruct c as [[] [] [] [] [] [] [] []]; reflexivity. Qed.

Lemma dollar_lower (b : str) : dollar (map lower b) = dollar b.
Proof.
  destruct b as [|c [|d b]]; simpl; [reflexivity | apply lower_lf | reflexivity].
Qed.

(** A literal compiled with IGNORECASE matches the words equal to it up
    to case, and has no group. *)
Lemma sem_text_ci (l : str) (w : str) (g : list str) :
  sem (cat (map chr_ci l)) w g <-> g = [] /\ map lower w = map lower l.
Proof.
  revert w g. induction l as [|c l IH]; intros w g; simpl.
  - split.
    + intros H. inversion H; subst. auto.
    + intros [-> H]. destruct w; [constructor | discriminate].
  - split.
    + intros H. inversion H as [| |? ? w1 w2 g1 g2 H1 H2| | | |]; subst.
      inversion H1 as [|p x Hx| | | | |]; subst.
      apply IH in H2 as [-> H2]. apply Ascii.eqb_eq in Hx.
      split; [reflexivity|]. simpl. congruence.
    + intros [-> H]. destruct w as [|x w]; [discriminate|].
      simpl in H. injection H as Hx Hw.
      change (x :: w) with ([x] ++ w).
      change (@nil str) with (@nil str ++ @nil str).
      constructor.
      * constructor. apply Ascii.eqb_eq. exact Hx.
      * apply IH. auto.
Qed.

(** Searching for an IGNORECASE literal is searching the lower-cased
    text for the lower-cased literal. *)
Lemma search_text_ci (l : string) (at_end : bool) (s : str) :
  search (text_ci l) at_end s = true <->
  exists a b, map lower s = a ++ map lower (lit l) ++ b /\
              (at_end = true -> dollar b = true).
Proof.
  unfold text_ci. rewrite search_spec. split.
  - intros (a & w & g & b & -> & Hw & Hb).
    apply sem_text_ci in Hw as [_ Hw].
    exists (map lower a), (map lower b).
    rewrite !map_app, Hw. split; [reflexivity|].
    intros H. rewrite dollar_lower. auto.
  - intros (a' & b' & Hs & Hb).
    apply map_eq_app in Hs as (a & t & -> & Ha & Ht).
    apply map_eq_app in Ht as (w & b & -> & Hw & Hb').
    exists a, w, [], b. split; [reflexivity|].
    split; [apply sem_text_ci; auto|].
    intros H. rewrite <- dollar_lower, Hb'. auto.
Qed.

End SearchFacts.

(** X14: On paths made of the code points 0..255, the suspicious
    patterns do not tell the case of the letters A to Z apart: two such
    paths that are equal once these letters are lower-cased are found
    by the same patterns. *)
Theorem suspicious_search_ignores_case (path path' : str)
        (q : Re.regex * bool)
        (Hcase : map lower path = map lower path')
        (Hq : In q suspicious_patterns) :
  Re.search (fst q) (snd q) path = Re.search (fst q) (snd q) path'.
Proof.
  assert (H : forall l at_end,
             Re.search (Re.text_ci l) at_end path = true <->
             Re.search (Re.text_ci l) at_end path' = true).
  { intros l at_end. rewrite !SearchFacts.search_text_ci, Hcase. tauto. }
  assert (Hb : forall l at_end,
             Re.search (Re.text_ci l) at_end path
             = Re.search (Re.text_ci l) at_end path').
  { intros l at_end. specialize (H l at_end).
    destruct (Re.search _ at_end path), (Re.search _ at_end path');
      try reflexivity.
    - symmetry. apply H. reflexivity.
    - apply H. reflexivity. }
  unfold suspicious_patterns in Hq. simpl in Hq.
  repeat (destruct Hq as [<- | Hq]; [apply Hb|]). destruct Hq.
Qed.

Lemma suspicious_search_ignores_case_witness :
  map lower (lit "/WP-Admin/x") = map lower (lit "/wp-admin/x") /\
  Re.search (Re.text_ci "admin") false (lit "/WP-Admin/x")
  = Re.search (Re.text_ci "admin") false (lit "/wp-admin/x").
Proof.
  assert (H : map lower (lit "/WP-Admin/x") = map lower (lit "/wp-admin/x"))
    by reflexivity.
  split; [exact H|].
  apply (@suspicious_search_ignores_case _ _ (Re.text_ci "admin", false) H).
  unfold suspicious_patterns. simpl. auto.
Defined.

Lemma filter_nonempty {A : Type} (f : A -> bool) (l : list A) :
  filter f l <> [] <-> exists x, In x l /\ f x = true.
Proof.
  split.
  - intros H. destruct (filter f l) as [|x t] eqn:E; [congruence|].
    exists x. apply filter_In. rewrite E. left; reflexivity.
  - intros (x & Hx & Hf) E.
    assert (Hin : In x (filter f l)) by (apply filter_In; auto).
    rewrite E in Hin. destruct Hin.
Qed.

Lemma matching_patterns_suspicious (path : str) :
  matching_patterns path <> [] <-> suspicious path.
Proof.
  unfold matching_patterns. rewrite filter_nonempty.
  unfold suspicious, ends_in_php, contains. cbv zeta. split.
  - intros (q & Hq & Hs). unfold suspicious_patterns in Hq. simpl in Hq.
    repeat (destruct Hq as [<- | Hq];
            [apply SearchFacts.search_text_ci in Hs as (a & b & Hs & Hb)|]);
      try destruct Hq.
    + left. exists a, b. split; [exact Hs | apply Hb; reflexivity].
    + right; left. exists a, b. exact Hs.
    + right; left. exists (a ++ lit "wp-"), b. rewrite Hs.
      rewrite <- !app_assoc. reflexivity.
    + right; right; left. exists a, b. exact Hs.
    + right; right; right; left. exists a, b. exact Hs.
    + right; right; right; right; left. exists a, b. exact Hs.
    + right; right; right; right; right. exists a, b. exact Hs.
  - assert (Hfind : forall l at_end,
               In (Re.text_ci l, at_end) suspicious_patterns ->
               (exists a b, map lower path = a ++ map lower (lit l) ++ b /\
                            (at_end = true -> Re.dollar b = true)) ->
               exists x, In x suspicious_patterns /\
                         Re.search (fst x) (snd x) path = true).
    { intros l at_end Hin H. exists (Re.text_ci l, at_end).
      split; [exact Hin|]. apply SearchFacts.search_text_ci. exact H. }
    unfold suspicious_patterns in Hfind. simpl in Hfind.
    intros [(a & b & Hs & Hb) | [(a & b & Hs) | [(a & b & Hs)
           | [(a & b & Hs) | [(a & b & Hs) | (a & b & Hs)]]]]].
    + apply (Hfind ".php"%string true); [auto 10|]. exists a, b. auto.
    + apply (Hfind "admin"%string false); [auto 10|]. exists a, b.
      split; [exact Hs | discriminate].
    + apply (Hfind ".env"%string false); [auto 10|]. exists a, b.
      split; [exact Hs | discriminate].
    + apply (Hfind "backup"%string false); [auto 10|]. exists a, b.
      split; [exact Hs | discriminate].
    + apply (Hfind "config"%string false); [auto 10|]. exists a, b.
      split; [exact Hs | discriminate].
    + apply (Hfind ".git"%string false); [auto 10|]. exists a, b.
      split; [exact Hs | discriminate].
Qed.

(** X15: For a parsed, printable entry whose path is a text made of
    the code points 0..255, [detect_anomalies] emits a
    [suspicious_path] anomaly exactly when the path, its letters A to Z
    lower-cased, ends in [.php] (a final line feed aside) or contains
    one of [admin], [.env], [backup], [config], [.git]; the pattern
    [wp-admin] adds nothing to [admin]. *)
Theorem suspicious_path_characterised (e : entry)
        (Hparsed : is_parsed e = true) (Htyped : detect_typed e = true)
        (Hprint : printable e = true) :
  exists l, detect_anomalies [e] = Ok l /\
    (of_type suspicious_path l <> [] <-> suspicious (field_text "path" e)).
Proof.
  exists (anomalies_of e). split.
  { apply detect_anomalies_single; auto. }
  unfold anomalies_of. rewrite Hparsed.
  rewrite !of_type_app, of_type_errors, of_type_larges, of_type_suspicious.
  simpl. rewrite <- matching_patterns_suspicious. unfold suspicious_of.
  destruct (matching_patterns (field_text "path" e)); split;
    intros H; try congruence; discriminate.
Qed.

Lemma suspicious_path_witness :
  is_parsed entry_wp_admin = true /\ detect_typed entry_wp_admin = true /\
  printable entry_wp_admin = true /\
  exists l, detect_anomalies [entry_wp_admin] = Ok l /\
            (of_type suspicious_path l <> [] <->
             suspicious (lit "/wp-admin/config.php")).
Proof.
  assert (Hp : is_parsed entry_wp_admin = true) by reflexivity.
  assert (Ht : detect_typed entry_wp_admin = true) by reflexivity.
  assert (Hpr : printable entry_wp_admin = true) by (vm_compute; reflexivity).
  split; [exact Hp|]. split; [exact Ht|]. split; [exact Hpr|].
  exact (@suspicious_path_characterised entry_wp_admin Hp Ht Hpr).
Defined.

(** X16: One typed, printable entry never gives two anomalies of the same
    type, and an unparsed entry gives none. *)
Theorem one_anomaly_per_type (e : entry) (ty : anomaly_type)
        (Htyped : detect_typed e = true) (Hprint : printable e = true) :
  exists l, detect_anomalies [e] = Ok l /\
    (length (of_type ty l) <= 1)%nat /\
    (is_parsed e = false -> l = []).
Proof.
  exists (anomalies_of e). split.
  { apply detect_anomalies_single; auto. }
  destruct (anomalies_of_bound e) as (_ & He & Hl & Hs & _).
  split; [destruct ty; assumption|].
  intros H. unfold anomalies_of. rewrite H. reflexivity.
Qed.

Lemma one_anomaly_per_type_witness :
  detect_typed entry_wp_admin = true /\
  printable entry_wp_admin = true /\
  exists l, detect_anomalies [entry_wp_admin] = Ok l /\
            (length (of_type suspicious_path l) <= 1)%nat.
Proof.
  assert (Ht : detect_typed entry_wp_admin = true) by reflexivity.
  assert (Hpr : printable entry_wp_admin = true) by (vm_compute; reflexivity).
  split; [exact Ht|]. split; [exact Hpr|].
  destruct (@one_anomaly_per_type entry_wp_admin suspicious_path Ht Hpr)
    as (l & Hl & Hlen & _).
  exists l. split; [exact Hl | exact Hlen].
Defined.

(** ** [analyze_entries]: the whole result *)

(** The result of [analyze_entries] on a non-empty batch, assembled
    from its stages. *)
Lemma analyze_entries_form (entries : list entry) (r : analysis) :
  entries <> [] -> analyze_entries entries = Ok r ->
  let ps := filter is_parsed entries in
  (ps = [] /\ r = head_fields entries) \/
  (ps <> [] /\
   exists sizes ts,
     mapM as_int (sizes_of entries) = Ok sizes /\
     mapM as_time (timestamps_of entries) = Ok ts /\
     ((ts = [] /\
       r = with_sizes sizes (with_tables ps (head_fields entries))) \/
      (exists start stop d,
         ts <> [] /\ min_time ts = Ok start /\ max_time ts = Ok stop /\
         Calendar.sub stop start = Ok d /\
         r = with_times ts start stop d
               (with_sizes sizes (with_tables ps (head_fields entries)))))).
Proof.
  intros Hne H. unfold analyze_entries in H.
  destruct entries as [|e0 es]; [congruence|].
  fold (head_fields (e0 :: es)) in H.
  unfold sizes_of, timestamps_of. cbv zeta.
  remember (head_fields (e0 :: es)) as hd eqn:Ehd. clear Ehd.
  destruct (filter is_parsed (e0 :: es)) as [|p ps] eqn:Ef.
  { left. injection H as <-. auto. }
  right. split; [discriminate|].
  apply bind_ok in H as (sizes & Hs & H).
  apply bind_ok in H as (ts & Hts & H).
  exists sizes, ts. split; [exact Hs|]. split; [exact Hts|].
  fold (with_tables (p :: ps) hd) in H.
  destruct ts as [|t ts].
  - left. injection H as <-. split; [reflexivity|].
    destruct sizes; reflexivity.
  - right.
    apply bind_ok in H as (start & Hmin & H).
    apply bind_ok in H as (stop & Hmax & H).
    apply bind_ok in H as (stop' & Hmax' & H).
    apply bind_ok in H as (start' & Hmin' & H).
    apply bind_ok in H as (d & Hd & H).
    assert (stop' = stop) by congruence. subst stop'.
    assert (start' = start) by congruence. subst start'.
    exists start, stop, d. split; [discriminate|].
    repeat (split; [assumption|]).
    injection H as <-. destruct sizes; reflexivity.
Qed.

Lemma mapM_length {A B : Type} (f : A -> result B) (l : list A) :
  forall l', mapM f l = Ok l' -> length l' = length l.
Proof.
  induction l as [|a l IH]; simpl; intros l' H.
  - injection H as <-. reflexivity.
  - apply bind_ok in H as (b & _ & H).
    apply bind_ok in H as (bs & Hbs & H). injection H as <-.
    simpl. rewrite (IH _ Hbs). reflexivity.
Qed.

Lemma mapM_nil_iff {A B : Type} (f : A -> result B) (l : list A)
      (l' : list B) :
  mapM f l = Ok l' -> (l' = [] <-> l = []).
Proof.
  intros H. apply mapM_length in H.
  destruct l, l'; simpl in H; split; intros E;
    try reflexivity; try discriminate.
Qed.


(** X17: The fields of the analysis: none for the empty batch; the three
    counts for a batch without a parsed entry; with a parsed entry the
    five tables, then [response_sizes] when some size is not zero, then
    [time_range] and [traffic_by_hour] when some timestamp is not
    null. *)
Theorem analysis_keys (entries : list entry) (r : analysis)
        (Hr : analyze_entries entries = Ok r) :
  keys r
  = match entries with
    | [] => []
    | _ :: _ =>
        head_keys ++
        match filter is_parsed entries with
        | [] => []
        | _ :: _ =>
            table_keys
            ++ match sizes_of entries with
               | [] => []
               | _ :: _ => ["response_sizes"%string]
               end
            ++ match timestamps_of entries with
               | [] => []
               | _ :: _ => ["time_range"; "traffic_by_hour"]%string
               end
        end
    end.
Proof.
  destruct entries as [|e0 es].
  { simpl in Hr. injection Hr as <-. reflexivity. }
  assert (Hne : e0 :: es <> []) by discriminate.
  destruct (analyze_entries_form Hne Hr)
    as [[Hps ->] | (Hps & sizes & ts & Hs & Hts & Hcase)].
  - cbv zeta in Hps. rewrite Hps. reflexivity.
  - apply mapM_nil_iff in Hs. apply mapM_nil_iff in Hts.
    destruct (filter is_parsed (e0 :: es)) as [|p ps]; [congruence|].
    destruct Hcase as [[-> ->] | (start & stop & d & Hn & _ & _ & _ & ->)].
    + rewrite (proj1 Hts eq_refl).
      destruct sizes as [|x sizes].
      * rewrite (proj1 Hs eq_refl). reflexivity.
      * destruct (sizes_of (e0 :: es)) as [|v vs];
          [destruct Hs as [_ Hs]; discriminate (Hs eq_refl)|].
        reflexivity.
    + destruct (timestamps_of (e0 :: es)) as [|u us];
        [destruct Hts as [_ Hts]; elim Hn; apply Hts; reflexivity|].
      destruct sizes as [|x sizes].
      * rewrite (proj1 Hs eq_refl). reflexivity.
      * destruct (sizes_of (e0 :: es)) as [|v vs];
          [destruct Hs as [_ Hs]; discriminate (Hs eq_refl)|].
        reflexivity.
Qed.

Lemma analysis_keys_witness :
  analyze_entries sample_entries = Ok sample_analysis /\
  keys sample_analysis
  = head_keys ++ table_keys ++ ["response_sizes"%string]
    ++ ["time_range"; "traffic_by_hour"]%string.
Proof.
  assert (Hr : analyze_entries sample_entries = Ok sample_analysis)
    by (vm_compute; reflexivity).
  split; [exact Hr|].
  pose proof (@analysis_keys _ _ Hr) as H. vm_compute in H.
  vm_compute. exact H.
Defined.

(** ** Full frequency tables *)

Section RankingFacts.
Variable K : Type.
Variable eqb : K -> K -> bool.
Hypothesis eqb_spec : forall x y, eqb x y = true <-> x = y.

Lemma total_counter_add (x : K) (c : list (K * Z)) :
  total (counter_add eqb x c) = total c + 1.
Proof.
  induction c as [|[y n] c IH]; simpl; [reflexivity|].
  destruct (eqb x y); simpl; [lia|]. rewrite IH. lia.
Qed.

Lemma total_Counter (l : list K) : total (Counter eqb l) = len l.
Proof.
  induction l as [|x l IH] using rev_ind; [reflexivity|].
  rewrite (@Counter_snoc K eqb), total_counter_add, IH.
  unfold len. rewrite length_app. simpl. lia.
Qed.

Lemma total_perm (t t' : list (K * Z)) :
  Permutation t t' -> total t = total t'.
Proof.
  induction 1; simpl; try lia.
Qed.

(** [most_common()] of a counter is the frequency table of the list
    counted. *)
Lemma most_common_is_ranking (l : list K) :
  is_ranking eqb l (most_common None (Counter eqb l)).
Proof.
  unfold most_common.
  assert (Hperm : Permutation (sorted_desc (Counter eqb l)) (Counter eqb l))
    by apply sorted_desc_perm.
  split; [|split; [|split]].
  - apply (Permutation_NoDup (l := map fst (Counter eqb l))).
    + apply Permutation_map. symmetry. exact Hperm.
    + apply (@Counter_keys_NoDup K eqb eqb_spec).
  - intros k c. split.
    + apply (@sorted_Counter_In K eqb eqb_spec).
    + intros [Hk ->].
      apply (proj2 (@Counter_keys_In K eqb eqb_spec l k)) in Hk.
      apply in_map_iff in Hk as ([k' c] & Hk' & Hin). simpl in Hk'. subst k'.
      rewrite <- (@Counter_counts K eqb eqb_spec l k c Hin).
      apply (Permutation_in _ (Permutation_sym Hperm)). exact Hin.
  - eapply StronglySorted_map_in;
      [|apply (@sorted_Counter K eqb eqb_spec l)].
    intros a b Ha Hb. apply (@item_before_ranks K eqb eqb_spec); assumption.
  - rewrite (total_perm Hperm). apply total_Counter.
Qed.

End RankingFacts.

Lemma analysis_status_codes (entries : list entry) (r : analysis) (v : aval) :
  analyze_entries entries = Ok r ->
  dict_get "status_codes" r = Some v ->
  v = ATable (table None (truthy_column "status" (filter is_parsed entries))).
Proof.
  intros Hr Hv. destruct entries as [|e0 es].
  { simpl in Hr. injection Hr as <-. discriminate. }
  assert (Hne : e0 :: es <> []) by discriminate.
  destruct (analyze_entries_form Hne Hr)
    as [[Hps ->] | (Hps & sizes & ts & _ & _ & Hcase)]; [discriminate|].
  destruct Hcase as [[_ ->] | (start & stop & d & _ & _ & _ & _ & ->)];
    destruct sizes; cbn in Hv; injection Hv as <-; reflexivity.
Qed.

Lemma analysis_http_methods (entries : list entry) (r : analysis) (v : aval) :
  analyze_entries entries = Ok r ->
  dict_get "http_methods" r = Some v ->
  v = ATable (table None (column "method" (filter is_parsed entries))).
Proof.
  intros Hr Hv. destruct entries as [|e0 es].
  { simpl in Hr. injection Hr as <-. discriminate. }
  assert (Hne : e0 :: es <> []) by discriminate.
  destruct (analyze_entries_form Hne Hr)
    as [[Hps ->] | (Hps & sizes & ts & _ & _ & Hcase)]; [discriminate|].
  destruct Hcase as [[_ ->] | (start & stop & d & _ & _ & _ & _ & ->)];
    destruct sizes; cbn in Hv; injection Hv as <-; reflexivity.
Qed.

(** ** Entries of a parsed file *)

Lemma make_datetime_valid (y m d H M S us : Z) (tz : option Z)
      (t : datetime) :
  Calendar.make_datetime y m d H M S us tz = Ok t -> valid_datetime t.
Proof.
  unfold Calendar.make_datetime.
  match goal with
  | |- (if ?c then _ else _) = _ -> _ => destruct c eqn:E; [|discriminate]
  end.
  intros Ht. injection Ht as <-.
  repeat (apply andb_true_iff in E as [E ?]).
  unfold valid_datetime. simpl.
  repeat match goal with
         | H : (_ <=? _) = true |- _ => apply Z.leb_le in H
         end.
  destruct tz as [off|]; [|repeat split; lia].
  repeat match goal with
         | H : (_ <? _) = true |- _ => apply Z.ltb_lt in H
         end.
  repeat split; lia.
Qed.

Lemma strptime_valid (s fmt : str) (t : datetime) :
  Strptime.strptime s fmt = Ok t -> valid_datetime t.
Proof.
  unfold Strptime.strptime.
  destruct (Re.rmatch _ s) as [[found rest]|]; [|discriminate].
  destruct rest; [|discriminate].
  intros H. apply bind_ok in H as (f & _ & H).
  eapply make_datetime_valid. exact H.
Qed.

Lemma parse_timestamp_valid (s : str) (t : datetime) :
  parse_timestamp s = Ok (Some t) -> valid_datetime t.
Proof.
  intros H. destruct (parse_timestamp_first s) as (o & Ho & Hcase).
  rewrite H in Ho. injection Ho as <-.
  destruct Hcase as (i & fmt & _ & Hs & _).
  eapply strptime_valid. exact Hs.
Qed.

Lemma opt_time_field (s : str) (ts : option datetime) :
  parse_timestamp s = Ok ts -> time_field (opt_time ts).
Proof.
  intros H. destruct ts as [t|]; [right | left; reflexivity].
  exists t. split; [reflexivity|]. eapply parse_timestamp_valid. exact H.
Qed.

Lemma request_fields_typed (req : str) (k : string) (v : value) :
  dict_get k (request_fields req) = Some v -> token_field v.
Proof.
  unfold request_fields. pose proof (split_tokens req) as Htok.
  destruct (split req) as [|m [|p r]]; try discriminate.
  inversion Htok as [|? ? Hm Htok']; subst.
  inversion Htok' as [|? ? Hp Hr]; subst.
  cbn [dict_get].
  destruct (String.eqb k "method"); [intros E; injection E as <-; red; eauto|].
  destruct (String.eqb k "path"); [intros E; injection E as <-; red; eauto|].
  destruct (String.eqb k "protocol"); [|discriminate].
  intros E; injection E as <-. destruct r as [|x r].
  - exists (lit "HTTP/1.1"). split; [reflexivity|]. split; [discriminate|].
    reflexivity.
  - inversion Hr; subst. red; eauto.
Qed.

Lemma dict_get_app {V : Type} (k : string) (a b : dict V) :
  dict_get k (a ++ b)
  = match dict_get k a with
    | Some v => Some v
    | None => dict_get k b
    end.
Proof.
  induction a as [|[k' v'] a IH]; simpl; [reflexivity|].
  destruct (String.eqb k k'); [reflexivity | exact IH].
Qed.

Lemma web_entry_line_entry (name : string) (line g0 g2 : str)
      (ts : option datetime) (n m : Z) (tl : entry) :
  token g0 -> 0 <= n -> 0 <= m -> time_field (opt_time ts) ->
  (forall k, In k ["ip"; "status"; "size"; "method"; "path";
                   "timestamp"]%string -> dict_get k tl = None) ->
  line_entry (web_entry name line g0 ts g2 n m ++ tl).
Proof.
  intros Hg0 Hn Hm Hts Htl.
  assert (Hreq : forall k v,
             In k ["method"; "path"]%string ->
             match dict_get k (request_fields g2) with
             | Some v => Some v
             | None => dict_get k tl
             end = Some v -> token_field v).
  { intros k v Hk. destruct (dict_get k (request_fields g2)) as [x|] eqn:E.
    - intros H. injection H as <-. eapply request_fields_typed. exact E.
    - rewrite Htl; [discriminate|]. simpl in *. tauto. }
  unfold line_entry, has_type, web_entry.
  repeat split; intros v; rewrite !dict_get_app; simpl; intros H;
    try (injection H as <-);
    try solve [ eexists; split; [reflexivity|]; assumption
              | exact Hts
              | eapply Hreq; [|exact H]; simpl; tauto ].
Qed.

Lemma parse_log_line_line_entry (line : str) (log_format : string)
      (e : entry) :
  parse_log_line line log_format = Ok e -> line_entry e.
Proof.
  intros He.
  destruct (parse_log_line_spec line log_format) as (e0 & He0 & Hcase).
  rewrite He in He0. injection He0 as <-.
  destruct Hcase as [-> | (name & pat & g & rest & Hin & _ & Hm & Hof)].
  { repeat split; intros v H; discriminate. }
  apply ReFacts.rmatch_sound in Hm as (w & _ & Hs).
  destruct (string_dec name "custom") as [-> | Hn].
  { inversion Hof as [? ? ? ? ? ? ? ? [E|E]|? ? ? ? ? ? ? ? ? ? [E|E]|
                      ? ? ? ? ? Hts]; subst; try discriminate.
    repeat split; intros v H; try discriminate.
    simpl in H. injection H as <-. eapply opt_time_field. exact Hts. }
  destruct (registry_groups_shape Hin Hn Hs)
    as (g0 & g1 & g2 & g3 & g4 & tl & -> & Ht & _ & [_ H3] & [_ H4]).
  inversion Hof as [? ? ? ? ? ? ? ? _ Hts|? ? ? ? ? ? ? ? ? ? _ Hts|]; subst.
  - rewrite <- (app_nil_r (web_entry _ _ _ _ _ _ _)).
    apply web_entry_line_entry;
      eauto using int_of_digits_nonneg, opt_time_field.
  - apply web_entry_line_entry;
      eauto using int_of_digits_nonneg, opt_time_field.
    intros k Hk. simpl in Hk.
    repeat (destruct Hk as [<- | Hk]; [reflexivity|]). destruct Hk.
Qed.

Lemma parse_lines_line_entries (lines : list str) (log_format : string) :
  forall n es, parse_lines n lines log_format = Ok es ->
               Forall line_entry es.
Proof.
  induction lines as [|raw lines IH]; intros n es; simpl.
  - intros H. injection H as <-. constructor.
  - destruct (strip raw) as [|c s] eqn:Es; [apply IH|].
    destruct (Ascii.eqb c "#"); [apply IH|].
    intros H. apply bind_ok in H as (e & He & H).
    apply bind_ok in H as (es' & Hes & H). injection H as <-.
    constructor; [|eapply IH; eauto].
    apply parse_log_line_line_entry in He.
    unfold line_entry, has_type in *.
    rewrite !dict_get_set_other by discriminate. exact He.
Qed.

Lemma Forall_column (P : value -> Prop) (k : string) (es : list entry) :
  Forall (has_type P k) es -> Forall P (column k es).
Proof.
  induction 1 as [|e es He Hes IH]; simpl; [constructor|].
  destruct (dict_get k e) as [v|] eqn:E; simpl; [|exact IH].
  constructor; [apply He; exact E | exact IH].
Qed.

Lemma parsed_column (P : value -> Prop) (k : string) (es : list entry) :
  Forall (has_type P k) es -> Forall P (column k (filter is_parsed es)).
Proof.
  intros H. apply Forall_column, Forall_filter, H.
Qed.

Lemma mapM_as_time_eq (l : list value) (ts : list datetime) :
  mapM as_time l = Ok ts -> l = map VTime ts.
Proof.
  revert ts. induction l as [|v l IH]; simpl; intros ts H.
  - injection H as <-. reflexivity.
  - apply bind_ok in H as (t & Ht & H).
    apply bind_ok in H as (ts' & Hts & H). injection H as <-.
    destruct v; try discriminate. injection Ht as <-.
    simpl. rewrite (IH _ Hts). reflexivity.
Qed.

Lemma mapM_as_int_eq (l : list value) (sizes : list Z) :
  Forall nat_field l -> mapM as_int l = Ok sizes -> l = map VInt sizes.
Proof.
  intros Hl. revert sizes.
  induction Hl as [|v l (n & -> & _) Hl IH]; simpl; intros sizes H.
  - injection H as <-. reflexivity.
  - apply bind_ok in H as (ss & Hss & H). injection H as <-.
    simpl. rewrite (IH _ Hss). reflexivity.
Qed.

Lemma hours_of_times (entries : list entry) (ts : list datetime) :
  timestamps_of entries = map VTime ts ->
  hours_of entries = map (fun t => VInt (hour t)) ts.
Proof.
  unfold hours_of. intros ->. induction ts as [|t ts IH]; simpl; congruence.
Qed.

Lemma analysis_traffic_by_hour (entries : list entry) (r : analysis)
      (v : aval) :
  analyze_entries entries = Ok r ->
  dict_get "traffic_by_hour" r = Some v ->
  v = ATable (table None (hours_of entries)).
Proof.
  intros Hr Hv. destruct entries as [|e0 es].
  { simpl in Hr. injection Hr as <-. discriminate. }
  assert (Hne : e0 :: es <> []) by discriminate.
  destruct (analyze_entries_form Hne Hr)
    as [[Hps ->] | (Hps & sizes & ts & _ & Hts & Hcase)]; [discriminate|].
  apply mapM_as_time_eq in Hts. rewrite (@hours_of_times _ _ Hts).
  destruct Hcase as [[_ ->] | (start & stop & d & _ & _ & _ & _ & ->)].
  - destruct sizes; cbn in Hv; discriminate.
  - unfold with_times in Hv. rewrite dict_get_set_same in Hv.
    injection Hv as <-. reflexivity.
Qed.

Lemma hours_bound (l : list value) :
  NoDup l -> (forall k, In k l -> exists h, k = VInt h /\ 0 <= h <= 23) ->
  (length l <= 24)%nat.
Proof.
  intros Hnd Hk.
  change 24%nat
    with (length (map (fun i => VInt (Z.of_nat i)) (seq 0 24))).
  apply NoDup_incl_length; [exact Hnd|].
  intros k Hin. destruct (Hk k Hin) as (h & -> & Hh).
  apply in_map_iff. exists (Z.to_nat h). split.
  - rewrite Z2Nat.id by lia. reflexivity.
  - apply in_seq. lia.
Qed.

(** X18: For the entries of a file whose lines are within the conversion
    limit, [status_codes], [http_methods] and
    [traffic_by_hour] are full frequency tables: one row per status
    (method, hour) of the parsed entries with its number of
    occurrences, rows by decreasing frequency with ties in order of
    first appearance, the counts adding up to the number of values
    counted.  A status is a positive integer (a status of 0 is not
    counted), a method is a token, an hour lies between 0 and 23, so
    that the hour table has at most 24 rows. *)
Theorem frequency_tables (lines : list str) (log_format : string) (n : Z)
        (entries : list entry) (r : analysis)
        (Hlen : forallb within_limit lines = true)
        (Hp : parse_lines n lines log_format = Ok entries)
        (Hr : analyze_entries entries = Ok r) :
  (forall v, dict_get "status_codes" r = Some v ->
     exists t, v = ATable t /\
       is_ranking value_eqb
         (truthy_column "status" (filter is_parsed entries)) t /\
       forall k, In k (map fst t) -> exists s, k = VInt s /\ 1 <= s) /\
  (forall v, dict_get "http_methods" r = Some v ->
     exists t, v = ATable t /\
       is_ranking value_eqb (column "method" (filter is_parsed entries)) t /\
       forall k, In k (map fst t) -> token_field k) /\
  (forall v, dict_get "traffic_by_hour" r = Some v ->
     exists t, v = ATable t /\
       is_ranking value_eqb (hours_of entries) t /\
       (forall k, In k (map fst t) -> exists h, k = VInt h /\ 0 <= h <= 23) /\
       (length t <= 24)%nat).
Proof.
  pose proof (parse_lines_line_entries _ _ _ Hp) as Hty.
  assert (Hkey : forall l t k,
             is_ranking value_eqb l t -> In k (map fst t) -> In k l).
  { intros l t k Hrk Hk. apply in_map_iff in Hk as ([k' c] & Hk' & Hin).
    simpl in Hk'. subst k'. apply (proj1 (proj2 Hrk)) in Hin. tauto. }
  split; [|split].
  - intros v Hv. rewrite (analysis_status_codes _ Hr Hv).
    eexists. split; [reflexivity|].
    pose proof (@most_common_is_ranking value value_eqb value_eqb_spec
                  (truthy_column "status" (filter is_parsed entries))) as Hrk.
    split; [exact Hrk|].
    intros k Hk. apply (Hkey _ _ _ Hrk) in Hk.
    unfold truthy_column in Hk. apply filter_In in Hk as [Hk Htr].
    assert (Hnat : Forall nat_field
                     (column "status" (filter is_parsed entries))).
    { apply parsed_column. eapply Forall_impl; [|exact Hty].
      intros e He. apply He. }
    rewrite Forall_forall in Hnat. destruct (Hnat k Hk) as (s & -> & Hs).
    exists s. split; [reflexivity|]. simpl in Htr.
    apply negb_true_iff, Z.eqb_neq in Htr. lia.
  - intros v Hv. rewrite (analysis_http_methods _ Hr Hv).
    eexists. split; [reflexivity|].
    pose proof (@most_common_is_ranking value value_eqb value_eqb_spec
                  (column "method" (filter is_parsed entries))) as Hrk.
    split; [exact Hrk|].
    intros k Hk. apply (Hkey _ _ _ Hrk) in Hk.
    assert (Htok : Forall token_field
                     (column "method" (filter is_parsed entries))).
    { apply parsed_column. eapply Forall_impl; [|exact Hty].
      intros e He. apply He. }
    rewrite Forall_forall in Htok. apply Htok, Hk.
  - intros v Hv. rewrite (analysis_traffic_by_hour _ Hr Hv).
    eexists. split; [reflexivity|].
    pose proof (@most_common_is_ranking value value_eqb value_eqb_spec
                  (hours_of entries)) as Hrk.
    split; [exact Hrk|].
    assert (Hh : forall k, In k (map fst (table None (hours_of entries))) ->
                           exists h, k = VInt h /\ 0 <= h <= 23).
    { intros k Hk. apply (Hkey _ _ _ Hrk) in Hk.
      unfold hours_of in Hk. apply in_flat_map in Hk as (x & Hx & Hk).
      unfold timestamps_of, truthy_column in Hx.
      apply filter_In in Hx as [Hx _].
      assert (Htm : Forall time_field
                      (column "timestamp" (filter is_parsed entries))).
      { apply parsed_column. eapply Forall_impl; [|exact Hty].
        intros e He. apply He. }
      rewrite Forall_forall in Htm.
      destruct (Htm x Hx) as [-> | (t & -> & Hval)]; [destruct Hk|].
      destruct Hk as [<- | []]. exists (hour t). split; [reflexivity|].
      apply Hval. }
    split; [exact Hh|].
    rewrite <- (length_map fst). apply hours_bound; [apply Hrk | exact Hh].
Qed.

Lemma frequency_tables_witness :
  forallb within_limit sample_file = true /\
  parse_lines 1 sample_file "auto" = Ok sample_entries /\
  analyze_entries sample_entries = Ok sample_analysis /\
  dict_get "status_codes" sample_analysis = Some (ATable [(VInt 200, 1)]) /\
  exists t, ATable [(VInt 200, 1)] = ATable t /\
            forall k, In k (map fst t) -> exists s, k = VInt s /\ 1 <= s.
Proof.
  assert (Hlen : forallb within_limit sample_file = true)
    by (vm_compute; reflexivity).
  assert (Hp : parse_lines 1 sample_file "auto" = Ok sample_entries)
    by (vm_compute; reflexivity).
  assert (Hr : analyze_entries sample_entries = Ok sample_analysis)
    by (vm_compute; reflexivity).
  assert (Hv : dict_get "status_codes" sample_analysis
               = Some (ATable [(VInt 200, 1)])) by reflexivity.
  split; [exact Hlen|]. split; [exact Hp|]. split; [exact Hr|]. split; [exact Hv|].
  destruct (proj1 (@frequency_tables _ _ _ _ _ Hlen Hp Hr) _ Hv)
    as (t & Ht & _ & Hk).
  exists t. split; [exact Ht | exact Hk].
Defined.

(** X19: The [timestamp] of an entry built from a line is null or an instant
    within the ranges of the calendar: a year from 1 to 9999, a month
    from 1 to 12, a day of that month, an hour below 24, minutes and
    seconds below 60, and an offset of less than a day. *)
Theorem timestamp_calendar_valid (line : str) (log_format : string)
        (e : entry) (v : value)
        (He : parse_log_line line log_format = Ok e)
        (Hv : dict_get "timestamp" e = Some v) :
  v = VNone \/ exists t, v = VTime t /\ valid_datetime t.
Proof.
  apply parse_log_line_line_entry in He.
  destruct He as (_ & _ & _ & _ & _ & Ht). exact (Ht v Hv).
Qed.

Lemma timestamp_calendar_valid_witness :
  parse_log_line scenario1 "auto" = Ok scenario1_entry /\
  exists t, dict_get "timestamp" scenario1_entry = Some (VTime t) /\
            valid_datetime t.
Proof.
  assert (He : parse_log_line scenario1 "auto" = Ok scenario1_entry)
    by (vm_compute; reflexivity).
  split; [exact He|].
  destruct (dict_get "timestamp" scenario1_entry) as [v|] eqn:Hv;
    [|discriminate].
  destruct (@timestamp_calendar_valid _ _ _ _ He Hv)
    as [-> | (t & -> & Hval)]; [discriminate|].
  exists t. split; [reflexivity | exact Hval].
Defined.

(** ** [analyze_entries]: the number of addresses *)

Lemma analysis_unique_ips (entries : list entry) (r : analysis) (v : aval) :
  analyze_entries entries = Ok r ->
  dict_get "unique_ips" r = Some v ->
  v = AInt (len (Counter value_eqb (column "ip" (filter is_parsed entries)))).
Proof.
  intros Hr Hv. destruct entries as [|e0 es].
  { simpl in Hr. injection Hr as <-. discriminate. }
  assert (Hne : e0 :: es <> []) by discriminate.
  destruct (analyze_entries_form Hne Hr)
    as [[Hps ->] | (Hps & sizes & ts & _ & _ & Hcase)]; [discriminate|].
  destruct Hcase as [[_ ->] | (start & stop & d & _ & _ & _ & _ & ->)];
    destruct sizes; cbn in Hv; injection Hv as <-; reflexivity.
Qed.

Lemma column_length (k : string) (es : list entry) :
  (length (column k es) <= length es)%nat.
Proof.
  induction es as [|e es IH]; simpl; [lia|].
  destruct (dict_get k e); simpl; lia.
Qed.

(** X20: For the entries of a file whose lines are within the conversion
    limit, [unique_ips] is the number of distinct
    addresses of the parsed entries, each a token; it is at most the
    number of parsed entries, and [top_ips] has one row per address up
    to 10 rows. *)
Theorem unique_ips_counts_distinct (lines : list str) (log_format : string)
        (n : Z) (entries : list entry) (r : analysis) (u : aval)
        (Hlen : forallb within_limit lines = true)
        (Hp : parse_lines n lines log_format = Ok entries)
        (Hr : analyze_entries entries = Ok r)
        (Hu : dict_get "unique_ips" r = Some u) :
  exists l t,
    u = AInt (len l) /\ NoDup l /\
    (forall v, In v l <-> In v (column "ip" (filter is_parsed entries))) /\
    Forall token_field l /\
    len l <= len (filter is_parsed entries) /\
    dict_get "top_ips" r = Some (ATable t) /\
    length t = Nat.min 10 (length l).
Proof.
  pose proof (parse_lines_line_entries _ _ _ Hp) as Hty.
  rewrite (analysis_unique_ips _ Hr Hu).
  set (ips := column "ip" (filter is_parsed entries)).
  assert (Hnd : NoDup (map fst (Counter value_eqb ips)))
    by apply (@Counter_keys_NoDup value value_eqb value_eqb_spec).
  assert (Hin : forall v, In v (map fst (Counter value_eqb ips)) <-> In v ips)
    by apply (@Counter_keys_In value value_eqb value_eqb_spec).
  exists (map fst (Counter value_eqb ips)),
         (table (Some 10%nat) ips).
  split; [unfold len; rewrite length_map; reflexivity|].
  split; [exact Hnd|]. split; [exact Hin|].
  assert (Htok : Forall token_field ips).
  { apply parsed_column. eapply Forall_impl; [|exact Hty].
    intros e He. apply He. }
  split.
  { rewrite Forall_forall in *. intros v Hv. apply Htok, Hin, Hv. }
  split.
  { unfold len. apply inj_le.
    transitivity (length ips); [|apply column_length].
    apply NoDup_incl_length; [exact Hnd|]. intros v Hv. apply Hin, Hv. }
  split.
  - rewrite (@analyze_entries_top entries r "top_ips" "ip" Hr) by auto.
    destruct (filter is_parsed entries) as [|p ps] eqn:Ef; [|reflexivity].
    exfalso. destruct entries as [|e0 es].
    + simpl in Hr. injection Hr as <-. discriminate.
    + assert (Hne : e0 :: es <> []) by discriminate.
      destruct (analyze_entries_form Hne Hr)
        as [[_ ->] | (Hps & _)]; [discriminate|].
      apply Hps. exact Ef.
  - unfold table, most_common. rewrite length_firstn, length_map.
    rewrite (Permutation_length (sorted_desc_perm _)). reflexivity.
Qed.

Lemma unique_ips_counts_distinct_witness :
  forallb within_limit sample_file = true /\
  parse_lines 1 sample_file "auto" = Ok sample_entries /\
  analyze_entries sample_entries = Ok sample_analysis /\
  dict_get "unique_ips" sample_analysis = Some (AInt 1) /\
  exists l, AInt 1 = AInt (len l) /\ NoDup l /\ Forall token_field l.
Proof.
  assert (Hlen : forallb within_limit sample_file = true)
    by (vm_compute; reflexivity).
  assert (Hp : parse_lines 1 sample_file "auto" = Ok sample_entries)
    by (vm_compute; reflexivity).
  assert (Hr : analyze_entries sample_entries = Ok sample_analysis)
    by (vm_compute; reflexivity).
  assert (Hu : dict_get "unique_ips" sample_analysis = Some (AInt 1))
    by reflexivity.
  split; [exact Hlen|]. split; [exact Hp|]. split; [exact Hr|]. split; [exact Hu|].
  destruct (@unique_ips_counts_distinct _ _ _ _ _ _ Hlen Hp Hr Hu)
    as (l & t & Hl & Hnd & _ & Htok & _).
  exists l. auto.
Defined.

(** ** [analyze_entries]: the size statistics *)

Lemma analysis_response_sizes (entries : list entry) (r : analysis)
      (v : aval) :
  analyze_entries entries = Ok r ->
  dict_get "response_sizes" r = Some v ->
  exists sizes,
    mapM as_int (sizes_of entries) = Ok sizes /\ sizes <> [] /\
    v = sizes_summary sizes.
Proof.
  intros Hr Hv. destruct entries as [|e0 es].
  { simpl in Hr. injection Hr as <-. discriminate. }
  assert (Hne : e0 :: es <> []) by discriminate.
  destruct (analyze_entries_form Hne Hr)
    as [[Hps ->] | (Hps & sizes & ts & Hs & _ & Hcase)]; [discriminate|].
  exists sizes. split; [exact Hs|].
  assert (Hget : dict_get "response_sizes"
                   (with_sizes sizes
                      (with_tables (filter is_parsed (e0 :: es))
                                   (head_fields (e0 :: es)))) = Some v).
  { destruct Hcase as [[_ ->] | (start & stop & d & _ & _ & _ & _ & ->)];
      [exact Hv|].
    unfold with_times in Hv.
    rewrite !dict_get_set_other in Hv by discriminate. exact Hv. }
  destruct sizes as [|x sizes]; [cbn in Hget; discriminate|].
  split; [discriminate|].
  unfold with_sizes in Hget. rewrite dict_get_set_same in Hget.
  injection Hget as <-. reflexivity.
Qed.

Lemma fold_min_spec (l : list Z) :
  forall x, In (fold_left Z.min l x) (x :: l) /\
            forall y, In y (x :: l) -> fold_left Z.min l x <= y.
Proof.
  induction l as [|a l IH]; intros x; simpl.
  - split; [auto|]. intros y [<-|[]]. lia.
  - destruct (IH (Z.min x a)) as [Hin Hle]. split.
    + destruct Hin as [E|Hin]; [|auto].
      rewrite <- E. destruct (Z.min_spec x a) as [[_ ->]|[_ ->]]; auto.
    + intros y [<-|[<-|Hy]].
      * specialize (Hle (Z.min x a) (or_introl eq_refl)). lia.
      * specialize (Hle (Z.min x a) (or_introl eq_refl)). lia.
      * apply Hle. right. exact Hy.
Qed.

Lemma fold_max_spec (l : list Z) :
  forall x, In (fold_left Z.max l x) (x :: l) /\
            forall y, In y (x :: l) -> y <= fold_left Z.max l x.
Proof.
  induction l as [|a l IH]; intros x; simpl.
  - split; [auto|]. intros y [<-|[]]. lia.
  - destruct (IH (Z.max x a)) as [Hin Hle]. split.
    + destruct Hin as [E|Hin]; [|auto].
      rewrite <- E. destruct (Z.max_spec x a) as [[_ ->]|[_ ->]]; auto.
    + intros y [<-|[<-|Hy]].
      * specialize (Hle (Z.max x a) (or_introl eq_refl)). lia.
      * specialize (Hle (Z.max x a) (or_introl eq_refl)). lia.
      * apply Hle. right. exact Hy.
Qed.

Lemma fold_add_bounds (lo hi : Z) (l : list Z) :
  (forall x, In x l -> lo <= x <= hi) ->
  forall acc, acc + len l * lo <= fold_left Z.add l acc <= acc + len l * hi.
Proof.
  unfold len. induction l as [|a l IH]; intros Hl acc; simpl fold_left.
  - simpl. lia.
  - assert (Ha : lo <= a <= hi) by (apply Hl; left; reflexivity).
    specialize (IH (fun x Hx => Hl x (or_intror Hx)) (acc + a)).
    simpl length. rewrite Nat2Z.inj_succ. nia.
Qed.

(** X21: For the entries of a file whose lines are within the conversion
    limit, [response_sizes] is computed from the
    sizes of the parsed entries that are not 0, each at least 1:
    [min_size] and [max_size] are the least and the greatest of them,
    and [total_bytes] lies between the number of sizes times the least
    and times the greatest. *)
Theorem response_sizes_summary (lines : list str) (log_format : string)
        (n : Z) (entries : list entry) (r : analysis) (v : aval)
        (Hlen : forallb within_limit lines = true)
        (Hp : parse_lines n lines log_format = Ok entries)
        (Hr : analyze_entries entries = Ok r)
        (Hv : dict_get "response_sizes" r = Some v) :
  exists sizes total_bytes avg_size max_size min_size,
    sizes_of entries = map VInt sizes /\
    v = sizes_record total_bytes avg_size max_size min_size /\
    In min_size sizes /\ In max_size sizes /\
    (forall x, In x sizes -> 1 <= min_size <= x /\ x <= max_size) /\
    len sizes * min_size <= total_bytes <= len sizes * max_size.
Proof.
  pose proof (parse_lines_line_entries _ _ _ Hp) as Hty.
  destruct (analysis_response_sizes _ Hr Hv) as (sizes & Hs & Hne & ->).
  assert (Hnat : Forall nat_field (sizes_of entries)).
  { unfold sizes_of, truthy_column. apply Forall_filter, parsed_column.
    eapply Forall_impl; [|exact Hty]. intros e He. apply He. }
  pose proof (mapM_as_int_eq Hnat Hs) as Heq.
  assert (Hpos : forall x, In x sizes -> 1 <= x).
  { intros x Hx.
    assert (Hin : In (VInt x) (sizes_of entries))
      by (rewrite Heq; apply in_map; exact Hx).
    rewrite Forall_forall in Hnat.
    destruct (Hnat _ Hin) as (k & Hk & Hk0). injection Hk as <-.
    unfold sizes_of, truthy_column in Hin. apply filter_In in Hin as [_ Htr].
    simpl in Htr. apply negb_true_iff, Z.eqb_neq in Htr. lia. }
  destruct sizes as [|x0 sizes]; [congruence|].
  exists (x0 :: sizes), (sum_Z (x0 :: sizes)),
         (AFloat (inject_Z (sum_Z (x0 :: sizes))
                  / inject_Z (len (x0 :: sizes)))%Q),
         (max_Z (x0 :: sizes)), (min_Z (x0 :: sizes)).
  destruct (fold_min_spec sizes x0) as [Hmin_in Hmin].
  destruct (fold_max_spec sizes x0) as [Hmax_in Hmax].
  split; [exact Heq|]. split; [reflexivity|].
  split; [exact Hmin_in|]. split; [exact Hmax_in|].
  split.
  - intros x Hx. split; [split|].
    + apply Hpos. exact Hmin_in.
    + apply Hmin, Hx.
    + apply Hmax, Hx.
  - pose proof (@fold_add_bounds (min_Z (x0 :: sizes)) (max_Z (x0 :: sizes))
                  (x0 :: sizes)) as Hb.
    unfold sum_Z. specialize (Hb (fun x Hx => conj (Hmin x Hx) (Hmax x Hx)) 0).
    lia.
Qed.

Lemma response_sizes_summary_witness :
  forallb within_limit sample_file = true /\
  parse_lines 1 sample_file "auto" = Ok sample_entries /\
  analyze_entries sample_entries = Ok sample_analysis /\
  exists v sizes,
    dict_get "response_sizes" sample_analysis = Some v /\
    sizes_of sample_entries = map VInt sizes.
Proof.
  assert (Hlen : forallb within_limit sample_file = true)
    by (vm_compute; reflexivity).
  assert (Hp : parse_lines 1 sample_file "auto" = Ok sample_entries)
    by (vm_compute; reflexivity).
  assert (Hr : analyze_entries sample_entries = Ok sample_analysis)
    by (vm_compute; reflexivity).
  split; [exact Hlen|]. split; [exact Hp|]. split; [exact Hr|].
  destruct (dict_get "response_sizes" sample_analysis) as [v|] eqn:Hv;
    [|discriminate].
  destruct (@response_sizes_summary _ _ _ _ _ _ Hlen Hp Hr Hv)
    as (sizes & _ & _ & _ & _ & Hs & _).
  exists v, sizes. split; [reflexivity | exact Hs].
Defined.

(** ** [analyze_entries]: the time range *)

Lemma lt_instant (a b : datetime) (c : bool) :
  Calendar.lt a b = Ok c ->
  aware a = aware b /\ c = (instant a <? instant b).
Proof.
  unfold Calendar.lt, aware, instant.
  destruct (tzinfo a), (tzinfo b); try discriminate;
    intros H; injection H as <-; split; reflexivity.
Qed.

Lemma sub_instant (a b : datetime) (d : Z) :
  Calendar.sub a b = Ok d -> d = instant a - instant b.
Proof.
  unfold Calendar.sub, instant.
  destruct (tzinfo a), (tzinfo b); try discriminate;
    intros H; injection H as <-; reflexivity.
Qed.

Lemma extremum_min (l : list datetime) :
  forall cur m,
    extremum Calendar.lt cur l = Ok m ->
    In m (cur :: l) /\ aware m = aware cur /\
    forall t, In t (cur :: l) ->
              aware t = aware cur /\ instant m <= instant t.
Proof.
  induction l as [|x l IH]; intros cur m H; simpl in H.
  - injection H as <-. split; [left; reflexivity|]. split; [reflexivity|].
    intros t [<-|[]]. split; [reflexivity | lia].
  - apply bind_ok in H as (b & Hb & H).
    apply lt_instant in Hb as [Hax ->].
    destruct (IH _ _ H) as (Hin & Haw & Hall).
    assert (Hnew : aware (if instant x <? instant cur then x else cur)
                   = aware cur)
      by (destruct (instant x <? instant cur); [exact Hax | reflexivity]).
    rewrite Hnew in *.
    pose proof (Hall _ (or_introl eq_refl)) as [_ Hcur].
    split.
    { destruct Hin as [E|Hin]; [|right; right; exact Hin].
      rewrite <- E. destruct (instant x <? instant cur); simpl; auto. }
    split; [exact Haw|].
    intros t [E|[E|Ht]]; [subst t | subst t | apply Hall; right; exact Ht].
    + split; [reflexivity|].
      destruct (Z.ltb_spec (instant x) (instant cur)); lia.
    + split; [exact Hax|].
      destruct (Z.ltb_spec (instant x) (instant cur)); lia.
Qed.

Lemma extremum_max (l : list datetime) :
  forall cur m,
    extremum (fun a b => Calendar.lt b a) cur l = Ok m ->
    In m (cur :: l) /\ aware m = aware cur /\
    forall t, In t (cur :: l) ->
              aware t = aware cur /\ instant t <= instant m.
Proof.
  induction l as [|x l IH]; intros cur m H; simpl in H.
  - injection H as <-. split; [left; reflexivity|]. split; [reflexivity|].
    intros t [<-|[]]. split; [reflexivity | lia].
  - apply bind_ok in H as (b & Hb & H).
    apply lt_instant in Hb as [Hax ->]. symmetry in Hax.
    destruct (IH _ _ H) as (Hin & Haw & Hall).
    assert (Hnew : aware (if instant cur <? instant x then x else cur)
                   = aware cur)
      by (destruct (instant cur <? instant x); [exact Hax | reflexivity]).
    rewrite Hnew in *.
    pose proof (Hall _ (or_introl eq_refl)) as [_ Hcur].
    split.
    { destruct Hin as [E|Hin]; [|right; right; exact Hin].
      rewrite <- E. destruct (instant cur <? instant x); simpl; auto. }
    split; [exact Haw|].
    intros t [E|[E|Ht]]; [subst t | subst t | apply Hall; right; exact Ht].
    + split; [reflexivity|].
      destruct (Z.ltb_spec (instant cur) (instant x)); lia.
    + split; [exact Hax|].
      destruct (Z.ltb_spec (instant cur) (instant x)); lia.
Qed.

Lemma analysis_time_range (entries : list entry) (r : analysis) (v : aval) :
  analyze_entries entries = Ok r ->
  dict_get "time_range" r = Some v ->
  exists ts start stop d,
    mapM as_time (timestamps_of entries) = Ok ts /\
    min_time ts = Ok start /\ max_time ts = Ok stop /\
    Calendar.sub stop start = Ok d /\
    v = time_summary start stop d.
Proof.
  intros Hr Hv. destruct entries as [|e0 es].
  { simpl in Hr. injection Hr as <-. discriminate. }
  assert (Hne : e0 :: es <> []) by discriminate.
  destruct (analyze_entries_form Hne Hr)
    as [[Hps ->] | (Hps & sizes & ts & _ & Hts & Hcase)]; [discriminate|].
  destruct Hcase as [[_ ->] | (start & stop & d & _ & Hmin & Hmax & Hd & ->)].
  - destruct sizes; cbn in Hv; discriminate.
  - exists ts, start, stop, d. repeat (split; [assumption|]).
    unfold with_times in Hv.
    rewrite dict_get_set_other, dict_get_set_same in Hv by discriminate.
    injection Hv as <-. reflexivity.
Qed.

(** X22: The [time_range] of an analysis is taken from the instants of the
    parsed entries, which are then all aware or all naive: [start] is
    one of them and none is earlier, [end] is one of them and none is
    later, and [duration] is the text of their distance, which is not
    negative. *)
Theorem time_range_extent (entries : list entry) (r : analysis) (v : aval)
        (Hr : analyze_entries entries = Ok r)
        (Hv : dict_get "time_range" r = Some v) :
  exists ts start stop,
    timestamps_of entries = map VTime ts /\
    v = time_summary start stop (instant stop - instant start) /\
    In start ts /\ In stop ts /\
    0 <= instant stop - instant start /\
    (forall t, In t ts ->
       aware t = aware start /\ instant start <= instant t <= instant stop).
Proof.
  destruct (analysis_time_range _ Hr Hv)
    as (ts & start & stop & d & Hts & Hmin & Hmax & Hd & ->).
  apply mapM_as_time_eq in Hts. apply sub_instant in Hd. subst d.
  exists ts, start, stop. split; [exact Hts|]. split; [reflexivity|].
  destruct ts as [|t0 ts]; [discriminate|].
  unfold min_time in Hmin. unfold max_time in Hmax.
  apply extremum_min in Hmin as (Hin1 & Ha1 & Hall1).
  apply extremum_max in Hmax as (Hin2 & Ha2 & Hall2).
  split; [exact Hin1|]. split; [exact Hin2|].
  split; [destruct (Hall1 _ Hin2) as [_ H]; lia|].
  intros t Ht. destruct (Hall1 t Ht) as [Hat Hle1].
  destruct (Hall2 t Ht) as [_ Hle2].
  split; [congruence | lia].
Qed.

Lemma time_range_extent_witness :
  analyze_entries sample_entries = Ok sample_analysis /\
  exists v ts,
    dict_get "time_range" sample_analysis = Some v /\
    timestamps_of sample_entries = map VTime ts.
Proof.
  assert (Hr : analyze_entries sample_entries = Ok sample_analysis)
    by (vm_compute; reflexivity).
  split; [exact Hr|].
  destruct (dict_get "time_range" sample_analysis) as [v|] eqn:Hv;
    [|discriminate].
  destruct (@time_range_extent _ _ _ Hr Hv) as (ts & _ & _ & Hts & _).
  exists v, ts. split; [reflexivity | exact Hts].
Defined.

(** ** [detect_anomalies] after [parse_log_file] *)

Lemma anomalies_of_severity (e : entry) (a : anomaly) :
  In a (anomalies_of e) ->
  a_entry a = e /\
  a_severity a
  = match a_type a with
    | error_status => if 500 <=? field_int "status" e then high else medium
    | large_response => medium
    | suspicious_path => high
    end.
Proof.
  unfold anomalies_of, errors_of, larges_of, suspicious_of.
  destruct (is_parsed e); [|intros []].
  rewrite !in_app_iff.
  destruct (400 <=? field_int "status" e);
    destruct (10 * 1024 * 1024 <? field_int "size" e);
    destruct (matching_patterns (field_text "path" e));
    simpl; intros H;
    repeat match goal with
           | H : _ \/ _ |- _ => destruct H as [H|H]
           | H : False |- _ => destruct H
           end;
    subst a; split; reflexivity.
Qed.

(** X23: Whatever the selector and the lines of a file, as long as they
    are within the conversion limit, parsing the lines and looking for
    anomalies in the entries raises nothing.  The
    severity of an anomaly follows from its type: a suspicious path is
    high, a large response medium, and an error status high from 500
    on and medium below. *)
Theorem detect_after_parse (lines : list str) (log_format : string)
        (n : Z) (Hlen : forallb within_limit lines = true) :
  exists entries anomalies,
    parse_lines n lines log_format = Ok entries /\
    detect_anomalies entries = Ok anomalies /\
    forall a, In a anomalies ->
      In (a_entry a) entries /\
      a_severity a
      = match a_type a with
        | error_status =>
            if 500 <=? field_int "status" (a_entry a) then high else medium
        | large_response => medium
        | suspicious_path => high
        end.
Proof.
  clear Hlen.
  destruct (parse_lines_typed lines log_format n) as (es & Hes & Hty).
  exists es, (flat_map anomalies_of es).
  split; [exact Hes|]. split; [apply detect_anomalies_typed; exact Hty|].
  intros a Ha. apply in_flat_map in Ha as (e & He & Ha).
  apply anomalies_of_severity in Ha as [-> Hs]. split; assumption.
Qed.

Lemma detect_after_parse_witness :
  forallb within_limit sample_file = true /\
  exists entries anomalies,
    parse_lines 1 sample_file "auto" = Ok entries /\
    detect_anomalies entries = Ok anomalies.
Proof.
  assert (Hlen : forallb within_limit sample_file = true)
    by (vm_compute; reflexivity).
  split; [exact Hlen|].
  destruct (@detect_after_parse sample_file "auto" 1 Hlen)
    as (es & l & Hes & Hl & _).
  exists es, l. split; [exact Hes | exact Hl].
Defined.

(** * The claims on batches *)

Lemma type_eqb_eq (a b : anomaly_type) : type_eqb a b = true <-> a = b.
Proof. destruct a, b; simpl; split; congruence. Qed.

Lemma of_type_In (ty : anomaly_type) (l : list anomaly) (a : anomaly) :
  In a (of_type ty l) <-> In a l /\ a_type a = ty.
Proof.
  unfold of_type. rewrite filter_In, type_eqb_eq. tauto.
Qed.

Lemma of_type_flat_map (ty : anomaly_type) (es : list entry) :
  of_type ty (flat_map anomalies_of es)
  = flat_map (fun e => of_type ty (anomalies_of e)) es.
Proof.
  induction es as [|e es IH]; simpl; [reflexivity|].
  rewrite of_type_app, IH. reflexivity.
Qed.

Lemma error_anomalies_entry (e : entry) :
  map a_entry (of_type error_status (anomalies_of e))
  = if error_entry e then [e] else [].
Proof.
  unfold anomalies_of, error_entry. destruct (is_parsed e); [|reflexivity].
  rewrite !of_type_app, of_type_errors, of_type_larges, of_type_suspicious.
  simpl. rewrite app_nil_r. unfold errors_of.
  destruct (400 <=? field_int "status" e); reflexivity.
Qed.

Lemma suspicious_anomalies_entry (e : entry) :
  map a_entry (of_type suspicious_path (anomalies_of e))
  = if suspicious_entry e then [e] else [].
Proof.
  unfold anomalies_of, suspicious_entry. destruct (is_parsed e); [|reflexivity].
  rewrite !of_type_app, of_type_errors, of_type_larges, of_type_suspicious.
  simpl. unfold suspicious_of.
  destruct (matching_patterns (field_text "path" e)); reflexivity.
Qed.

Lemma batch_entries (ty : anomaly_type) (P : entry -> bool) :
  (forall e, map a_entry (of_type ty (anomalies_of e))
             = if P e then [e] else []) ->
  forall es, map a_entry (of_type ty (flat_map anomalies_of es))
             = filter P es.
Proof.
  intros H es. rewrite of_type_flat_map.
  induction es as [|e es IH]; simpl; [reflexivity|].
  rewrite map_app, H, IH. destruct (P e); reflexivity.
Qed.

Lemma anomalies_of_message (e : entry) (a : anomaly) :
  In a (anomalies_of e) -> a_type a = suspicious_path ->
  a_message a = lit "Suspicious path access: " ++ field_text "path" e.
Proof.
  unfold anomalies_of, errors_of, larges_of, suspicious_of.
  destruct (is_parsed e); [|intros []].
  rewrite !in_app_iff.
  destruct (400 <=? field_int "status" e);
    destruct (10 * 1024 * 1024 <? field_int "size" e);
    destruct (matching_patterns (field_text "path" e));
    simpl; intros H Ht;
    repeat match goal with
           | H : _ \/ _ |- _ => destruct H as [H|H]
           | H : False |- _ => destruct H
           end;
    subst a; try discriminate; reflexivity.
Qed.

Lemma NoDup_map_eq {A B : Type} (f : A -> B) (l : list A) (a a' : A) :
  NoDup (map f l) -> In a l -> In a' l -> f a = f a' -> a = a'.
Proof.
  induction l as [|x l IH]; simpl; intros Hnd Ha Ha' E; [destruct Ha|].
  inversion Hnd as [|? ? Hx Hl]; subst.
  destruct Ha as [<-|Ha], Ha' as [<-|Ha']; auto.
  - exfalso. apply Hx. rewrite E. apply in_map. exact Ha'.
  - exfalso. apply Hx. rewrite <- E. apply in_map. exact Ha.
Qed.

(** C6: on a batch of typed, printable entries [detect_anomalies]
    emits the [error_status] anomalies of the parsed entries whose
    status is at least 400, one for each in the order of the batch and
    none for any other entry; its severity is high from 500 on and
    medium below.  So a parsed entry of the batch has an
    [error_status] anomaly if and only if its status is at least
    400. *)
Theorem C6_error_status_iff_status_ge_400 (es : list entry)
        (Htyped : Forall (fun e => detect_typed e = true) es)
        (Hprint : forallb printable es = true) :
  exists l, detect_anomalies es = Ok l /\
    map a_entry (of_type error_status l) = filter error_entry es /\
    (forall a, In a l -> a_type a = error_status ->
       a_severity a
       = if 500 <=? field_int "status" (a_entry a) then high else medium) /\
    (forall e, In e es -> is_parsed e = true ->
       ((exists a, In a l /\ a_type a = error_status /\ a_entry a = e)
        <-> 400 <= field_int "status" e)).
Proof.
  clear Hprint.
  exists (flat_map anomalies_of es).
  split; [apply detect_anomalies_typed; exact Htyped|].
  pose proof (batch_entries error_status error_entry error_anomalies_entry es)
    as Heq.
  split; [exact Heq|]. split.
  - intros a Ha Ht. apply in_flat_map in Ha as (e & _ & Ha).
    apply anomalies_of_severity in Ha as [-> Hs]. rewrite Hs, Ht. reflexivity.
  - intros e He Hp. split.
    + intros (a & Ha & Ht & Hae).
      assert (Hin : In e (filter error_entry es)).
      { rewrite <- Heq, <- Hae. apply in_map, of_type_In. auto. }
      apply filter_In in Hin as [_ Hin]. unfold error_entry in Hin.
      rewrite Hp in Hin. apply Z.leb_le. exact Hin.
    + intros H.
      assert (Hin : In e (map a_entry
                            (of_type error_status (flat_map anomalies_of es)))).
      { rewrite Heq. apply filter_In. split; [exact He|].
        unfold error_entry. rewrite Hp. apply Z.leb_le. exact H. }
      apply in_map_iff in Hin as (a & Hae & Ha).
      apply of_type_In in Ha as [Ha Ht]. exists a. auto.
Qed.

Lemma C6_witness_status_503 :
  Forall (fun e => detect_typed e = true) mixed_batch /\
  forallb printable mixed_batch = true /\
  exists l, detect_anomalies mixed_batch = Ok l /\
    map a_entry (of_type error_status l) = [entry_503] /\
    forall a, In a l -> a_type a = error_status ->
      a_entry a = entry_503 -> a_severity a = high.
Proof.
  assert (Hty : Forall (fun e => detect_typed e = true) mixed_batch)
    by (repeat constructor).
  assert (Hpr : forallb printable mixed_batch = true)
    by (vm_compute; reflexivity).
  split; [exact Hty|]. split; [exact Hpr|].
  destruct (@C6_error_status_iff_status_ge_400 mixed_batch Hty Hpr)
    as (l & Hl & Heq & Hsev & _).
  exists l. split; [exact Hl|]. split.
  - rewrite Heq. vm_compute. reflexivity.
  - intros a Ha Ht Hae. rewrite (Hsev a Ha Ht), Hae. reflexivity.
Defined.

(** C5: on a batch of typed, printable entries [detect_anomalies]
    emits the [suspicious_path] anomalies of the parsed entries in
    whose path a pattern of the suspicious list is found, one for each
    in the order of the batch and none for any other entry, of severity
    high and with the path in its message.  An entry whose path matches
    two or more patterns is one of them: it gets that one anomaly, the
    scan stopping at the first pattern found, and when the entries of
    the batch are distinct no two [suspicious_path] anomalies refer to
    the same entry. *)
Theorem C5_one_suspicious_path_per_entry (es : list entry)
        (Htyped : Forall (fun e => detect_typed e = true) es)
        (Hprint : forallb printable es = true) :
  exists l, detect_anomalies es = Ok l /\
    map a_entry (of_type suspicious_path l) = filter suspicious_entry es /\
    (forall a, In a l -> a_type a = suspicious_path ->
       a_severity a = high /\
       a_message a
       = lit "Suspicious path access: " ++ field_text "path" (a_entry a)) /\
    (forall e path,
       In e es -> is_parsed e = true ->
       dict_get "path" e = Some (VStr path) ->
       (2 <= length (matching_patterns path))%nat ->
       suspicious_entry e = true /\
       exists a, In a l /\ a_type a = suspicious_path /\ a_entry a = e) /\
    (NoDup es ->
     forall a a', In a l -> In a' l ->
       a_type a = suspicious_path -> a_type a' = suspicious_path ->
       a_entry a = a_entry a' -> a = a').
Proof.
  clear Hprint.
  exists (flat_map anomalies_of es).
  split; [apply detect_anomalies_typed; exact Htyped|].
  pose proof (batch_entries suspicious_path suspicious_entry
                suspicious_anomalies_entry es) as Heq.
  split; [exact Heq|]. split; [|split].
  - intros a Ha Ht. apply in_flat_map in Ha as (e & _ & Ha).
    pose proof (anomalies_of_message _ _ Ha Ht) as Hm.
    apply anomalies_of_severity in Ha as [-> Hs].
    rewrite Hs, Ht. split; [reflexivity | exact Hm].
  - intros e path He Hp Hpath Hmany.
    assert (Hs : suspicious_entry e = true).
    { unfold suspicious_entry, field_text. rewrite Hp, Hpath.
      destruct (matching_patterns path); [simpl in Hmany; lia | reflexivity]. }
    split; [exact Hs|].
    assert (Hin : In e (map a_entry
                          (of_type suspicious_path
                                   (flat_map anomalies_of es)))).
    { rewrite Heq. apply filter_In. auto. }
    apply in_map_iff in Hin as (a & Hae & Ha).
    apply of_type_In in Ha as [Ha Ht]. exists a. auto.
  - intros Hnd a a' Ha Ha' Ht Ht' E.
    apply (@NoDup_map_eq _ _ a_entry
             (of_type suspicious_path (flat_map anomalies_of es))).
    + rewrite Heq. apply NoDup_filter. exact Hnd.
    + apply of_type_In. auto.
    + apply of_type_In. auto.
    + exact E.
Qed.

Lemma C5_witness_wp_admin_config :
  Forall (fun e => detect_typed e = true) mixed_batch /\
  forallb printable mixed_batch = true /\
  (2 <= length (matching_patterns (lit "/wp-admin/config.php")))%nat /\
  exists l, detect_anomalies mixed_batch = Ok l /\
    map a_entry (of_type suspicious_path l)
    = [entry_wp_admin; entry_wp_admin].
Proof.
  assert (Hty : Forall (fun e => detect_typed e = true) mixed_batch)
    by (repeat constructor).
  assert (Hpr : forallb printable mixed_batch = true)
    by (vm_compute; reflexivity).
  assert (Hm : (2 <= length (matching_patterns
                                (lit "/wp-admin/config.php")))%nat)
    by (vm_compute; lia).
  split; [exact Hty|]. split; [exact Hpr|]. split; [exact Hm|].
  destruct (@C5_one_suspicious_path_per_entry mixed_batch Hty Hpr)
    as (l & Hl & Heq & _).
  exists l. split; [exact Hl|]. rewrite Heq. vm_compute. reflexivity.
Defined.

Lemma text_column (k : string) (entries : list entry) :
  Forall (fun e => field_ok is_text k e = true) entries ->
  Forall (fun v => is_text v = true) (column k (filter is_parsed entries)).
Proof.
  intros H. apply column_typed, Forall_filter, H.
Qed.

Lemma top_keys_text (n : nat) (l : list value) (t : list (value * Z)) :
  Forall (fun v => is_text v = true) l -> is_top value_eqb n l t ->
  forall k, In k (map fst t) -> is_text k = true.
Proof.
  intros Hl (_ & _ & Hrow & _) k Hk.
  apply in_map_iff in Hk as ([k' c] & E & Hin). simpl in E. subst k'.
  rewrite Forall_forall in Hl. apply Hl, (Hrow k c Hin).
Qed.

(** C8: for a batch whose [ip] and [path] values are text, the
    [top_ips] and [top_paths] tables of [analyze_entries] have at most
    10 rows and are the tables of the 10 most frequent [ip]
    (respectively [path]) values among the parsed entries that expose
    the field: one row per value with its number of occurrences, rows in
    decreasing frequency with ties in order of first appearance, and a
    value is left out only when the table has its 10 rows and each of
    them ranks before it.  Both tables are present as soon as one entry
    is parsed, and their keys are text. *)
Theorem C8_top_tables_ten_most_frequent (entries : list entry) (r : analysis)
        (Htext : forallb text_keys entries = true)
        (Hr : analyze_entries entries = Ok r) :
  (forall v, dict_get "top_ips" r = Some v ->
     exists t, v = ATable t /\ (length t <= 10)%nat /\
       is_top value_eqb 10 (column "ip" (filter is_parsed entries)) t /\
       forall k, In k (map fst t) -> is_text k = true) /\
  (forall v, dict_get "top_paths" r = Some v ->
     exists t, v = ATable t /\ (length t <= 10)%nat /\
       is_top value_eqb 10 (column "path" (filter is_parsed entries)) t /\
       forall k, In k (map fst t) -> is_text k = true) /\
  (filter is_parsed entries <> [] ->
   dict_has "top_ips" r = true /\ dict_has "top_paths" r = true).
Proof.
  assert (Hip : Forall (fun v => is_text v = true)
                       (column "ip" (filter is_parsed entries))).
  { apply text_column, Forall_forall. intros e He.
    apply (proj1 (forallb_forall _ _) Htext) in He.
    apply andb_true_iff in He. tauto. }
  assert (Hpath : Forall (fun v => is_text v = true)
                         (column "path" (filter is_parsed entries))).
  { apply text_column, Forall_forall. intros e He.
    apply (proj1 (forallb_forall _ _) Htext) in He.
    apply andb_true_iff in He. tauto. }
  clear Htext.
  pose proof (@analyze_entries_top entries r "top_ips" "ip" Hr) as Hi.
  pose proof (@analyze_entries_top entries r "top_paths" "path" Hr) as Hp.
  rewrite Hi, Hp by auto. unfold dict_has. rewrite Hi, Hp by auto.
  destruct (filter is_parsed entries) as [|p ps].
  - repeat split; try discriminate. all: congruence.
  - split; [|split].
    + intros v Hv. injection Hv as <-. eexists. split; [reflexivity|].
      pose proof (@most_common_is_top value value_eqb value_eqb_spec 10
                    (column "ip" (p :: ps))) as Htop.
      split; [apply Htop|]. split; [exact Htop|].
      exact (top_keys_text Hip Htop).
    + intros v Hv. injection Hv as <-. eexists. split; [reflexivity|].
      pose proof (@most_common_is_top value value_eqb value_eqb_spec 10
                    (column "path" (p :: ps))) as Htop.
      split; [apply Htop|]. split; [exact Htop|].
      exact (top_keys_text Hpath Htop).
    + intros _. split; reflexivity.
Qed.

Lemma C8_witness_tie_by_first_appearance :
  forallb text_keys tie_batch = true /\
  exists r t,
    analyze_entries tie_batch = Ok r /\
    dict_get "top_ips" r = Some (ATable t) /\
    t = [(VStr (lit "b"), 2); (VStr (lit "a"), 2); (VStr (lit "c"), 1)] /\
    is_top value_eqb 10 (column "ip" (filter is_parsed tie_batch)) t.
Proof.
  assert (Htext : forallb text_keys tie_batch = true)
    by (vm_compute; reflexivity).
  split; [exact Htext|].
  eexists. eexists.
  split; [vm_compute; reflexivity|].
  split; [vm_compute; reflexivity|].
  split; [reflexivity|].
  destruct (proj1 (@C8_top_tables_ten_most_frequent tie_batch _ Htext eq_refl)
                  _ eq_refl) as (t & Ht & _ & Htop & _).
  injection Ht as <-. exact Htop.
Defined.
